(** * The KOOK gateway session client, modelled from [src/ws-client.ts]

    The class [KookWSClient] keeps one WebSocket session to the KOOK gateway
    alive: it performs the HELLO handshake, decodes inbound frames, releases
    EVENT signals in sequence-number order, sends heartbeats, and recovers
    from silence by extra PINGs, RESUME and a full reconnect with backoff.

    The embedding is shallow.  Every method of the class is a computation in
    a state-and-exception monad over a [World]: the fields of the object
    together with the part of the JavaScript host the methods talk to (the
    timer queue, the sockets created so far, the pending gateway requests,
    the draws of [Math.random] consumed so far) and the log of everything the
    client did to the outside.  An [async] method is cut at each [await] into
    a continuation that the timer or the promise which is awaited runs later.

    Numbers.  The wire fields [s] and [sn] and the counters of the class are
    integers; they are modelled in [Z], which agrees with JavaScript doubles
    on the integers of magnitude below 2^53.  Nothing checks that a frame
    carries an integer in [sn]: the reassembler is modelled once more by
    itself on the numbers a frame can carry (module [Wire]), and the
    client's is shown to be that one on integers. *)

From Equations.Prop Require Import Equations Logic.
From Stdlib Require Import ZArith QArith Qcanon Qround String List Lia.
From Stdlib.Strings Require Import Byte.
From stdpp Require Import base gmap strings list fin_maps.
Import ListNotations.
Local Open Scope Z_scope.
Set Warnings "-register-all".

(** ** JSON values and the wire signal *)

(** The payload [d] of a signal has the TypeScript type [unknown]; the client
    reads properties off it after unchecked casts, so it is kept as a JSON
    value and read dynamically. *)
Inductive Json : Type :=
| JNull
| JBool (b : bool)
| JNum (n : Z)
| JStr (str : string)
| JArr (items : list Json)
| JObj (fields : list (string * Json)).

(** Result of the property access [j.k]. *)
Inductive Access : Type :=
| TypeError             (* [j] is null: the access throws *)
| Undefined             (* no such property *)
| Value (v : Json).

Fixpoint assoc (k : string) (fields : list (string * Json)) : option Json :=
  match fields with
  | [] => None
  | (k', v) :: rest => if String.eqb k k' then Some v else assoc k rest
  end.

Definition get_prop (j : Json) (k : string) : Access :=
  match j with
  | JNull => TypeError
  | JObj fields => match assoc k fields with Some v => Value v | None => Undefined end
  | _ => Undefined
  end.

(** JavaScript truthiness, as used by [!this.sessionId]. *)
Definition truthy (j : Json) : bool :=
  match j with
  | JNull => false
  | JBool b => b
  | JNum n => negb (n =? 0)
  | JStr str => negb (String.eqb str "")
  | JArr _ | JObj _ => true
  end.

(** [KookWSSignal] of [types.ts]: [{ s: number; d: unknown; sn?: number }]. *)
Record KookWSSignal : Type := {
  s : Z;
  d : Json;
  sn : option Z;
}.

Module SIGNAL.
Definition EVENT : Z := 0.
Definition HELLO : Z := 1.
Definition PING : Z := 2.
Definition PONG : Z := 3.
Definition RESUME : Z := 4.
Definition RECONNECT : Z := 5.
Definition RESUME_ACK : Z := 6.
End SIGNAL.

Module HELLO_CODE.
Definition SUCCESS : Z := 0.
Definition MISSING_PARAMS : Z := 40100.
Definition INVALID_TOKEN : Z := 40101.
Definition TOKEN_VERIFY_FAIL : Z := 40102.
Definition TOKEN_EXPIRED : Z := 40103.
End HELLO_CODE.

Definition HEARTBEAT_INTERVAL_MS : Z := 30000.
Definition HEARTBEAT_JITTER_MS : Z := 5000.
Definition PONG_TIMEOUT_MS : Z := 6000.

(** [WebSocket.RawData]: a Buffer, an ArrayBuffer or an array of Buffers. *)
Inductive RawData : Type :=
| RBuffer (bytes : list byte)
| RArrayBuffer (bytes : list byte)
| RBuffers (chunks : list (list byte)).

(** ** What the client does to the outside *)

(** Lines written through [options.log]. *)
Inductive LogLine : Type :=
| LGatewayObtained                       (* "gateway URL obtained" *)
| LOpened                                (* "connection opened, waiting for HELLO" *)
| LHelloSuccess (session : option Json)  (* "HELLO success, session=..." *)
| LClosed (code : Z)                     (* "closed (code=..., reason=...)" *)
| LReconnectSignal                       (* "received RECONNECT signal" *)
| LResumeAck                             (* "RESUME_ACK received" *)
| LUnhandled (kind : Z)                  (* "unhandled signal s=..." *)
| LBuffered (n expected : Z)             (* "buffered out-of-order event sn=... (expected ...)" *)
| LPongTimeout                           (* "PONG timeout, attempting recovery" *)
| LRecoveredByPing                       (* "recovery successful via extra PING" *)
| LRecoveredByResume                     (* "recovery successful via RESUME" *)
| LRecoveryFailed                        (* "recovery failed, full reconnect" *)
| LReconnecting (backoff attempt : Z).   (* "reconnecting in ...ms (attempt ...)" *)

(** Lines written through [options.error]. *)
Inductive ErrorLine : Type :=
| EGatewayFailed                         (* "failed to get gateway" *)
| EHelloTimeout                          (* "HELLO timeout (6s)" *)
| EHelloFailed (code : Access)           (* "HELLO failed with code ..." *)
| EMessageParse                          (* "message parse error" *)
| ESocketError                           (* "error" *)
| EJsonParse                             (* "failed to parse JSON" *)
| EHandler                               (* "event handler error" *)
| EPingFailed.                           (* "failed to send PING" *)

(** Frames built with [JSON.stringify] and written to the socket. *)
Inductive Frame : Type :=
| FPing (n : Z)                          (* { s: 2, sn: n } *)
| FResume (n : Z).                       (* { s: 4, d: { sn: n } } *)

Inductive Action : Type :=
| ALog (line : LogLine)
| AError (line : ErrorLine)
| AOnEvent (event : Json)                (* options.onEvent(event) *)
| AOnConnected
| AOnDisconnected
| AOnError
| AGetGateway (request : nat) (compress : Z)
| ANewWebSocket (socket : nat) (url : string)
| ASend (socket : nat) (frame : Frame)
| AClose (socket : nat) (code : option Z)
| ASetInterval (ms : Z)
| ASleep (ms : Z).

(** ** Timers and suspended [async] methods *)

(** The program points at which an [async] method waits for [sleep]. *)
Inductive Cont : Type :=
| KPingSlept (i : Z)        (* attemptRecovery, step 1, after sleep((i + 1) * 2000) *)
| KPongWaited (i : Z)       (* attemptRecovery, step 1, after sleep(PONG_TIMEOUT_MS) *)
| KResumeSlept (i : Z)      (* attemptRecovery, step 2, after sleep((i + 1) * 8000) *)
| KResumeWaited (i : Z)     (* tryResume called from step 2, after sleep(6000) *)
| KBackoffSlept.            (* reconnectWithBackoff, after sleep(backoff) *)

Inductive Callback : Type :=
| CbHello (socket : nat)    (* connect: the HELLO timeout of that socket *)
| CbHeartbeat               (* startHeartbeat: () => this.sendPing() *)
| CbPong                    (* sendPing: the PONG timeout *)
| CbWake (k : Cont).        (* sleep: resolves the promise awaited at k *)

Record Timer : Type := {
  timer_id : nat;
  due : Z;
  period : option Z;        (* Some ms for setInterval *)
  callback : Callback;
}.

Inductive ReadyState : Type := CONNECTING | OPEN | CLOSING | CLOSED.

(** One [connect(url)] call: the socket it created, with what the handlers
    registered on it close over. *)
Record Conn : Type := {
  readyState : ReadyState;
  helloTimeout : nat;       (* timer id *)
  settled : bool;           (* the promise of connect was resolved or rejected *)
}.

(** ** The object and its world *)

Record KookWSClient : Type := {
  ws : option nat;
  sessionId : option Json;
  lastSn : Z;
  heartbeatTimer : option nat;
  pongTimeout : option nat;
  reconnectAttempts : Z;
  buffer : gmap Z KookWSSignal;
  stopped : bool;
  compress : bool;
}.

Record World : Type := {
  client : KookWSClient;
  now : Z;                          (* virtual clock, ms *)
  timers : list Timer;              (* armed timers, in the order they were armed *)
  next_timer : nat;
  sockets : gmap nat Conn;
  next_socket : nat;
  requests : list nat;              (* getGateway calls not yet answered *)
  next_request : nat;
  draws : nat;                      (* calls of Math.random so far *)
  trace : list (Z * Action);        (* what was done, and when, oldest first *)
}.

(** The collaborators the class is given or imports. *)
Class Host : Type := {
  inflate : list byte -> option (list byte);
      (* node:zlib inflate; None when it rejects *)
  utf8 : list byte -> string;
      (* Buffer.toString("utf-8") *)
  JSON_parse : string -> option (option KookWSSignal);
      (* None: SyntaxError; Some None: a falsy value such as null *)
  random : nat -> Q;
      (* the successive results of Math.random() *)
  onEvent_raises : Json -> bool;
      (* whether options.onEvent raises on this event; the other callbacks of
         the owner (log, error, onConnected, onDisconnected, onError) are
         taken to return *)
  WebSocket_raises : string -> bool;
      (* whether new WebSocket(url) throws on this URL *)
}.

Definition set_ws v c := {| ws := v; sessionId := sessionId c; lastSn := lastSn c; heartbeatTimer := heartbeatTimer c; pongTimeout := pongTimeout c; reconnectAttempts := reconnectAttempts c; buffer := buffer c; stopped := stopped c; compress := compress c |}.
Definition set_sessionId v c := {| ws := ws c; sessionId := v; lastSn := lastSn c; heartbeatTimer := heartbeatTimer c; pongTimeout := pongTimeout c; reconnectAttempts := reconnectAttempts c; buffer := buffer c; stopped := stopped c; compress := compress c |}.
Definition set_lastSn v c := {| ws := ws c; sessionId := sessionId c; lastSn := v; heartbeatTimer := heartbeatTimer c; pongTimeout := pongTimeout c; reconnectAttempts := reconnectAttempts c; buffer := buffer c; stopped := stopped c; compress := compress c |}.
Definition set_heartbeatTimer v c := {| ws := ws c; sessionId := sessionId c; lastSn := lastSn c; heartbeatTimer := v; pongTimeout := pongTimeout c; reconnectAttempts := reconnectAttempts c; buffer := buffer c; stopped := stopped c; compress := compress c |}.
Definition set_pongTimeout v c := {| ws := ws c; sessionId := sessionId c; lastSn := lastSn c; heartbeatTimer := heartbeatTimer c; pongTimeout := v; reconnectAttempts := reconnectAttempts c; buffer := buffer c; stopped := stopped c; compress := compress c |}.
Definition set_reconnectAttempts v c := {| ws := ws c; sessionId := sessionId c; lastSn := lastSn c; heartbeatTimer := heartbeatTimer c; pongTimeout := pongTimeout c; reconnectAttempts := v; buffer := buffer c; stopped := stopped c; compress := compress c |}.
Definition set_buffer v c := {| ws := ws c; sessionId := sessionId c; lastSn := lastSn c; heartbeatTimer := heartbeatTimer c; pongTimeout := pongTimeout c; reconnectAttempts := reconnectAttempts c; buffer := v; stopped := stopped c; compress := compress c |}.
Definition set_stopped v c := {| ws := ws c; sessionId := sessionId c; lastSn := lastSn c; heartbeatTimer := heartbeatTimer c; pongTimeout := pongTimeout c; reconnectAttempts := reconnectAttempts c; buffer := buffer c; stopped := v; compress := compress c |}.

Definition set_client v w := {| client := v; now := now w; timers := timers w; next_timer := next_timer w; sockets := sockets w; next_socket := next_socket w; requests := requests w; next_request := next_request w; draws := draws w; trace := trace w |}.
Definition set_now v w := {| client := client w; now := v; timers := timers w; next_timer := next_timer w; sockets := sockets w; next_socket := next_socket w; requests := requests w; next_request := next_request w; draws := draws w; trace := trace w |}.
Definition set_timers v w := {| client := client w; now := now w; timers := v; next_timer := next_timer w; sockets := sockets w; next_socket := next_socket w; requests := requests w; next_request := next_request w; draws := draws w; trace := trace w |}.
Definition set_next_timer v w := {| client := client w; now := now w; timers := timers w; next_timer := v; sockets := sockets w; next_socket := next_socket w; requests := requests w; next_request := next_request w; draws := draws w; trace := trace w |}.
Definition set_sockets v w := {| client := client w; now := now w; timers := timers w; next_timer := next_timer w; sockets := v; next_socket := next_socket w; requests := requests w; next_request := next_request w; draws := draws w; trace := trace w |}.
Definition set_next_socket v w := {| client := client w; now := now w; timers := timers w; next_timer := next_timer w; sockets := sockets w; next_socket := v; requests := requests w; next_request := next_request w; draws := draws w; trace := trace w |}.
Definition set_requests v w := {| client := client w; now := now w; timers := timers w; next_timer := next_timer w; sockets := sockets w; next_socket := next_socket w; requests := v; next_request := next_request w; draws := draws w; trace := trace w |}.
Definition set_next_request v w := {| client := client w; now := now w; timers := timers w; next_timer := next_timer w; sockets := sockets w; next_socket := next_socket w; requests := requests w; next_request := v; draws := draws w; trace := trace w |}.
Definition set_draws v w := {| client := client w; now := now w; timers := timers w; next_timer := next_timer w; sockets := sockets w; next_socket := next_socket w; requests := requests w; next_request := next_request w; draws := v; trace := trace w |}.
Definition set_trace v w := {| client := client w; now := now w; timers := timers w; next_timer := next_timer w; sockets := sockets w; next_socket := next_socket w; requests := requests w; next_request := next_request w; draws := draws w; trace := v |}.

(** The object as the field initialisers and the constructor leave it, in a
    host in which nothing has happened yet. *)
Definition new_client (compress_option : option bool) : KookWSClient :=
  {| ws := None; sessionId := None; lastSn := 0; heartbeatTimer := None;
     pongTimeout := None; reconnectAttempts := 0; buffer := ∅; stopped := false;
     compress := default true compress_option |}.

Definition new_world (compress_option : option bool) : World :=
  {| client := new_client compress_option; now := 0; timers := []; next_timer := 0%nat;
     sockets := ∅; next_socket := 0%nat; requests := []; next_request := 0%nat;
     draws := 0%nat; trace := [] |}.

(** ** The monad: state, and exceptions for [throw] / [try] / [catch] *)

Inductive Exn : Type :=
| XTypeError      (* property access on null *)
| XInflate        (* inflate rejected *)
| XSyntax         (* JSON.parse threw *)
| XConsumer.      (* options.onEvent threw *)

Inductive Outcome (A : Type) : Type :=
| Ret (a : A)
| Throw (e : Exn).
Arguments Ret {A} a.
Arguments Throw {A} e.

Definition M (A : Type) : Type := World -> Outcome A * World.

Definition ret {A} (a : A) : M A := fun w => (Ret a, w).
Definition throw {A} (e : Exn) : M A := fun w => (Throw e, w).
Definition bind {A B} (m : M A) (k : A -> M B) : M B :=
  fun w => match m w with
           | (Ret a, w') => k a w'
           | (Throw e, w') => (Throw e, w')
           end.
Definition try_catch {A} (m : M A) (handler : Exn -> M A) : M A :=
  fun w => match m w with
           | (Ret a, w') => (Ret a, w')
           | (Throw e, w') => handler e w'
           end.

Declare Scope kook_scope.
Delimit Scope kook_scope with kook.
Notation "'let*' x ':=' m 'in' k" := (bind m (fun x => k))
  (at level 10, x name, m at level 100, k at level 200) : kook_scope.
Notation "m ';;' k" := (bind m (fun _ => k))
  (at level 100, k at level 200, right associativity) : kook_scope.
Local Open Scope kook_scope.

Definition get : M World := fun w => (Ret w, w).
Definition this : M KookWSClient := fun w => (Ret (client w), w).
Definition modify (f : World -> World) : M unit := fun w => (Ret tt, f w).
Definition update (f : KookWSClient -> KookWSClient) : M unit :=
  modify (fun w => set_client (f (client w)) w).
Definition when (b : bool) (m : M unit) : M unit := if b then m else ret tt.

Definition emit (a : Action) : M unit :=
  modify (fun w => set_trace (trace w ++ [(now w, a)]) w).
Definition log (line : LogLine) : M unit := emit (ALog line).
Definition error (line : ErrorLine) : M unit := emit (AError line).

(** The final world of a computation, and the actions of a world's trace. *)
Definition exec {A} (m : M A) (w : World) : World := snd (m w).
Definition actions (w : World) : list Action := map snd (trace w).

(** ** The methods of [KookWSClient] *)

Section Methods.

Context {host : Host}.

(** *** Host primitives *)

Definition arm (cb : Callback) (ms : Z) (every : option Z) : M nat :=
  fun w =>
    let id := next_timer w in
    let t := {| timer_id := id; due := now w + ms; period := every; callback := cb |} in
    (Ret id, set_next_timer (S id) (set_timers (timers w ++ [t]) w)).

Definition setTimeout (cb : Callback) (ms : Z) : M nat := arm cb ms None.

Definition setInterval (cb : Callback) (ms : Z) : M nat :=
  emit (ASetInterval ms) ;; arm cb ms (Some ms).

(** [clearTimeout] and [clearInterval]: a handle that is no longer armed is
    ignored. *)
Definition clearTimer (id : nat) : M unit :=
  modify (fun w => set_timers (List.filter (fun t => negb (Nat.eqb (timer_id t) id)) (timers w)) w).

(** [await sleep(ms)], the method going on at [k] when the timer fires. *)
Definition sleep (ms : Z) (k : Cont) : M unit :=
  emit (ASleep ms) ;;
  let* _ := setTimeout (CbWake k) ms in
  ret tt.

Definition Math_random : M Q :=
  fun w => (Ret (random (draws w)), set_draws (S (draws w)) w).

Definition Math_floor (q : Q) : Z := Qfloor q.

(** [Math.pow] on the integers, for an exponent that is not negative. *)
Definition Math_pow (base exponent : Z) : Z := base ^ exponent.

(** [ws.readyState === WebSocket.OPEN] for the socket with that identity. *)
Definition is_open (w : World) (socket : nat) : bool :=
  match sockets w !! socket with
  | Some {| readyState := OPEN |} => true
  | _ => false
  end.

(** [ws.send(frame)]. *)
Definition ws_send (socket : nat) (frame : Frame) : M unit :=
  emit (ASend socket frame).

(** [ws.close(code)]: the socket starts closing; its "close" event comes
    later, from the host. *)
Definition closing (conn : Conn) : Conn :=
  match readyState conn with
  | CONNECTING | OPEN =>
      {| readyState := CLOSING; helloTimeout := helloTimeout conn; settled := settled conn |}
  | CLOSING | CLOSED => conn
  end.

Definition ws_close (socket : nat) (code : option Z) : M unit :=
  emit (AClose socket code) ;;
  modify (fun w => set_sockets (alter closing socket (sockets w)) w).

(** Property access on a payload; throws on null. *)
Definition access (j : Json) (k : string) : M Access :=
  match get_prop j k with
  | TypeError => throw XTypeError
  | a => ret a
  end.

(** A property read into a field of type [string | null]. *)
Definition nullish (a : Access) : option Json :=
  match a with
  | Value JNull | Undefined | TypeError => None
  | Value v => Some v
  end.

(** *** Event delivery and reassembly *)

Definition dispatchEvent (event : Json) : M unit :=
  try_catch
    (emit (AOnEvent event) ;;
     if onEvent_raises event then throw XConsumer else ret tt)
    (fun _ => error EHandler).

(** The loop of [processEventBuffer], from the world [w]. *)
Equations? processEventBuffer (w : World) : Outcome unit * World
  by wf (size (buffer (client w))) lt :=
  processEventBuffer w with inspect (buffer (client w) !! (lastSn (client w) + 1)) := {
    | exist _ None _ => (Ret tt, w);
    | exist _ (Some next) Hnext
        with inspect
          ((update (fun c => set_buffer (delete (lastSn c + 1) (buffer c)) c) ;;
            update (fun c => set_lastSn (lastSn c + 1) c) ;;
            dispatchEvent (d next)) w) := {
        | exist _ (Ret _, w') Hbody => processEventBuffer w';
        | exist _ (Throw e, w') _ => (Throw e, w') } }.
Proof.
  assert (Hsize : (size (buffer (client w)) <> 0)%nat).
  { intros Hz. apply map_size_empty_inv in Hz. rewrite Hz, lookup_empty in Hnext. discriminate. }
  assert (Hbuf : buffer (client w') = delete (lastSn (client w) + 1) (buffer (client w))).
  { unfold bind, update, modify, dispatchEvent, try_catch, emit, error, throw, ret in Hbody.
    simpl in Hbody. destruct (onEvent_raises (d next)); inversion Hbody; reflexivity. }
  rewrite Hbuf. erewrite map_size_delete_Some by eauto. lia.
Qed.

Definition handleEvent (signal : KookWSSignal) : M unit :=
  match sn signal with
  | None => ret tt
  | Some n =>
      let* c := this in
      if n =? lastSn c + 1 then
        update (set_lastSn n) ;;
        dispatchEvent (d signal) ;;
        processEventBuffer
      else if n >? lastSn c + 1 then
        update (fun c => set_buffer (<[n := signal]> (buffer c)) c) ;;
        log (LBuffered n (lastSn c + 1))
      else ret tt
  end.

(** *** Heartbeat *)

Definition clearHeartbeat : M unit :=
  let* c := this in
  match heartbeatTimer c with
  | Some id => clearTimer id ;; update (set_heartbeatTimer None)
  | None => ret tt
  end.

Definition clearPongTimeout : M unit :=
  let* c := this in
  match pongTimeout c with
  | Some id => clearTimer id ;; update (set_pongTimeout None)
  | None => ret tt
  end.

Definition startHeartbeat : M unit :=
  clearHeartbeat ;;
  let* r := Math_random in
  let jitter := Math_floor (r * inject_Z HEARTBEAT_JITTER_MS * 2) - HEARTBEAT_JITTER_MS in
  let interval := HEARTBEAT_INTERVAL_MS + jitter in
  let* id := setInterval CbHeartbeat interval in
  update (set_heartbeatTimer (Some id)).

Definition sendPing : M unit :=
  let* w := get in
  match ws (client w) with
  | None => ret tt
  | Some socket =>
      if negb (is_open w socket) then ret tt
      else
        try_catch (ws_send socket (FPing (lastSn (client w))))
                  (fun _ => error EPingFailed) ;;
        clearPongTimeout ;;
        let* id := setTimeout CbPong PONG_TIMEOUT_MS in
        update (set_pongTimeout (Some id))
  end.

Definition handlePong : M unit := clearPongTimeout.

(** *** Connecting *)

(** [connectFresh] up to its first [await]: the gateway request is issued
    and the method waits for the answer. *)
Definition connectFresh : M unit :=
  let* c := this in
  if stopped c then ret tt
  else
    let* w := get in
    let request := next_request w in
    emit (AGetGateway request (if compress c then 1 else 0)) ;;
    modify (fun w => set_next_request (S request) (set_requests (requests w ++ [request]) w)).

Definition backoff (attempts : Z) : Z :=
  Z.min 60000 (1000 * Math_pow 2 (attempts - 1)).

Definition reconnectWithBackoff : M unit :=
  let* c := this in
  if stopped c then ret tt
  else
    update (fun c => set_reconnectAttempts (reconnectAttempts c + 1) c) ;;
    let* c := this in
    log (LReconnecting (backoff (reconnectAttempts c)) (reconnectAttempts c)) ;;
    sleep (backoff (reconnectAttempts c)) KBackoffSlept.

(** [reconnectWithBackoff] after its [await sleep(backoff)]. *)
Definition reconnectWithBackoff_slept : M unit :=
  let* c := this in
  if negb (stopped c) then connectFresh else ret tt.

(** The [catch] clause of [connectFresh]. *)
Definition connectFresh_catch : M unit :=
  error EGatewayFailed ;;
  let* c := this in
  if negb (stopped c) then reconnectWithBackoff else ret tt.

(** [resolve()] and [reject(...)] of the promise made by the [connect] call
    that created [socket]; only the first of them to run has an effect.
    [connectFresh] awaits that promise inside its [try]: on resolve it is at
    the end of the method, on reject it enters its [catch]. *)
Definition settle (socket : nat) (rejected : bool) : M unit :=
  let* w := get in
  match sockets w !! socket with
  | Some conn =>
      if settled conn then ret tt
      else
        modify (set_sockets (<[socket := {| readyState := readyState conn; helloTimeout := helloTimeout conn; settled := true |}]> (sockets w))) ;;
        if rejected then connectFresh_catch else ret tt
  | None => ret tt
  end.

Definition resolve (socket : nat) : M unit := settle socket false.
Definition reject (socket : nat) : M unit := settle socket true.

(** [connect(url)]: the body of the promise executor.  The handlers it
    registers are [on_open], [on_message], [on_close] and [on_error] below.
    When [new WebSocket(url)] throws, the executor has set nothing yet: the
    promise is rejected and [connectFresh], which awaits it, enters its
    [catch]. *)
Definition connect (url : string) : M unit :=
  let* c := this in
  if stopped c then ret tt
  else if WebSocket_raises url then connectFresh_catch
  else
    let* w := get in
    let socket := next_socket w in
    emit (ANewWebSocket socket url) ;;
    modify (set_next_socket (S socket)) ;;
    update (set_ws (Some socket)) ;;
    let* h := setTimeout (CbHello socket) 6000 in
    modify (fun w => set_sockets (<[socket := {| readyState := CONNECTING; helloTimeout := h; settled := false |}]> (sockets w)) w).

(** The callback of [helloTimeout]. *)
Definition on_helloTimeout (socket : nat) : M unit :=
  error EHelloTimeout ;;
  ws_close socket None ;;
  reject socket.

(** [connectFresh] after [await getGateway(...)] has returned [url]. *)
Definition connectFresh_gateway (url : string) : M unit :=
  log LGatewayObtained ;;
  connect url.

(** *** Reset and resume *)

Definition handleReconnect : M unit :=
  update (set_lastSn 0) ;;
  update (set_sessionId None) ;;
  update (set_buffer ∅) ;;
  (let* c := this in
   match ws c with
   | Some socket => ws_close socket (Some 1000) ;; update (set_ws None)
   | None => ret tt
   end) ;;
  clearHeartbeat ;;
  clearPongTimeout ;;
  let* c := this in
  if negb (stopped c) then connectFresh else ret tt.

Definition handleResumeAck (data : Json) : M unit :=
  let* session_id := access data "session_id" in
  update (set_sessionId (nullish session_id)) ;;
  startHeartbeat.

(** *** Recovery *)

(** Step 2 of [attemptRecovery], at the head of iteration [i] of its loop,
    and step 3 after the loop. *)
Definition recovery_resume_loop (i : Z) : M unit :=
  if i <? 2 then
    let* c := this in
    if stopped c then ret tt
    else sleep ((i + 1) * 8000) (KResumeSlept i)
  else
    log LRecoveryFailed ;;
    handleReconnect.

(** Step 1 of [attemptRecovery], at the head of iteration [i] of its loop. *)
Definition recovery_ping_loop (i : Z) : M unit :=
  if i <? 2 then
    let* c := this in
    if stopped c then ret tt
    else sleep ((i + 1) * 2000) (KPingSlept i)
  else recovery_resume_loop 0.

Definition attemptRecovery : M unit :=
  clearHeartbeat ;;
  clearPongTimeout ;;
  recovery_ping_loop 0.

(** [tryResume] up to its [await sleep(6000)]: [Some false] when it returns
    at once, [None] when it sleeps. *)
Definition tryResume (i : Z) : M (option bool) :=
  let* w := get in
  match ws (client w) with
  | None => ret (Some false)
  | Some socket =>
      if negb (is_open w socket) || negb (match sessionId (client w) with Some v => truthy v | None => false end)
      then ret (Some false)
      else
        try_catch
          (ws_send socket (FResume (lastSn (client w))) ;;
           sleep 6000 (KResumeWaited i) ;;
           ret None)
          (fun _ => ret (Some false))
  end.

(** Step 2, once [tryResume] has returned [resumed]. *)
Definition recovery_resumed (i : Z) (resumed : bool) : M unit :=
  if resumed then log LRecoveredByResume
  else recovery_resume_loop (i + 1).

(** An [async] method goes on after the [sleep] it awaited. *)
Definition wake (k : Cont) : M unit :=
  match k with
  | KPingSlept i =>
      let* w := get in
      if match ws (client w) with Some socket => is_open w socket | None => false end then
        sendPing ;;
        sleep PONG_TIMEOUT_MS (KPongWaited i)
      else recovery_ping_loop (i + 1)
  | KPongWaited i =>
      let* c := this in
      match pongTimeout c with
      | None => log LRecoveredByPing ;; startHeartbeat
      | Some _ => clearPongTimeout ;; recovery_ping_loop (i + 1)
      end
  | KResumeSlept i =>
      let* resumed := tryResume i in
      match resumed with
      | Some b => recovery_resumed i b
      | None => ret tt
      end
  | KResumeWaited i =>
      let* c := this in
      recovery_resumed i (match heartbeatTimer c with Some _ => true | None => false end)
  | KBackoffSlept => reconnectWithBackoff_slept
  end.

(** *** Inbound frames *)

Definition inflateAsync (data : list byte) : M (list byte) :=
  match inflate data with
  | Some bytes => ret bytes
  | None => throw XInflate
  end.

Definition JSON_parse_text (text : string) : M (option KookWSSignal) :=
  match JSON_parse text with
  | Some v => ret v
  | None => throw XSyntax
  end.

Definition parseMessage (data : RawData) : M (option KookWSSignal) :=
  let* c := this in
  let* text :=
    match data with
    | RBuffer bytes =>
        if compress c then
          try_catch
            (let* decompressed := inflateAsync bytes in
             ret (utf8 decompressed))
            (fun _ => ret (utf8 bytes))
        else ret (utf8 bytes)
    | RArrayBuffer bytes => ret (utf8 bytes)
    | RBuffers chunks => ret (utf8 (List.concat chunks))
    end in
  try_catch (JSON_parse_text text)
            (fun _ => error EJsonParse ;; ret None).

Definition handleSignal (signal : KookWSSignal) : M unit :=
  if s signal =? SIGNAL.EVENT then handleEvent signal
  else if s signal =? SIGNAL.PONG then handlePong
  else if s signal =? SIGNAL.RECONNECT then
    log LReconnectSignal ;; handleReconnect
  else if s signal =? SIGNAL.RESUME_ACK then
    log LResumeAck ;; handleResumeAck (d signal)
  else log (LUnhandled (s signal)).

(** The handlers [connect] registers on the socket it creates. *)
Definition on_open (socket : nat) : M unit :=
  log LOpened.

Definition on_message (socket : nat) (data : RawData) : M unit :=
  try_catch
    (let* parsed := parseMessage data in
     match parsed with
     | None => ret tt
     | Some signal =>
         if s signal =? SIGNAL.HELLO then
           (let* w := get in
            match sockets w !! socket with
            | Some conn => clearTimer (helloTimeout conn)
            | None => ret tt
            end) ;;
           let hello := d signal in
           let* code := access hello "code" in
           match code with
           | Value (JNum 0) =>
               let* session_id := access hello "session_id" in
               update (set_sessionId (nullish session_id)) ;;
               update (set_reconnectAttempts 0) ;;
               startHeartbeat ;;
               (let* c := this in log (LHelloSuccess (sessionId c))) ;;
               emit AOnConnected ;;
               resolve socket
           | _ =>
               error (EHelloFailed code) ;;
               ws_close socket None ;;
               reject socket
           end
         else handleSignal signal
     end)
    (fun _ => error EMessageParse).

Definition on_close (socket : nat) (code : Z) : M unit :=
  log (LClosed code) ;;
  (let* w := get in
   match sockets w !! socket with
   | Some conn => clearTimer (helloTimeout conn)
   | None => ret tt
   end) ;;
  clearHeartbeat ;;
  clearPongTimeout ;;
  let* c := this in
  if negb (stopped c) then reconnectWithBackoff else ret tt.

Definition on_error (socket : nat) : M unit :=
  error ESocketError ;;
  emit AOnError.

(** *** The public methods *)

Definition start : M unit :=
  update (set_stopped false) ;;
  connectFresh.

Definition stop : M unit :=
  update (set_stopped true) ;;
  clearHeartbeat ;;
  clearPongTimeout ;;
  (let* c := this in
   match ws c with
   | Some socket => ws_close socket (Some 1000) ;; update (set_ws None)
   | None => ret tt
   end) ;;
  emit AOnDisconnected.

End Methods.

(** ** The host's event loop *)

(** What can happen to the client: a timer comes due, a promise of a
    collaborator is settled, a socket emits an event, or the owner calls one
    of the two public methods. *)
Inductive Event : Type :=
| Tick                                               (* the next timer to come due fires *)
| GatewayReplied (request : nat) (url : option string)   (* getGateway resolved, or rejected *)
| SocketOpened (socket : nat)
| SocketMessage (socket : nat) (data : RawData)
| SocketClosed (socket : nat) (code : Z)
| SocketFailed (socket : nat)
| Started
| Stopped.

(** The timer that fires next: the earliest due and, among timers due at the
    same instant, the one armed first. *)
Fixpoint next_due (ts : list Timer) : option Timer :=
  match ts with
  | [] => None
  | t :: rest =>
      match next_due rest with
      | Some t' => if due t' <? due t then Some t' else Some t
      | None => Some t
      end
  end.

Definition set_readyState (socket : nat) (r : ReadyState) : M unit :=
  modify (fun w =>
    set_sockets
      (alter (fun conn => {| readyState := r; helloTimeout := helloTimeout conn; settled := settled conn |})
             socket (sockets w)) w).

Definition known (w : World) (socket : nat) : bool :=
  match sockets w !! socket with Some _ => true | None => false end.

Section Loop.

Context {host : Host}.

Definition fire (t : Timer) : M unit :=
  match callback t with
  | CbHello socket => on_helloTimeout socket
  | CbHeartbeat => sendPing
  | CbPong => log LPongTimeout ;; attemptRecovery
  | CbWake k => wake k
  end.

(** The clock moves to the instant the timer is due; a [setTimeout] timer is
    spent, a [setInterval] timer is armed again for one period later. *)
Definition tick : M unit :=
  let* w := get in
  match next_due (timers w) with
  | None => ret tt
  | Some t =>
      modify (set_now (Z.max (now w) (due t))) ;;
      clearTimer (timer_id t) ;;
      match period t with
      | Some ms =>
          modify (fun w =>
            let t' := {| timer_id := timer_id t; due := now w + ms; period := Some ms; callback := callback t |} in
            set_timers (timers w ++ [t']) w)
      | None => ret tt
      end ;;
      fire t
  end.

Definition handle (ev : Event) : M unit :=
  match ev with
  | Tick => tick
  | GatewayReplied request url =>
      let* w := get in
      if existsb (Nat.eqb request) (requests w) then
        modify (fun w => set_requests (List.filter (fun r => negb (Nat.eqb r request)) (requests w)) w) ;;
        match url with
        | Some u => connectFresh_gateway u
        | None => connectFresh_catch
        end
      else ret tt
  | SocketOpened socket =>
      let* w := get in
      if known w socket then set_readyState socket OPEN ;; on_open socket else ret tt
  | SocketMessage socket data =>
      let* w := get in
      if known w socket then on_message socket data else ret tt
  | SocketClosed socket code =>
      let* w := get in
      if known w socket then set_readyState socket CLOSED ;; on_close socket code else ret tt
  | SocketFailed socket =>
      let* w := get in
      if known w socket then on_error socket else ret tt
  | Started => start
  | Stopped => stop
  end.

Definition step (w : World) (ev : Event) : World := exec (handle ev) w.

Definition run (evs : list Event) (w : World) : World := fold_left step evs w.

End Loop.

(** ** Reading a trace *)

(** The events handed to the consumer, oldest first. *)
Definition delivered (w : World) : list Json :=
  omap (fun a => match a with AOnEvent e => Some e | _ => None end) (actions w).

(** The frames written to sockets, with the instant of each. *)
Definition sent (w : World) : list (Z * Frame) :=
  omap (fun '(t, a) => match a with ASend _ f => Some (t, f) | _ => None end) (trace w).

(** What was done between the world [w] and a later world [w']. *)
Definition since (w w' : World) : list Action :=
  drop (length (trace w)) (actions w').

(** ** Vocabulary of the statements *)

(** The EVENT signal numbered [n], carrying [payload n]. *)
Definition event_signal (payload : Z -> Json) (n : Z) : KookWSSignal :=
  {| s := SIGNAL.EVENT; d := payload n; sn := Some n |}.

Section Vocabulary.

Context {host : Host}.

(** A run of [handleEvent] calls. *)
Fixpoint handleEvents (signals : list KookWSSignal) : M unit :=
  match signals with
  | [] => ret tt
  | signal :: rest => handleEvent signal ;; handleEvents rest
  end.

(** One iteration of the loop of [processEventBuffer] that found [next]. *)
Definition drain_one (next : KookWSSignal) (w : World) : World :=
  let c := client w in
  let c' := set_lastSn (lastSn c + 1) (set_buffer (delete (lastSn c + 1) (buffer c)) c) in
  let said :=
    (now w, AOnEvent (d next))
      :: (if onEvent_raises (d next) then [(now w, AError EHandler)] else []) in
  set_trace (trace w ++ said) (set_client c' w).

End Vocabulary.

(** The state of the reassembler once the numbers in [seen] have been
    observed, [before] having been delivered earlier: everything up to
    [lastSn] has been delivered, in order, and the buffer holds exactly the
    observed numbers beyond it. *)
Definition in_order (payload : Z -> Json) (before : list Json) (seen : list Z) (w : World) : Prop :=
  0 <= lastSn (client w)
  /\ delivered w = before ++ map payload (seqZ 1 (lastSn (client w)))
  /\ (forall k, 1 <= k <= lastSn (client w) -> k ∈ seen)
  /\ (forall k signal,
        buffer (client w) !! k = Some signal <->
        k ∈ seen /\ lastSn (client w) < k /\ signal = event_signal payload k).

(** ** A host and a gateway for the examples *)

Definition quote : string := String (Ascii.ascii_of_nat 34) EmptyString.
Definition quoted (text : string) : string := (quote ++ text ++ quote)%string.

(** The HELLO frame [{"s":1,"d":{"code":0,"session_id":"s-1"}}] and the
    PONG frame [{"s":3}], as texts and as the values [JSON.parse] makes of
    them. *)
Definition hello_text : string :=
  ("{" ++ quoted "s" ++ ":1," ++ quoted "d" ++ ":{" ++ quoted "code" ++ ":0,"
       ++ quoted "session_id" ++ ":" ++ quoted "s-1" ++ "}}")%string.
Definition pong_text : string := ("{" ++ quoted "s" ++ ":3}")%string.

Definition hello_signal : KookWSSignal :=
  {| s := SIGNAL.HELLO;
     d := JObj [("code"%string, JNum 0); ("session_id"%string, JStr "s-1")];
     sn := None |}.
Definition pong_signal : KookWSSignal :=
  {| s := SIGNAL.PONG; d := JNull; sn := None |}.
Definition reconnect_signal : KookWSSignal :=
  {| s := SIGNAL.RECONNECT; d := JNull; sn := None |}.

(** A host in which [JSON.parse] knows the two frames above and the text
    [null] and rejects every other text, [inflate] accepts the frames that
    begin with the byte 0x78 and returns what follows it, [Math.random]
    returns 0, 1/4, 1/2, 3/4 in turn, and the consumer never raises. *)
Definition scripted : Host := {|
  inflate := fun bytes => match bytes with x78 :: rest => Some rest | _ => None end;
  utf8 := string_of_list_byte;
  JSON_parse := fun text =>
    if String.eqb text hello_text then Some (Some hello_signal)
    else if String.eqb text pong_text then Some (Some pong_signal)
    else if String.eqb text "null" then Some None
    else None;
  random := fun n => Z.of_nat (n mod 4) # 4;
  onEvent_raises := fun _ => false;
  WebSocket_raises := fun _ => false;
|}.

Definition frame (text : string) : RawData := RBuffer (list_byte_of_string text).

(** The session established: the client is started, the gateway answers,
    the socket opens and HELLO arrives, all at instant 0. *)
Definition connected : World :=
  run (host := scripted)
      [Started; GatewayReplied 0 (Some "wss://gateway"%string); SocketOpened 0; SocketMessage 0 (frame hello_text)]
      (new_world None).

(** The first heartbeat is sent and never answered: the world at the instant
    the PONG timeout has fired and [attemptRecovery] has begun. *)
Definition pong_overdue : World :=
  run (host := scripted) [Tick; Tick] connected.

(** The handshake that never comes: the client is started, the gateway
    answers and the socket opens, but no frame arrives. *)
Definition awaiting_hello : World :=
  run (host := scripted)
      [Started; GatewayReplied 0 (Some "wss://gateway"%string); SocketOpened 0]
      (new_world None).

(** ** The claims that do not hold, as they are worded *)

(** "CONNECTING is re-entered only after a backoff delay": before the first
    request for a gateway there has been a [sleep]. *)
Definition backoff_precedes_connecting (acts : list Action) : Prop :=
  forall before request flag after,
    acts = before ++ AGetGateway request flag :: after ->
    exists ms, In (ASleep ms) before.

(** The RECONNECT signal as the specification words it. *)
Definition reconnect_signal_backs_off {host : Host} (w : World) : Prop :=
  let w' := exec (handleSignal reconnect_signal) w in
  lastSn (client w') = 0
  /\ sessionId (client w') = None
  /\ buffer (client w') = ∅
  /\ ws (client w') = None
  /\ backoff_precedes_connecting (since w w').

(** The jitter that [startHeartbeat] makes of the [n]th draw. *)
Definition jitter_of_draw {host : Host} (n : nat) : Z :=
  Math_floor (random n * inject_Z HEARTBEAT_JITTER_MS * 2) - HEARTBEAT_JITTER_MS.

Fixpoint gaps (start : Z) (instants : list Z) : list Z :=
  match instants with
  | [] => []
  | t :: rest => (t - start) :: gaps t rest
  end.

(** "The jitter is recomputed on each cycle": the cycles of a heartbeat
    started at [start] with the draw numbered [first] last the base interval
    plus the jitter of one draw after the other. *)
Definition jitter_recomputed_each_cycle {host : Host} (start : Z) (first : nat) (pings : list Z) : Prop :=
  gaps start pings
  = map (fun n => HEARTBEAT_INTERVAL_MS + jitter_of_draw n) (seq first (length pings)).

(** The text that [parseMessage] hands to [JSON.parse] when decompression
    is tried first on every binary frame, and what it returns then. *)
Definition text_decompressing_first {host : Host} (data : RawData) : string :=
  match data with
  | RBuffer bytes =>
      match inflate bytes with
      | Some inflated => utf8 inflated
      | None => utf8 bytes
      end
  | RArrayBuffer bytes => utf8 bytes
  | RBuffers chunks => utf8 (List.concat chunks)
  end.

Definition decoded {host : Host} (text : string) : option KookWSSignal :=
  match JSON_parse text with
  | Some v => v
  | None => None
  end.

Definition decompresses_first {host : Host} (w : World) (data : RawData) : Prop :=
  fst (parseMessage data w) = Ret (decoded (text_decompressing_first data)).

(** The text that [parseMessage] does hand to [JSON.parse]. *)
Definition text_of_frame {host : Host} (compress : bool) (data : RawData) : string :=
  match data with
  | RBuffer bytes =>
      if compress then text_decompressing_first data else utf8 bytes
  | _ => text_decompressing_first data
  end.

(** A world like [connected] whose client was made with [compress: false]. *)
Definition uncompressed : World :=
  set_client (set_ws (Some 0%nat) (new_client (Some false))) (new_world (Some false)).

(** Three heartbeats, each answered by PONG. *)
Definition answered : World :=
  run (host := scripted)
      [Tick; SocketMessage 0 (frame pong_text);
       Tick; SocketMessage 0 (frame pong_text);
       Tick]
      connected.

(** Nothing but timers for the rest of the minute after the PONG timeout. *)
Definition silent_minute : World :=
  run (host := scripted) (repeat Tick 22) pong_overdue.

(** The HELLO timeout fires and the socket it closed reports its closure. *)
Definition timed_out : World :=
  run (host := scripted) [Tick; SocketClosed 0 1005] awaiting_hello.

(** The PONG frame, compressed as [scripted] understands compression. *)
Definition compressed_pong : RawData :=
  RBuffer (x78 :: list_byte_of_string pong_text).

(** What recovery must not have done as long as it has not given up. *)
Definition escalated (a : Action) : bool :=
  match a with
  | ASend _ (FResume _) | AClose _ _ | AGetGateway _ _ | ALog LRecoveryFailed => true
  | _ => false
  end.

(** ** The reassembler on the numbers of the wire *)

(** [parseMessage] returns what [JSON.parse] made of the frame, cast to
    [KookWSSignal] without a check, so [handleEvent] is handed whatever number
    the frame carries in [sn]: an integer, as the gateway sends, but a
    fraction just as well, or an infinity (from a literal beyond the range
    of a double; [JSON.parse] yields no NaN).  The reassembler is modelled
    here by itself on those numbers: its state is [lastSn], the buffer and
    the events handed to [onEvent] so far.  A finite number is the rational
    it denotes; [lastSn] is only ever assigned a number found equal to
    [lastSn + 1], so it stays finite. *)
Module Wire.

Local Open Scope Qc_scope.

Inductive Number : Type :=
| Finite (q : Qc)
| PlusInfinity
| MinusInfinity.

#[global] Instance Number_eq_dec : EqDecision Number.
Proof. solve_decision. Defined.

#[global] Instance Number_countable : Countable Number :=
  inj_countable'
    (fun n => match n with
              | Finite q => inl q
              | PlusInfinity => inr true
              | MinusInfinity => inr false
              end)
    (fun x => match x with
              | inl q => Finite q
              | inr true => PlusInfinity
              | inr false => MinusInfinity
              end)
    (fun n => match n with
              | Finite _ | PlusInfinity | MinusInfinity => eq_refl
              end).

(** The two fields of a signal that [handleEvent] reads. *)
Record Signal : Type := {
  d : Json;
  sn : option Number;
}.

Record Reassembler : Type := {
  lastSn : Qc;
  buffer : gmap Number Signal;
  delivered : list Json;
}.

(** [dispatchEvent]: the consumer is called; what it throws is caught and
    reported, and the reassembler is as it was. *)
Definition dispatchEvent (event : Json) (r : Reassembler) : Reassembler :=
  {| lastSn := lastSn r; buffer := buffer r; delivered := delivered r ++ [event] |}.

Equations? processEventBuffer (r : Reassembler) : Reassembler
  by wf (size (buffer r)) lt :=
  processEventBuffer r with inspect (buffer r !! Finite (lastSn r + 1)) := {
    | exist _ None _ => r;
    | exist _ (Some next) Hnext =>
        processEventBuffer
          (dispatchEvent (d next)
             {| lastSn := lastSn r + 1;
                buffer := delete (Finite (lastSn r + 1)) (buffer r);
                delivered := delivered r |}) }.
Proof.
  simpl. erewrite map_size_delete_Some by eauto.
  assert (size (buffer r) <> 0%nat); [ | lia ].
  intros Hz. apply map_size_empty_inv in Hz. rewrite Hz, lookup_empty in Hnext. discriminate.
Qed.

Definition handleEvent (signal : Signal) (r : Reassembler) : Reassembler :=
  match sn signal with
  | None => r
  | Some (Finite q) =>
      if decide (q = lastSn r + 1) then
        processEventBuffer
          (dispatchEvent (d signal)
             {| lastSn := q; buffer := buffer r; delivered := delivered r |})
      else if decide (lastSn r + 1 < q) then
        {| lastSn := lastSn r; buffer := <[Finite q := signal]> (buffer r); delivered := delivered r |}
      else r
  | Some PlusInfinity =>
      {| lastSn := lastSn r; buffer := <[PlusInfinity := signal]> (buffer r); delivered := delivered r |}
  | Some MinusInfinity => r
  end.

(** What [handleReconnect] does to the reassembler. *)
Definition handleReconnect (r : Reassembler) : Reassembler :=
  {| lastSn := 0; buffer := ∅; delivered := delivered r |}.

(** The states the reassembler can reach from [lastSn = 0] and an empty
    buffer when the signals it is handed are those that [admitted] holds
    of. *)
Inductive reachable (admitted : Signal -> Prop) : Reassembler -> Prop :=
| reach_initial r :
    lastSn r = 0 -> buffer r = ∅ -> reachable admitted r
| reach_handleEvent signal r :
    admitted signal -> reachable admitted r -> reachable admitted (handleEvent signal r)
| reach_processEventBuffer r :
    reachable admitted r -> reachable admitted (processEventBuffer r)
| reach_handleReconnect r :
    reachable admitted r -> reachable admitted (handleReconnect r).

(** [k > lastSn], as JavaScript compares them. *)
Definition above (last : Qc) (k : Number) : Prop :=
  match k with
  | Finite q => last < q
  | PlusInfinity => True
  | MinusInfinity => False
  end.

Definition keys_above_lastSn (r : Reassembler) : Prop :=
  forall k signal, buffer r !! k = Some signal -> above (lastSn r) k.

(** The signal carries an integer in [sn], or no [sn]. *)
Definition whole (signal : Signal) : Prop :=
  match sn signal with
  | None => True
  | Some (Finite q) => exists z : Z, q = Qc_of_Z z
  | Some _ => False
  end.

Definition any (signal : Signal) : Prop := True.

(** A signal numbered [q], and the reassembler of a new client. *)
Definition numbered (q : Qc) : Signal := {| d := JNull; sn := Some (Finite q) |}.

Definition initial : Reassembler := {| lastSn := 0; buffer := ∅; delivered := [] |}.

(** The numbers 3/2, 1 and 2 arrive in that order. *)
Definition overtaken : Reassembler :=
  handleEvent (numbered 2)
    (handleEvent (numbered 1)
       (handleEvent (numbered (Q2Qc (3 # 2))) initial)).

End Wire.

(** The reassembler inside a world of the client, when its numbers are
    integers, seen on the numbers of the wire. *)
Definition wire_number (n : Z) : Wire.Number := Wire.Finite (Qc_of_Z n).

Definition wire_signal (signal : KookWSSignal) : Wire.Signal :=
  {| Wire.d := d signal; Wire.sn := wire_number <$> sn signal |}.

#[global] Instance wire_number_inj : Inj (=) (=) wire_number.
Proof.
  intros n m Hsame. unfold wire_number in Hsame.
  assert (Hq : Qc_of_Z n = Qc_of_Z m) by congruence. apply Z2Qc_inj, Hq.
Qed.

Definition wire_of (w : World) : Wire.Reassembler :=
  {| Wire.lastSn := Qc_of_Z (lastSn (client w));
     Wire.buffer := kmap wire_number (wire_signal <$> buffer (client w));
     Wire.delivered := delivered w |}.


(** ** Vocabulary of the invariants *)

(** A computation keeps a property of the world, whatever it returns or
    throws. *)
Definition keeps (I : World -> Prop) {A} (m : M A) : Prop :=
  forall w, I w -> I (exec m w).

(** The counters are not negative. *)
Definition sound_numbers (w : World) : Prop :=
  0 <= lastSn (client w)
  /\ 0 <= reconnectAttempts (client w).

Definition is_pong (t : Timer) : bool :=
  match callback t with CbPong => true | _ => false end.

Definition is_heartbeat (t : Timer) : bool :=
  match callback t with CbHeartbeat => true | _ => false end.

(** The armed timers have distinct handles, all issued already, and an
    armed PONG timeout or heartbeat timer is the one the object holds. *)
Definition timers_disciplined (w : World) : Prop :=
  NoDup (map timer_id (timers w))
  /\ (forall t, In t (timers w) -> (timer_id t < next_timer w)%nat)
  /\ (forall t, In t (timers w) -> is_pong t = true ->
        pongTimeout (client w) = Some (timer_id t))
  /\ (forall t, In t (timers w) -> is_heartbeat t = true ->
        heartbeatTimer (client w) = Some (timer_id t)).

(** The actions that begin a connection. *)
Definition opens (a : Action) : bool :=
  match a with
  | AGetGateway _ _ | ANewWebSocket _ _ => true
  | _ => false
  end.

Definition opened (w : World) : list Action := List.filter opens (actions w).

(** The client is stopped and has begun the connections [sofar], no more. *)
Definition halted (sofar : list Action) (w : World) : Prop :=
  stopped (client w) = true /\ opened w = sofar.

(** The worlds the event loop can bring a new client to. *)
Inductive in_loop {host : Host} : World -> Prop :=
| loop_new compress_option : in_loop (new_world compress_option)
| loop_step w ev : in_loop w -> in_loop (step w ev).

(** The fields of the object other than [lastSn] and the buffer, and the
    state of the host other than the trace. *)
Definition session_of (c : KookWSClient) :=
  (ws c, sessionId c, heartbeatTimer c, pongTimeout c, reconnectAttempts c, stopped c, compress c).

Definition host_of (w : World) :=
  (now w, timers w, next_timer w, sockets w, next_socket w, requests w, next_request w, draws w).

(** The signals buffered under the numbers that follow [from], as far as
    they go without a gap. *)
Definition buffered_run (w : World) (from : Z) (nexts : list KookWSSignal) : Prop :=
  (forall i next, nexts !! i = Some next ->
                  buffer (client w) !! (from + 1 + Z.of_nat i) = Some next)
  /\ buffer (client w) !! (from + 1 + Z.of_nat (length nexts)) = None.

(** What the loop of [processEventBuffer] keeps, from the world [w0] on. *)
Definition drained_from (w0 w : World) : Prop :=
  lastSn (client w0) <= lastSn (client w)
  /\ Z.of_nat (length (delivered w))
     = Z.of_nat (length (delivered w0)) + (lastSn (client w) - lastSn (client w0))
  /\ Z.of_nat (size (buffer (client w)))
     = Z.of_nat (size (buffer (client w0))) - (lastSn (client w) - lastSn (client w0))
  /\ session_of (client w) = session_of (client w0)
  /\ host_of w = host_of w0.


(** What the loop of [processEventBuffer] keeps while it releases the run
    [nexts] buffered after the number [from]. *)
Definition releasing (w0 : World) (from : Z) (nexts : list KookWSSignal) (w : World) : Prop :=
  exists j : nat,
    (j <= length nexts)%nat
    /\ lastSn (client w) = from + Z.of_nat j
    /\ delivered w = delivered w0 ++ map d (take j nexts)
    /\ (forall k, buffer (client w) !! k
                  = if bool_decide (from < k <= from + Z.of_nat j) then None
                    else buffer (client w0) !! k).


(** One [attemptRecovery] left to itself: each [sleep] of its loops ends and
    the method goes on, nothing else happening in between, for as long as
    neither an extra PING nor a RESUME can be written. *)
Definition recovery_unattended {host : Host} : M unit :=
  attemptRecovery ;;
  wake (KPingSlept 0) ;;
  wake (KPingSlept 1) ;;
  wake (KResumeSlept 0) ;;
  wake (KResumeSlept 1).

(** A step of the unattended recovery: it returns, says [said], and leaves
    the client running on the same dead socket. *)
Definition plods (m : M unit) (said : list Action) (w : World) : Prop :=
  fst (m w) = Ret tt
  /\ actions (exec m w) = actions w ++ said
  /\ stopped (client (exec m w)) = false
  /\ ws (client (exec m w)) = ws (client w)
  /\ compress (client (exec m w)) = compress (client w)
  /\ sockets (exec m w) = sockets w
  /\ next_request (exec m w) = next_request w.

Definition dead (w : World) : Prop :=
  stopped (client w) = false
  /\ match ws (client w) with Some sock => is_open w sock | None => false end = false.


(** A stopped client holds no socket, and the socket a client holds is one
    that [connect] has created. *)
Definition socket_held (w : World) : Prop :=
  (stopped (client w) = true -> ws (client w) = None)
  /\ (forall sock, ws (client w) = Some sock -> known w sock = true).

(** ** The REST client the session asks for its gateway *)

(** The class [KookClient]: [connectFresh] calls its [getGateway], which goes
    through [get] to the private [request], the one place where the client
    talks HTTP.  [request] is sequential and touches no field of the object
    after construction, so it is modelled in direct style: it takes the
    calls made on the network so far and returns how its promise is settled
    and the calls made by then. *)
Module Rest.

Definition BASE_URL : string := "https://www.kookapp.cn/api/v3".

(** The payload of a multipart request is opaque to [request]. *)
Inductive BodyInit (FormData : Type) : Type :=
| FormBody (formData : FormData)
| TextBody (text : string).
Arguments FormBody {FormData} formData.
Arguments TextBody {FormData} text.

(** The argument of [fetch]. *)
Record Request (FormData : Type) : Type := {
  method : string;
  url : string;
  headers : list (string * string);
  fetchBody : option (BodyInit FormData);
}.
Arguments method {FormData} _.
Arguments url {FormData} _.
Arguments headers {FormData} _.
Arguments fetchBody {FormData} _.

(** What [fetch] resolves to, as far as [request] reads it: the status, the
    header [X-Rate-Limit-Reset] ([None]: absent), and what [res.text()] and
    [res.json()] resolve to ([None]: the promise rejects). *)
Record Response : Type := {
  status : Z;
  X_Rate_Limit_Reset : option string;
  text : option string;
  json : option Json;
}.

(** [res.ok]: the status is in the range 200-299. *)
Definition ok (res : Response) : bool := (200 <=? status res) && (status res <=? 299).

(** What the client does on the network: a [fetch], or a [sleep] of so many
    milliseconds ([None]: NaN). *)
Inductive Call (FormData : Type) : Type :=
| Fetch (req : Request FormData)
| Sleep (ms : option Z).
Arguments Fetch {FormData} req.
Arguments Sleep {FormData} ms.

(** The platform and the network: the functions [request] calls, and the
    answer of [fetch] to a request after the calls made so far ([None]: the
    promise rejects).  [parseInt] is the one of base 10; [None] is NaN. *)
Class Platform : Type := {
  FormData : Type;
  JSON_stringify : Json -> string;
  URLSearchParams_toString : list (string * string) -> string;
  parseInt : string -> option Z;
  String_of_number : Z -> string;
  fetch : list (Call FormData) -> Request FormData -> option Response;
}.

(** How the promise of [request] is settled. *)
Inductive Failure : Type :=
| KookRateLimitError (resetAfterMs : option Z)
| HttpError (status : Z) (text : string)       (* Error("KOOK HTTP <status>: <text>") *)
| KookApiError (code message : Access)
| FetchRejected
| JsonRejected
| NullResponse.                                (* [json] is null: reading [json.code] throws *)

Inductive Settled : Type :=
| Resolved (data : Access)
| Failed (e : Failure).

Record KookClient : Type := {
  token : string;
  maxRetries : nat;
}.

(** The constructor: both branches of its conditional keep the token. *)
Definition new_KookClient (given : string) : KookClient :=
  {| token := if String.prefix "Bot " given then given else given;
     maxRetries := 3 |}.

Definition authHeader (c : KookClient) : string := ("Bot " ++ token c)%string.

Section Requests.

Context {platform : Platform}.

Record Opts : Type := {
  body : option Json;
  params : option (list (string * string));
  formData : option FormData;
}.

(** The first half of [request]: the argument of [fetch]. *)
Definition request_url (path : string) (opts : Opts) : string :=
  match params opts with
  | Some ps =>
      let qs := URLSearchParams_toString ps in
      if String.eqb qs "" then (BASE_URL ++ path)%string
      else (BASE_URL ++ path ++ "?" ++ qs)%string
  | None => (BASE_URL ++ path)%string
  end.

Definition request_init (c : KookClient) (method path : string) (opts : Opts) : Request FormData :=
  match formData opts with
  | Some form =>
      {| method := method; url := request_url path opts;
         headers := [("Authorization"%string, authHeader c)];
         fetchBody := Some (FormBody form) |}
  | None =>
      match body opts with
      | Some value =>
          {| method := method; url := request_url path opts;
             headers := [("Authorization"%string, authHeader c);
                         ("Content-Type"%string, "application/json"%string)];
             fetchBody := Some (TextBody (JSON_stringify value)) |}
      | None =>
          {| method := method; url := request_url path opts;
             headers := [("Authorization"%string, authHeader c)];
             fetchBody := None |}
      end
  end.

(** [resetAfter ? parseInt(resetAfter, 10) * 1000 : 5000]: the empty string
    is falsy. *)
Definition waitMs (res : Response) : option Z :=
  match X_Rate_Limit_Reset res with
  | Some resetAfter =>
      if String.eqb resetAfter "" then Some 5000
      else option_map (fun seconds => seconds * 1000) (parseInt resetAfter)
  | None => Some 5000
  end.

(** The end of [request], for a response that is not a 429. *)
Definition answer (res : Response) : Settled :=
  if negb (ok res) then
    Failed (HttpError (status res) (match text res with Some t => t | None => EmptyString end))
  else
    match json res with
    | None => Failed JsonRejected
    | Some j =>
        match get_prop j "code" with
        | TypeError => Failed NullResponse
        | Value (JNum 0) => Resolved (get_prop j "data")
        | code => Failed (KookApiError code (get_prop j "message"))
        end
    end.

Equations? request (c : KookClient) (method path : string) (opts : Opts)
    (retryCount : nat) (net : list (Call FormData)) : Settled * list (Call FormData)
  by wf (maxRetries c - retryCount)%nat lt :=
  request c method path opts retryCount net
    with fetch net (request_init c method path opts) := {
    | None => (Failed FetchRejected, net ++ [Fetch (request_init c method path opts)]);
    | Some res with Z.eq_dec (status res) 429 := {
        | left _ with lt_dec retryCount (maxRetries c) := {
            | left _ =>
                request c method path opts (S retryCount)
                  (net ++ [Fetch (request_init c method path opts); Sleep (waitMs res)]);
            | right _ =>
                (Failed (KookRateLimitError (waitMs res)),
                 net ++ [Fetch (request_init c method path opts)]) };
        | right _ => (answer res, net ++ [Fetch (request_init c method path opts)]) } }.
Proof. lia. Qed.

Definition get (c : KookClient) (path : string) (params : option (list (string * string))) :=
  request c "GET" path {| body := None; params := params; formData := None |} 0.

Definition post (c : KookClient) (path : string) (body : option Json) :=
  request c "POST" path {| body := body; params := None; formData := None |} 0.

Definition postForm (c : KookClient) (path : string) (formData : FormData) :=
  request c "POST" path {| body := None; params := None; formData := Some formData |} 0.

(** [getGateway(compress = 0)]. *)
Definition getGateway (c : KookClient) (compress : option Z) :=
  get c "/gateway/index"
      (Some [("compress"%string,
              String_of_number (match compress with Some n => n | None => 0 end))]).

(** The reactions: [userId] is sent only when truthy. *)
Definition reaction_body (msgId emoji : string) (userId : option string) : Json :=
  JObj ([("msg_id"%string, JStr msgId); ("emoji"%string, JStr emoji)]
        ++ match userId with
           | Some user => if String.eqb user "" then [] else [("user_id"%string, JStr user)]
           | None => []
           end).

Definition addReaction (c : KookClient) (msgId emoji : string) :=
  post c "/message/add-reaction" (Some (JObj [("msg_id"%string, JStr msgId); ("emoji"%string, JStr emoji)])).

Definition deleteReaction (c : KookClient) (msgId emoji : string) (userId : option string) :=
  post c "/message/delete-reaction" (Some (reaction_body msgId emoji userId)).

Definition addDirectReaction (c : KookClient) (msgId emoji : string) :=
  post c "/direct-message/add-reaction" (Some (JObj [("msg_id"%string, JStr msgId); ("emoji"%string, JStr emoji)])).

Definition deleteDirectReaction (c : KookClient) (msgId emoji : string) (userId : option string) :=
  post c "/direct-message/delete-reaction" (Some (reaction_body msgId emoji userId)).

End Requests.

(** [createKookClient], given the token of a configuration. *)
Definition createKookClient (token : string) : KookClient := new_KookClient token.

(** The rounds of [request]: the request is fetched and answered with a 429
    whose wait is then slept, once for each wait of the list. *)
Fixpoint throttled {platform : Platform} (req : Request FormData) (net : list (Call FormData))
    (waits : list (option Z)) : Prop :=
  match waits with
  | [] => True
  | ms :: rest =>
      (exists res, fetch net req = Some res /\ status res = 429 /\ ms = waitMs res)
      /\ throttled req (net ++ [Fetch req; Sleep ms]) rest
  end.

Definition rounds {platform : Platform} (req : Request FormData) (waits : list (option Z))
  : list (Call FormData) :=
  flat_map (fun ms => [Fetch req; Sleep ms]) waits.

End Rest.

(** ** The typing indicator *)

(** KOOK has no typing indicator; the plugin puts a reaction on the user's
    message and takes it off again.  Both functions swallow every failure of
    the client. *)
Module Typing.

(** The emoji U+1F4AD, in UTF-8. *)
Definition TYPING_EMOJI : string :=
  String (Ascii.ascii_of_nat 240) (String (Ascii.ascii_of_nat 159)
    (String (Ascii.ascii_of_nat 146) (String (Ascii.ascii_of_nat 173) EmptyString))).

Inductive ChannelType : Type := GROUP | PERSON.

Record TypingIndicatorState : Type := {
  messageId : string;
  channelType : ChannelType;
  emoji : string;
}.

Section Indicator.

Context {platform : Rest.Platform}.

(** [token] is [cfg.channels?.kook?.token]: [None] when any of the three is
    missing. *)
Definition addTypingIndicator (token : option string) (messageId : string) (channelType : ChannelType)
    (net : list (Rest.Call Rest.FormData)) : TypingIndicatorState * list (Rest.Call Rest.FormData) :=
  let state := {| messageId := messageId; channelType := channelType; emoji := TYPING_EMOJI |} in
  match token with
  | None => (state, net)
  | Some given =>
      if String.eqb given "" then (state, net)
      else
        let client := Rest.createKookClient given in
        (state,
         snd (match channelType with
              | PERSON => Rest.addDirectReaction client messageId TYPING_EMOJI net
              | GROUP => Rest.addReaction client messageId TYPING_EMOJI net
              end))
  end.

Definition removeTypingIndicator (token : option string) (state : TypingIndicatorState)
    (net : list (Rest.Call Rest.FormData)) : list (Rest.Call Rest.FormData) :=
  match token with
  | None => net
  | Some given =>
      if String.eqb given "" then net
      else
        let client := Rest.createKookClient given in
        snd (match channelType state with
             | PERSON => Rest.deleteDirectReaction client (messageId state) (emoji state) None net
             | GROUP => Rest.deleteReaction client (messageId state) (emoji state) None net
             end)
  end.

End Indicator.

(** The request of a reaction: a POST of the JSON body naming the message
    and the emoji. *)
Definition reaction_request {platform : Rest.Platform} (given path messageId emoji : string)
  : Rest.Request Rest.FormData :=
  {| Rest.method := "POST";
     Rest.url := (Rest.BASE_URL ++ path)%string;
     Rest.headers := [("Authorization"%string, ("Bot " ++ given)%string);
                      ("Content-Type"%string, "application/json"%string)];
     Rest.fetchBody :=
       Some (Rest.TextBody (Rest.JSON_stringify
               (JObj [("msg_id"%string, JStr messageId); ("emoji"%string, JStr emoji)]))) |}.

End Typing.

(** ** More hosts for the examples *)

(** A gateway that refuses the handshake, and one whose HELLO has no
    payload: [JSON.parse] reads every frame as that HELLO. *)
Definition refused_signal : KookWSSignal :=
  {| s := SIGNAL.HELLO; d := JObj [("code"%string, JNum HELLO_CODE.INVALID_TOKEN)]; sn := None |}.

Definition bare_signal : KookWSSignal :=
  {| s := SIGNAL.HELLO; d := JNull; sn := None |}.

Definition answering (signal : KookWSSignal) : Host := {|
  inflate := fun _ => None;
  utf8 := string_of_list_byte;
  JSON_parse := fun _ => Some (Some signal);
  random := fun _ => 0%Q;
  onEvent_raises := fun _ => false;
  WebSocket_raises := fun _ => false;
|}.

(** Platforms for the REST client: over a server that answers the first
    [patience] tries with a 429 naming two seconds and the next with the
    gateway, and over one that answers every try with that 429. *)
Definition gateway_data : Json := JObj [("url"%string, JStr "wss://gateway")].

Definition too_many : Rest.Response :=
  {| Rest.status := 429; Rest.X_Rate_Limit_Reset := Some "2"%string;
     Rest.text := Some "slow down"%string; Rest.json := None |}.

Definition served : Rest.Response :=
  {| Rest.status := 200; Rest.X_Rate_Limit_Reset := None; Rest.text := None;
     Rest.json := Some (JObj [("code"%string, JNum 0); ("message"%string, JStr "ok");
                              ("data"%string, gateway_data)]) |}.

Definition platform_over
    (fetch : list (Rest.Call unit) -> Rest.Request unit -> option Rest.Response) : Rest.Platform := {|
  Rest.FormData := unit;
  Rest.JSON_stringify := fun _ => "null"%string;
  Rest.URLSearchParams_toString :=
    fun ps => match ps with
              | [(k, v)] => (k ++ "=" ++ v)%string
              | _ => EmptyString
              end;
  Rest.parseInt := fun text => if String.eqb text "2" then Some 2 else None;
  Rest.String_of_number := fun n => if n =? 1 then "1"%string else "0"%string;
  Rest.fetch := fetch;
|}.

Definition serving_after (patience : nat) : Rest.Platform :=
  platform_over (fun history _ =>
    if (length history <? 2 * patience)%nat then Some too_many else Some served).

Definition throttling : Rest.Platform := platform_over (fun _ _ => Some too_many).

Definition gateway_opts {platform : Rest.Platform} : Rest.Opts :=
  {| Rest.body := None; Rest.params := Some [("compress"%string, "1"%string)]; Rest.formData := None |}.

Definition resume_ack_signal : KookWSSignal :=
  {| s := SIGNAL.RESUME_ACK; d := JObj [("session_id"%string, JStr "s-1")]; sn := None |}.

(** * Properties *)

(** ** Sequence reassembly *)

(** Unfolds the plumbing of the monad. *)
Ltac monad :=
  cbv beta iota delta [bind ret throw try_catch get this modify update when emit log error exec];
  simpl.

Section Reassembler.

Context {host : Host}.

Lemma dispatchEvent_run (event : Json) (w : World) :
  dispatchEvent event w
  = (Ret tt,
     set_trace (trace w ++ (now w, AOnEvent event)
                  :: (if onEvent_raises event then [(now w, AError EHandler)] else [])) w).
Proof.
  unfold dispatchEvent. monad.
  destruct (onEvent_raises event); simpl; [ | reflexivity ].
  unfold set_trace; simpl. rewrite <- app_assoc. reflexivity.
Qed.

Lemma drain_body_run (next : KookWSSignal) (w : World) :
  (update (fun c => set_buffer (delete (lastSn c + 1) (buffer c)) c) ;;
   update (fun c => set_lastSn (lastSn c + 1) c) ;;
   dispatchEvent (d next)) w
  = (Ret tt, drain_one next w).
Proof.
  monad. rewrite dispatchEvent_run. reflexivity.
Qed.

(** The rule of the [while] loop: the loop ends, by its [break], in a world
    where the next sequence number is not buffered, and every property kept
    by an iteration holds there. *)
Lemma processEventBuffer_rule (P : World -> Prop) :
  (forall w next,
      P w -> buffer (client w) !! (lastSn (client w) + 1) = Some next ->
      P (drain_one next w)) ->
  forall w, P w ->
  exists w', processEventBuffer w = (Ret tt, w')
             /\ P w'
             /\ buffer (client w') !! (lastSn (client w') + 1) = None.
Proof.
  intros Hkeep w. funelim (processEventBuffer w); intros HP.
  - exists w. auto.
  - pose proof Hbody as Hrun. rewrite drain_body_run in Hrun.
    inversion Hrun; subst.
    match goal with
    | IH : context [processEventBuffer (drain_one _ _) = (Ret tt, _)] |- _ => apply IH
    end; auto.
  - match goal with
    | E : _ = (Throw _, _) |- _ =>
        pose proof E as Hrun; rewrite drain_body_run in Hrun; discriminate Hrun
    end.
Qed.


Lemma delivered_snoc (w w' : World) (said : list (Z * Action)) :
  trace w' = trace w ++ said ->
  delivered w'
  = delivered w ++ omap (fun a => match a with AOnEvent e => Some e | _ => None end) (map snd said).
Proof.
  intros Htrace. unfold delivered, actions. rewrite Htrace, map_app, omap_app. reflexivity.
Qed.

Lemma delivered_drain_one (next : KookWSSignal) (w : World) :
  delivered (drain_one next w) = delivered w ++ [d next].
Proof.
  unfold drain_one, delivered, actions. simpl. rewrite map_app, omap_app. simpl.
  destruct (onEvent_raises (d next)); reflexivity.
Qed.

Lemma handleReconnect_reassembler (w : World) :
  lastSn (client (exec handleReconnect w)) = 0
  /\ buffer (client (exec handleReconnect w)) = ∅.
Proof.
  destruct w as [[socket session n heartbeat pong attempts buf halted comp] ? ? ? ? ? ? ? ? ?].
  unfold handleReconnect, clearHeartbeat, clearPongTimeout, connectFresh, ws_close, clearTimer.
  destruct socket, heartbeat, pong, halted; monad; auto.
Qed.

(** C10. A signal without [sn] is dropped by [handleEvent]: nothing is
    delivered, and [lastSn], the buffer and the rest of the world stay as
    they were; so it is for an EVENT signal routed through [handleSignal]. *)
Theorem handleEvent_without_sn (signal : KookWSSignal) (w : World) :
  sn signal = None ->
  handleEvent signal w = (Ret tt, w)
  /\ (s signal = SIGNAL.EVENT -> handleSignal signal w = (Ret tt, w)).
Proof.
  intros Hsn.
  assert (Hdrop : handleEvent signal w = (Ret tt, w)).
  { unfold handleEvent. rewrite Hsn. reflexivity. }
  split; [ exact Hdrop | ].
  intros Hkind. unfold handleSignal. rewrite Hkind. simpl. exact Hdrop.
Qed.

End Reassembler.

(** ** The reassembler on the numbers of the wire *)

Section Wire_numbers.

Local Open Scope Qc_scope.

(** The invariant of the reassembler fed with integers: [lastSn] is the
    integer [last], and every key is an integer beyond [bound]. *)
Definition integers_beyond (last bound : Z) (r : Wire.Reassembler) : Prop :=
  Wire.lastSn r = Qc_of_Z last
  /\ forall k signal, Wire.buffer r !! k = Some signal ->
       exists key : Z, k = Wire.Finite (Qc_of_Z key) /\ (bound < key)%Z.

Lemma wire_next (last : Z) : Qc_of_Z last + 1 = Qc_of_Z (last + 1).
Proof. rewrite Z2Qc_inj_add, Z2Qc_inj_1. reflexivity. Qed.

Lemma processEventBuffer_integers (r : Wire.Reassembler) :
  forall last, integers_beyond last last r ->
  exists last', integers_beyond last' (last' + 1) (Wire.processEventBuffer r).
Proof.
  funelim (Wire.processEventBuffer r); intros last [Hlast Hkeys].
  - match goal with IH : forall _ : Z, _ |- _ => apply (IH (last + 1)%Z) end.
    split; simpl.
    + rewrite Hlast. apply wire_next.
    + intros k signal Hk. apply lookup_delete_Some in Hk as [Hne Hk].
      destruct (Hkeys k signal Hk) as (key & -> & Hkey).
      exists key. split; [ reflexivity | ].
      destruct (decide (key = last + 1)%Z) as [-> | ]; [ | lia ].
      rewrite Hlast, wire_next in Hne. congruence.
  - exists last. split; [ exact Hlast | ].
    intros k signal Hk. destruct (Hkeys k signal Hk) as (key & -> & Hkey).
    exists key. split; [ reflexivity | ].
    destruct (decide (key = last + 1)%Z) as [-> | ]; [ | lia ].
    rewrite <- wire_next, <- Hlast in Hk. congruence.
Qed.

Lemma reachable_integers (r : Wire.Reassembler) :
  Wire.reachable Wire.whole r -> exists last, integers_beyond last (last + 1) r.
Proof.
  induction 1 as [ r Hlast Hbuf | signal r Hwhole _ IH | r _ IH | r _ IH ].
  - exists 0%Z. split; [ rewrite Hlast; symmetry; apply Z2Qc_inj_0 | ].
    intros k signal Hk. rewrite Hbuf, lookup_empty in Hk. discriminate.
  - destruct IH as (last & Hlast & Hkeys). unfold Wire.handleEvent, Wire.whole in *.
    destruct (Wire.sn signal) as [[q | | ] | ]; try contradiction.
    + destruct Hwhole as [z ->].
      destruct (decide (Qc_of_Z z = Wire.lastSn r + 1)) as [Hnext | Hother].
      * apply (processEventBuffer_integers _ z). split; [ reflexivity | ]. simpl.
        intros k signal' Hk. destruct (Hkeys k signal' Hk) as (key & -> & Hkey).
        exists key. split; [ reflexivity | ].
        rewrite Hlast, wire_next in Hnext. apply Z2Qc_inj in Hnext. lia.
      * destruct (decide (Wire.lastSn r + 1 < Qc_of_Z z)) as [Hgap | _].
        -- exists last. split; [ exact Hlast | ]. simpl.
           intros k signal' Hk. apply lookup_insert_Some in Hk as [[<- _] | [_ Hk]].
           ++ exists z. split; [ reflexivity | ].
              rewrite Hlast, wire_next in Hgap. apply Z2Qc_inj_lt in Hgap. exact Hgap.
           ++ apply (Hkeys k signal' Hk).
        -- exists last. split; assumption.
    + exists last. split; assumption.
  - destruct IH as (last & Hlast & Hkeys).
    apply (processEventBuffer_integers r last). split; [ exact Hlast | ].
    intros k signal Hk. destruct (Hkeys k signal Hk) as (key & -> & Hkey).
    exists key. split; [ reflexivity | lia ].
  - exists 0%Z. split; [ symmetry; apply Z2Qc_inj_0 | ].
    intros k signal Hk. simpl in Hk. rewrite lookup_empty in Hk. discriminate.
Qed.

(** C5, as the code has it. When every signal handed to the reassembler
    carries an integer in [sn] (or none), every key of the buffer is greater
    than [lastSn] in every state reachable from [lastSn = 0] and an empty
    buffer by [handleEvent], [processEventBuffer] and the reset of
    [handleReconnect]. *)
Theorem integer_keys_above_lastSn (r : Wire.Reassembler) :
  Wire.reachable Wire.whole r -> Wire.keys_above_lastSn r.
Proof.
  intros Hreach. destruct (reachable_integers r Hreach) as (last & Hlast & Hkeys).
  intros k signal Hk. destruct (Hkeys k signal Hk) as (key & -> & Hkey).
  simpl. rewrite Hlast. apply (proj1 (Z2Qc_inj_lt last key)). lia.
Qed.

Lemma processEventBuffer_done (r : Wire.Reassembler) :
  Wire.buffer r !! Wire.Finite (Wire.lastSn r + 1) = None -> Wire.processEventBuffer r = r.
Proof.
  intros Hnone. funelim (Wire.processEventBuffer r); [ congruence | reflexivity ].
Qed.

End Wire_numbers.

(** *** The client's reassembler is the one of the wire, on integers *)

Section Wire_client.

Context {host : Host}.

Local Open Scope Qc_scope.

Lemma wire_processEventBuffer_step (r : Wire.Reassembler) (next : Wire.Signal) :
  Wire.buffer r !! Wire.Finite (Wire.lastSn r + 1) = Some next ->
  Wire.processEventBuffer r
  = Wire.processEventBuffer
      (Wire.dispatchEvent (Wire.d next)
         {| Wire.lastSn := Wire.lastSn r + 1;
            Wire.buffer := delete (Wire.Finite (Wire.lastSn r + 1)) (Wire.buffer r);
            Wire.delivered := Wire.delivered r |}).
Proof.
  intros Hnext. funelim (Wire.processEventBuffer r); congruence.
Qed.

Lemma wire_lookup (w : World) (n : Z) :
  Wire.buffer (wire_of w) !! Wire.Finite (Qc_of_Z n) = wire_signal <$> buffer (client w) !! n.
Proof.
  unfold wire_of. simpl. change (Wire.Finite (Qc_of_Z n)) with (wire_number n).
  rewrite lookup_kmap, lookup_fmap by apply wire_number_inj. reflexivity.
Qed.

Lemma wire_drain_one (next : KookWSSignal) (w : World) :
  wire_of (drain_one next w)
  = Wire.dispatchEvent (d next)
      {| Wire.lastSn := Wire.lastSn (wire_of w) + 1;
         Wire.buffer := delete (Wire.Finite (Wire.lastSn (wire_of w) + 1)) (Wire.buffer (wire_of w));
         Wire.delivered := Wire.delivered (wire_of w) |}.
Proof.
  unfold wire_of, Wire.dispatchEvent. simpl. rewrite delivered_drain_one.
  rewrite wire_next. change (Wire.Finite (Qc_of_Z (lastSn (client w) + 1)%Z))
    with (wire_number (lastSn (client w) + 1)%Z).
  rewrite fmap_delete, kmap_delete by apply wire_number_inj. reflexivity.
Qed.

Lemma wire_processEventBuffer (w : World) :
  wire_of (exec processEventBuffer w) = Wire.processEventBuffer (wire_of w).
Proof.
  destruct (processEventBuffer_rule
              (fun w' => Wire.processEventBuffer (wire_of w') = Wire.processEventBuffer (wire_of w)))
    with (w := w) as (w' & Hrun & Hsame & Hexit).
  - intros w0 next Hw0 Hnext. rewrite <- Hw0.
    rewrite (wire_processEventBuffer_step (wire_of w0) (wire_signal next)).
    + rewrite wire_drain_one. reflexivity.
    + simpl. rewrite wire_next. change (Wire.Finite (Qc_of_Z (lastSn (client w0) + 1)%Z))
        with (wire_number (lastSn (client w0) + 1)%Z).
      rewrite lookup_kmap, lookup_fmap, Hnext by apply wire_number_inj. reflexivity.
  - reflexivity.
  - unfold exec. rewrite Hrun. simpl. rewrite <- Hsame.
    symmetry. apply processEventBuffer_done.
    simpl. rewrite wire_next. change (Wire.Finite (Qc_of_Z (lastSn (client w') + 1)%Z))
      with (wire_number (lastSn (client w') + 1)%Z).
    rewrite lookup_kmap, lookup_fmap, Hexit by apply wire_number_inj. reflexivity.
Qed.

(** The client's model holds integers only. Seen through [wire_of], its
    [handleEvent] does to [lastSn], the buffer and the deliveries what the
    reassembler of the wire does on the same signal. *)
Lemma wire_handleEvent (signal : KookWSSignal) (w : World) :
  wire_of (exec (handleEvent signal) w) = Wire.handleEvent (wire_signal signal) (wire_of w).
Proof.
  unfold handleEvent, Wire.handleEvent, wire_signal. simpl.
  destruct (sn signal) as [n | ] eqn:Hsn; [ | reflexivity ]. simpl. unfold exec. monad.
  destruct (Z.eqb_spec n (lastSn (client w) + 1)) as [Heq | Hne].
  - rewrite decide_True by (rewrite wire_next; congruence).
    rewrite dispatchEvent_run.
    match goal with |- context [processEventBuffer ?w0] => set (w1 := w0) end.
    pose proof (wire_processEventBuffer w1) as Hdrained. unfold exec in Hdrained. rewrite Hdrained.
    f_equal. unfold wire_of, Wire.dispatchEvent. simpl.
    rewrite (delivered_snoc w w1 _ eq_refl). simpl.
    destruct (onEvent_raises (d signal)); simpl; reflexivity.
  - rewrite decide_False by (rewrite wire_next; intros Hsame; apply Z2Qc_inj in Hsame; contradiction).
    destruct (Z.gtb_spec n (lastSn (client w) + 1)) as [Hgt | Hle]; simpl.
    + rewrite decide_True by (rewrite wire_next; apply (proj1 (Z2Qc_inj_lt _ _)); lia).
      unfold wire_of. simpl.
      match goal with
      | |- context [delivered (set_trace ?tr ?w0)] =>
          rewrite (delivered_snoc w (set_trace tr w0) _ eq_refl)
      end.
      simpl. rewrite app_nil_r, fmap_insert, kmap_insert by apply wire_number_inj.
      unfold wire_signal at 1. rewrite Hsn. reflexivity.
    + rewrite decide_False; [ reflexivity | ].
      rewrite wire_next. intros Hlt. apply Z2Qc_inj_lt in Hlt. lia.
Qed.

End Wire_client.


Section Ordering.

Context {host : Host}.
Variable payload : Z -> Json.
Variable before : list Json.

Local Abbreviation in_order := (in_order payload before).

Lemma seqZ_snoc (len : Z) : 0 <= len -> seqZ 1 (len + 1) = seqZ 1 len ++ [len + 1].
Proof.
  intros Hlen. rewrite seqZ_app by lia. f_equal.
  rewrite seqZ_cons by lia. rewrite seqZ_nil by lia. f_equal. lia.
Qed.

Lemma in_order_drain_one (seen : list Z) (next : KookWSSignal) (w : World) :
  in_order seen w ->
  buffer (client w) !! (lastSn (client w) + 1) = Some next ->
  in_order seen (drain_one next w).
Proof.
  intros (Hpos & Hout & Hlow & Hbuf) Hnext.
  pose proof (proj1 (Hbuf _ _) Hnext) as (Hseen & _ & ->).
  unfold in_order. rewrite delivered_drain_one. simpl.
  split; [ lia | split; [ | split ] ].
  - rewrite Hout, seqZ_snoc by lia. rewrite map_app, app_assoc. reflexivity.
  - intros k Hk. destruct (decide (k = lastSn (client w) + 1)) as [-> | Hne]; [ exact Hseen | ].
    apply Hlow. lia.
  - intros k signal. rewrite lookup_delete_Some, Hbuf. split.
    + intros (Hne & Hk & Hlt & Hsig). split; [ auto | split; [ lia | auto ] ].
    + intros (Hk & Hlt & Hsig). split; [ lia | split; [ auto | split; [ lia | auto ] ] ].
Qed.

(** One [handleEvent] call on the signal numbered [n]. *)
Lemma in_order_handleEvent (seen : list Z) (n : Z) (w : World) :
  in_order seen w -> lastSn (client w) + 1 ∉ seen -> 1 <= n ->
  exists w', handleEvent (event_signal payload n) w = (Ret tt, w')
             /\ in_order (n :: seen) w'
             /\ lastSn (client w') + 1 ∉ n :: seen.
Proof.
  intros (Hpos & Hout & Hlow & Hbuf) Hnext Hn.
  unfold handleEvent. simpl. monad.
  destruct (Z.eqb_spec n (lastSn (client w) + 1)) as [Heq | Hne].
  - rewrite dispatchEvent_run.
    match goal with |- context [processEventBuffer ?w1] => set (w0 := w1) end.
    assert (Hw0 : in_order (n :: seen) w0).
    { unfold in_order. rewrite (delivered_snoc w w0 _ eq_refl). simpl.
      split; [ lia | split; [ | split ] ].
      - rewrite Hout, Heq, seqZ_snoc, map_app, app_assoc by lia.
        destruct (onEvent_raises (payload (lastSn (client w) + 1))); reflexivity.
      - intros k Hk. destruct (decide (k = n)) as [-> | Hkn]; [ left | right; apply Hlow; lia ].
      - intros k signal. rewrite Hbuf, elem_of_cons. split.
        + intros (Hk & Hlt & Hsig). split; [ auto | split; [ | auto ] ].
          assert (k <> lastSn (client w) + 1) by (intros ->; contradiction). lia.
        + intros ([-> | Hk] & Hlt & Hsig); [ lia | ]. split; [ auto | split; [ lia | auto ] ]. }
    destruct (processEventBuffer_rule (in_order (n :: seen))) with (w := w0)
      as (w' & Hrun & Hinv & Hexit); auto.
    { intros. apply in_order_drain_one; auto. }
    exists w'. split; [ exact Hrun | split; [ exact Hinv | ] ].
    destruct Hinv as (Hpos' & _ & _ & Hbuf').
    intros Hin.
    assert (Hsome : buffer (client w') !! (lastSn (client w') + 1)
                    = Some (event_signal payload (lastSn (client w') + 1))).
    { apply Hbuf'. split; [ exact Hin | split; [ lia | reflexivity ] ]. }
    congruence.
  - destruct (Z.gtb_spec n (lastSn (client w) + 1)) as [Hgt | Hle]; simpl.
    + eexists. split; [ reflexivity | ]. split.
      * unfold in_order. erewrite (delivered_snoc w) by reflexivity. simpl. rewrite app_nil_r.
        split; [ lia | split; [ exact Hout | split ] ].
        -- intros k Hk. right. auto.
        -- intros k signal. rewrite lookup_insert_Some, Hbuf, elem_of_cons. split.
           ++ intros [(<- & <-) | (Hkn & Hk & Hlt & Hsig)].
              ** split; [ left; reflexivity | split; [ lia | reflexivity ] ].
              ** split; [ right; exact Hk | split; [ lia | auto ] ].
           ++ intros (Hk & Hlt & Hsig). destruct (decide (n = k)) as [<- | Hkn].
              ** left. split; [ reflexivity | congruence ].
              ** right. destruct Hk as [-> | Hk]; [ contradiction | ].
                 split; [ auto | split; [ auto | split; [ lia | auto ] ] ].
      * simpl. rewrite elem_of_cons. intros [Heq | Hin]; [ lia | contradiction ].
    + exists w. split; [ reflexivity | ]. split.
      * split; [ lia | split; [ exact Hout | split ] ].
        -- intros k Hk. right. auto.
        -- intros k signal. rewrite Hbuf, elem_of_cons. split.
           ++ intros (Hk & Hlt & Hsig). auto.
           ++ intros ([-> | Hk] & Hlt & Hsig); [ lia | auto ].
      * rewrite elem_of_cons. intros [Heq | Hin]; [ lia | contradiction ].
Qed.

Lemma in_order_handleEvents (sns seen : list Z) (w : World) :
  in_order seen w -> lastSn (client w) + 1 ∉ seen ->
  (forall n, n ∈ sns -> 1 <= n) ->
  exists w', handleEvents (map (event_signal payload) sns) w = (Ret tt, w')
             /\ in_order (rev sns ++ seen) w'
             /\ lastSn (client w') + 1 ∉ rev sns ++ seen.
Proof.
  revert seen w. induction sns as [ | n sns IH ]; intros seen w Hinv Hnext Hpos.
  - exists w. simpl. auto.
  - destruct (in_order_handleEvent seen n w) as (w1 & Hrun1 & Hinv1 & Hnext1); auto.
    { apply Hpos. left. }
    destruct (IH (n :: seen) w1) as (w' & Hrun & Hinv' & Hnext'); auto.
    { intros k Hk. apply Hpos. right. exact Hk. }
    exists w'. simpl. unfold bind at 1. rewrite Hrun1.
    rewrite <- app_assoc. simpl. auto.
Qed.

End Ordering.

(** C1. Whatever the order, and with whatever repetitions, in which
    [handleEvent] is given the EVENT signals numbered 1 to [N], starting from
    [lastSn = 0] and an empty buffer, the consumer receives [payload 1], ...,
    [payload N] in that order and each once, the run ends with [lastSn = N]
    and nothing buffered; and a call with [sn <= lastSn] delivers nothing and
    leaves the world, so [lastSn] and the buffer, as it was. *)
Theorem delivery_in_order {host : Host} (payload : Z -> Json) (N : Z) (sns : list Z) (w : World) :
  lastSn (client w) = 0 ->
  buffer (client w) = ∅ ->
  (forall n, n ∈ sns <-> 1 <= n <= N) ->
  (exists w',
      handleEvents (map (event_signal payload) sns) w = (Ret tt, w')
      /\ delivered w' = delivered w ++ map payload (seqZ 1 N)
      /\ lastSn (client w') = Z.max 0 N
      /\ buffer (client w') = ∅)
  /\ (forall signal n w0,
        sn signal = Some n -> n <= lastSn (client w0) ->
        handleEvent signal w0 = (Ret tt, w0)).
Proof.
  intros Hsn Hbuf Hcover. split.
  - destruct (in_order_handleEvents payload (delivered w) sns [] w)
      as (w' & Hrun & (Hpos & Hout & Hlow & Hkeys) & Hnext).
    + unfold in_order. rewrite Hsn, Hbuf. simpl. rewrite app_nil_r.
      split; [ lia | split; [ reflexivity | split ] ].
      * intros k Hk. lia.
      * intros k signal. rewrite lookup_empty, elem_of_nil. split; [ discriminate | tauto ].
    + rewrite elem_of_nil. tauto.
    + intros n Hn. apply Hcover in Hn. lia.
    + rewrite app_nil_r in *.
      assert (Hseen : forall k, k ∈ rev sns <-> 1 <= k <= N).
      { intros k. rewrite list_elem_of_In, <- in_rev, <- list_elem_of_In. apply Hcover. }
      assert (Hlast : lastSn (client w') = Z.max 0 N).
      { assert (~ (1 <= lastSn (client w') + 1 <= N)) by (rewrite <- Hseen; exact Hnext).
        destruct (decide (1 <= lastSn (client w'))) as [Hone | Hzero]; [ | lia ].
        assert (1 <= lastSn (client w') <= N) by (apply Hseen, Hlow; lia). lia. }
      exists w'. split; [ exact Hrun | ]. split; [ | split; [ exact Hlast | ] ].
      * rewrite Hout, Hlast. destruct (Z.max_spec 0 N) as [[Hle ->] | [Hlt ->]]; [ reflexivity | ].
        rewrite !seqZ_nil by lia. reflexivity.
      * apply map_empty. intros k. destruct (buffer (client w') !! k) as [signal | ] eqn:Hk; [ | reflexivity ].
        apply Hkeys in Hk as (Hin & Hlt & _). apply Hseen in Hin. lia.
  - intros signal n w0 Hn Hle. unfold handleEvent. rewrite Hn. monad.
    destruct (Z.eqb_spec n (lastSn (client w0) + 1)); [ lia | ].
    destruct (Z.gtb_spec n (lastSn (client w0) + 1)); [ lia | reflexivity ].
Qed.

(** ** Resume, reconnect and backoff *)

(** Splits a world into its fields, so that reads of them compute. *)
Ltac open_world w :=
  destruct w as [[socket session last heartbeat pong attempts buf halted comp]
                   clock armed fresh_timer conns fresh_socket pending fresh_request drawn said].

Lemma since_extends (w w' : World) (said : list (Z * Action)) :
  trace w' = trace w ++ said -> since w w' = map snd said.
Proof.
  intros Htrace. unfold since, actions. rewrite Htrace, map_app.
  apply drop_app_length'. symmetry. apply length_map.
Qed.

(** Computes what a method added to the trace; to be used before the goal
    is simplified. *)
Ltac said_since :=
  match goal with
  | |- context [since ?w ?w'] =>
      let H := fresh "Htrace" in
      eassert (H : trace w' = trace w ++ _)
        by (monad; rewrite <- ?app_assoc; reflexivity);
      rewrite (since_extends _ _ _ H); clear H; simpl
  end.

Section Session.

Context {host : Host}.

(** C2. [handleResumeAck] leaves [lastSn], the buffer and every other field
    but [sessionId] and [heartbeatTimer] as they were; on a payload that is
    not null it stores the session id of the payload and starts the
    heartbeat afresh; [handleReconnect] sets [lastSn] to 0 and empties the
    buffer. *)
Theorem resume_keeps_reconnect_resets (data : Json) (w : World) :
  let resumed := exec (handleResumeAck data) w in
  let reset := exec handleReconnect w in
  (lastSn (client resumed) = lastSn (client w)
   /\ buffer (client resumed) = buffer (client w)
   /\ ws (client resumed) = ws (client w)
   /\ pongTimeout (client resumed) = pongTimeout (client w)
   /\ reconnectAttempts (client resumed) = reconnectAttempts (client w)
   /\ stopped (client resumed) = stopped (client w)
   /\ compress (client resumed) = compress (client w))
  /\ (data = JNull
      \/ (sessionId (client resumed) = nullish (get_prop data "session_id")
          /\ heartbeatTimer (client resumed) = Some (next_timer w)
          /\ exists ms,
               In {| timer_id := next_timer w; due := now w + ms;
                     period := Some ms; callback := CbHeartbeat |}
                  (timers resumed)))
  /\ lastSn (client reset) = 0
  /\ buffer (client reset) = ∅.
Proof.
  split; [ | split; [ | apply handleReconnect_reassembler ] ].
  - open_world w. unfold handleResumeAck, access, startHeartbeat, clearHeartbeat, setInterval, arm, Math_random, clearTimer.
    destruct (get_prop data "session_id"), heartbeat; monad; auto 10.
  - destruct data; [ left; reflexivity | right .. ].
    all: open_world w.
    all: unfold handleResumeAck, access, startHeartbeat, clearHeartbeat, setInterval, arm, Math_random, clearTimer.
    all: simpl get_prop.
    all: try destruct (assoc "session_id" fields).
    all: destruct heartbeat; monad.
    all: split; [ reflexivity | split; [ reflexivity | ] ].
    all: eexists; apply in_or_app; right; left; reflexivity.
Qed.

(** C6, as the code has it. When the client is not stopped, the RECONNECT
    signal discards the session ([lastSn] 0, no session id, empty buffer, the
    socket closed with code 1000 and forgotten, both heartbeat timers
    cleared) and asks for a gateway at once: no [sleep] comes before the
    request and [reconnectAttempts] is not touched. *)
Theorem reconnect_signal_discards_session (signal : KookWSSignal) (w : World) :
  s signal = SIGNAL.RECONNECT ->
  stopped (client w) = false ->
  let w' := exec (handleSignal signal) w in
  fst (handleSignal signal w) = Ret tt
  /\ lastSn (client w') = 0
  /\ sessionId (client w') = None
  /\ buffer (client w') = ∅
  /\ ws (client w') = None
  /\ heartbeatTimer (client w') = None
  /\ pongTimeout (client w') = None
  /\ reconnectAttempts (client w') = reconnectAttempts (client w)
  /\ since w w'
     = ALog LReconnectSignal
         :: match ws (client w) with
            | Some socket => [AClose socket (Some 1000)]
            | None => []
            end
         ++ [AGetGateway (next_request w) (if compress (client w) then 1 else 0)]
  /\ requests w' = requests w ++ [next_request w].
Proof.
  intros Hkind Hrunning.
  assert (Hroute : handleSignal signal w = (log LReconnectSignal ;; handleReconnect) w).
  { unfold handleSignal. rewrite Hkind. reflexivity. }
  unfold exec. rewrite Hroute. clear Hroute Hkind signal.
  open_world w. simpl in Hrunning. subst halted.
  unfold handleReconnect, clearHeartbeat, clearPongTimeout, connectFresh, ws_close, clearTimer.
  destruct socket, heartbeat, pong.
  all: repeat (split; [ monad; reflexivity | ]).
  all: split; [ | monad; reflexivity ].
  all: fold (exec (A := unit)); said_since; reflexivity.
Qed.

(** C4. The [n]th attempt in a row ([reconnectAttempts] was [n - 1]) waits
    [min(60000, 1000 * 2^(n-1))] ms: 1000 for the first, 16000 for the
    fifth, 60000 for the tenth, and never less than an earlier attempt. *)
Theorem backoff_delay (n : Z) (w : World) :
  1 <= n ->
  stopped (client w) = false ->
  reconnectAttempts (client w) = n - 1 ->
  (exists w',
      reconnectWithBackoff w = (Ret tt, w')
      /\ reconnectAttempts (client w') = n
      /\ since w w'
         = [ALog (LReconnecting (Z.min 60000 (1000 * 2 ^ (n - 1))) n);
            ASleep (Z.min 60000 (1000 * 2 ^ (n - 1)))]
      /\ In {| timer_id := next_timer w; due := now w + Z.min 60000 (1000 * 2 ^ (n - 1));
               period := None; callback := CbWake KBackoffSlept |}
            (timers w'))
  /\ backoff 1 = 1000
  /\ backoff 5 = 16000
  /\ backoff 10 = 60000
  /\ (forall m, n <= m -> backoff n <= backoff m).
Proof.
  intros Hn Hrunning Hattempts. split; [ | split; [ | split; [ | split ] ]; try reflexivity ].
  - open_world w. simpl in *. subst halted attempts.
    unfold reconnectWithBackoff, sleep, setTimeout, arm. monad.
    replace (n - 1 + 1) with n by lia.
    eexists. split; [ reflexivity | ]. split; [ reflexivity | ].
    split.
    + said_since. reflexivity.
    + simpl. apply in_or_app. right. left. reflexivity.
  - intros m Hm. unfold backoff, Math_pow.
    apply Z.min_le_compat_l, Z.mul_le_mono_nonneg_l; [ lia | ].
    apply Z.pow_le_mono_r; lia.
Qed.

End Session.

(** ** Heartbeat *)

Arguments jitter_of_draw : simpl never.

Section Heartbeat.

Context {host : Host}.

Lemma jitter_bounds (r : Q) :
  (0 <= r < 1)%Q ->
  -5000 <= Math_floor (r * inject_Z HEARTBEAT_JITTER_MS * 2) - HEARTBEAT_JITTER_MS <= 4999.
Proof.
  intros [Hlow Hhigh]. unfold Math_floor, HEARTBEAT_JITTER_MS.
  assert (Hq : (r * inject_Z 5000 * 2 == r * inject_Z 10000)%Q).
  { rewrite <- Qmult_assoc. apply Qmult_comp; [ reflexivity | ]. reflexivity. }
  rewrite (Qfloor_comp _ _ Hq).
  assert (Hzero : 0 <= Qfloor (r * inject_Z 10000)).
  { change 0 with (Qfloor (inject_Z 0)) at 1. apply Qfloor_resp_le.
    apply Qmult_le_0_compat; [ exact Hlow | discriminate ]. }
  assert (Hcap : Qfloor (r * inject_Z 10000) < 10000).
  { rewrite Zlt_Qlt. eapply Qle_lt_trans; [ apply Qfloor_le | ].
    assert (Hscaled : (r * inject_Z 10000 < 1 * inject_Z 10000)%Q)
      by (apply Qmult_lt_compat_r; [ reflexivity | exact Hhigh ]).
    rewrite Qmult_1_l in Hscaled. exact Hscaled. }
  lia.
Qed.

Lemma startHeartbeat_run (w : World) :
  startHeartbeat w
  = (clearHeartbeat ;;
     fun w1 =>
       (let* id := setInterval CbHeartbeat (HEARTBEAT_INTERVAL_MS + jitter_of_draw (draws w1)) in
        update (set_heartbeatTimer (Some id)))
         (set_draws (S (draws w1)) w1)) w.
Proof. reflexivity. Qed.

Lemma tick_heartbeat (w : World) (t : Timer) (ms : Z) :
  next_due (timers w) = Some t ->
  callback t = CbHeartbeat ->
  period t = Some ms ->
  pongTimeout (client w) <> Some (timer_id t) ->
  draws (exec tick w) = draws w
  /\ heartbeatTimer (client (exec tick w)) = heartbeatTimer (client w)
  /\ In {| timer_id := timer_id t; due := Z.max (now w) (due t) + ms;
           period := Some ms; callback := CbHeartbeat |}
        (timers (exec tick w)).
Proof.
  intros Hnext Hcb Hperiod Hpong.
  unfold tick. monad. rewrite Hnext. simpl. rewrite Hperiod. simpl.
  unfold fire. rewrite Hcb. unfold sendPing, clearPongTimeout, ws_send, setTimeout, arm, clearTimer.
  open_world w. simpl in *. destruct socket as [socket | ]; monad.
  2: { split; [ reflexivity | split; [ reflexivity | ] ]. apply in_or_app. right. left. reflexivity. }
  destruct (is_open _ socket); simpl.
  2: { split; [ reflexivity | split; [ reflexivity | ] ]. apply in_or_app. right. left. reflexivity. }
  destruct pong as [p | ]; simpl.
  - split; [ reflexivity | split; [ reflexivity | ] ].
    apply in_or_app. left. apply filter_In. split.
    + apply in_or_app. right. left. reflexivity.
    + simpl. apply negb_true_iff, Nat.eqb_neq. congruence.
  - split; [ reflexivity | split; [ reflexivity | ] ].
    apply in_or_app. left. apply in_or_app. right. left. reflexivity.
Qed.

(** C8, as the code has it. [startHeartbeat] draws one random number, makes
    of it a jitter between -5000 and 4999 ms, and arms one recurring timer
    whose period is 30000 ms plus that jitter; each time that timer fires it
    is armed again with the same period and nothing is drawn: the ticks of a
    running heartbeat are evenly spaced, and the jitter changes only when
    the heartbeat is started again. *)
Theorem heartbeat_interval_drawn_at_start (w : World) :
  (0 <= random (draws w) < 1)%Q ->
  exists ms w',
    startHeartbeat w = (Ret tt, w')
    /\ ms = HEARTBEAT_INTERVAL_MS + jitter_of_draw (draws w)
    /\ 25000 <= ms <= 34999
    /\ draws w' = S (draws w)
    /\ heartbeatTimer (client w') = Some (next_timer w)
    /\ In {| timer_id := next_timer w; due := now w + ms;
             period := Some ms; callback := CbHeartbeat |}
          (timers w')
    /\ (forall w1 t every,
          next_due (timers w1) = Some t ->
          callback t = CbHeartbeat ->
          period t = Some every ->
          pongTimeout (client w1) <> Some (timer_id t) ->
          draws (exec tick w1) = draws w1
          /\ heartbeatTimer (client (exec tick w1)) = heartbeatTimer (client w1)
          /\ In {| timer_id := timer_id t; due := Z.max (now w1) (due t) + every;
                   period := Some every; callback := CbHeartbeat |}
                (timers (exec tick w1))).
Proof.
  intros Hdraw.
  assert (Hms : 25000 <= HEARTBEAT_INTERVAL_MS + jitter_of_draw (draws w) <= 34999).
  { pose proof (jitter_bounds _ Hdraw). unfold jitter_of_draw, HEARTBEAT_INTERVAL_MS in *. lia. }
  clear Hdraw.
  exists (HEARTBEAT_INTERVAL_MS + jitter_of_draw (draws w)).
  rewrite startHeartbeat_run.
  unfold clearHeartbeat, setInterval, arm, clearTimer.
  open_world w. simpl in Hms |- *.
  destruct heartbeat; monad; eexists; (split; [ reflexivity | ]); simpl.
  all: split; [ reflexivity | ].
  all: split; [ exact Hms | ].
  all: split; [ reflexivity | ].
  all: split; [ reflexivity | ].
  all: split; [ apply in_or_app; right; left; reflexivity | ].
  all: intros; apply tick_heartbeat; assumption.
Qed.

End Heartbeat.

(** ** Frame decoding *)

Section Decoding.

Context {host : Host}.

Lemma on_message_returns (socket : nat) (data : RawData) (w : World) :
  exists w', on_message socket data w = (Ret tt, w').
Proof.
  unfold on_message, try_catch.
  match goal with |- context [match ?body w with _ => _ end] => destruct (body w) as [[[] | e] w1] end.
  - eexists. reflexivity.
  - eexists. reflexivity.
Qed.

(** C9, as the code has it. On a Buffer, and only when the client was made
    with compression on, [parseMessage] tries [inflate] first and falls
    back to the bytes as they are when it fails; otherwise the frame is read
    as text directly. The text is given to [JSON.parse]; when that fails the
    result is null and the failure is reported. [parseMessage] always
    returns, and so does the message handler; a frame without a signal
    changes nothing but the report. *)
Theorem parseMessage_decodes_or_drops (data : RawData) (w : World) :
  (exists result w',
      parseMessage data w = (Ret result, w')
      /\ client w' = client w
      /\ timers w' = timers w
      /\ sockets w' = sockets w
      /\ match JSON_parse (text_of_frame (compress (client w)) data) with
         | Some v => result = v /\ w' = w
         | None => result = None /\ since w w' = [AError EJsonParse]
         end)
  /\ (forall socket w',
        parseMessage data w = (Ret None, w') ->
        on_message socket data w = (Ret tt, w'))
  /\ (forall socket, exists w', on_message socket data w = (Ret tt, w')).
Proof.
  assert (Hparse : parseMessage data w
                   = match JSON_parse (text_of_frame (compress (client w)) data) with
                     | Some v => (Ret v, w)
                     | None => (Ret None, set_trace (trace w ++ [(now w, AError EJsonParse)]) w)
                     end).
  { unfold parseMessage, inflateAsync, JSON_parse_text, text_of_frame, text_decompressing_first.
    destruct data as [bytes | bytes | chunks]; monad.
    - destruct (compress (client w)); simpl.
      + destruct (inflate bytes); simpl; destruct (JSON_parse _); reflexivity.
      + destruct (JSON_parse _); reflexivity.
    - destruct (JSON_parse _); reflexivity.
    - destruct (JSON_parse _); reflexivity. }
  split; [ | split ].
  - rewrite Hparse. destruct (JSON_parse _) as [v | ].
    + exists v, w. auto 10.
    + eexists None, _. split; [ reflexivity | ]. simpl.
      repeat (split; [ reflexivity | ]).
      said_since. reflexivity.
  - intros socket w' Hnone. unfold on_message, try_catch, bind. rewrite Hnone. reflexivity.
  - intros socket. apply on_message_returns.
Qed.

End Decoding.

(** ** The claims on concrete worlds *)

(** C6 as worded does not hold: on the RECONNECT signal the established
    session asks for a gateway with no [sleep] before. *)
Lemma reconnect_signal_connects_at_once :
  ~ reconnect_signal_backs_off (host := scripted) connected.
Proof.
  intros (_ & _ & _ & _ & Hbackoff).
  assert (Hsaid : since connected (exec (handleSignal (host := scripted) reconnect_signal) connected)
                  = [ALog LReconnectSignal; AClose 0 (Some 1000)] ++ AGetGateway 1 1 :: [])
    by (vm_compute; reflexivity).
  destruct (Hbackoff _ _ _ _ Hsaid) as (ms & [Hin | [Hin | []]]); discriminate Hin.
Qed.

(** C8 as worded does not hold: three answered heartbeats of one running
    heartbeat are 25000 ms apart each, though the draws that would follow
    give 27500 and 30000. *)
Lemma heartbeat_jitter_drawn_once :
  ~ jitter_recomputed_each_cycle (host := scripted) 0 0 (map fst (sent answered)).
Proof.
  unfold jitter_recomputed_each_cycle. vm_compute. intros Hgaps. congruence.
Qed.

(** C9 as worded does not hold: a client made with [compress: false] does
    not inflate a compressed frame, and finds no signal in it. *)
Lemma uncompressed_client_does_not_inflate :
  ~ decompresses_first (host := scripted) uncompressed compressed_pong.
Proof.
  unfold decompresses_first. vm_compute. intros Hresult. congruence.
Qed.

(** C5 as worded does not hold: a frame may carry any number in [sn]. When
    3/2 arrives first it is buffered, being beyond 1; then 1 and 2 are
    delivered, and the key 3/2 is left in the buffer below [lastSn = 2],
    where no later number takes it out. *)
Lemma fractional_sn_is_overtaken :
  Wire.reachable Wire.any Wire.overtaken /\ ~ Wire.keys_above_lastSn Wire.overtaken.
Proof.
  split.
  - unfold Wire.overtaken. repeat apply Wire.reach_handleEvent; try exact I.
    apply Wire.reach_initial; reflexivity.
  - intros Hkeys.
    assert (Hleft : Wire.buffer Wire.overtaken !! Wire.Finite (Q2Qc (3 # 2))
                    = Some (Wire.numbered (Q2Qc (3 # 2)))) by (vm_compute; reflexivity).
    specialize (Hkeys _ _ Hleft).
    assert (Hlast : Wire.lastSn Wire.overtaken = 2%Qc) by (vm_compute; reflexivity).
    unfold Wire.above in Hkeys. rewrite Hlast in Hkeys. vm_compute in Hkeys. discriminate Hkeys.
Qed.

(** C3 on the code. From the instant the PONG timeout has fired (31000) and
    for the 58 s that follow with no frame arriving, the client sends a PING
    every 8 s and nothing else: the PONG timeout of the first extra PING
    fires together with, and before, the [sleep] that waits for it and
    starts [attemptRecovery] anew, which clears [pongTimeout]; the run that
    was waiting takes that for a PONG and restarts the heartbeat. No RESUME
    is sent and no reconnect begins. *)
Theorem recovery_restarts_after_first_probe :
  now pong_overdue = 31000
  /\ now silent_minute = 89000
  /\ sent silent_minute
     = [(25000, FPing 0); (33000, FPing 0); (41000, FPing 0); (49000, FPing 0);
        (57000, FPing 0); (65000, FPing 0); (73000, FPing 0); (81000, FPing 0);
        (89000, FPing 0)]
  /\ firstn 6 (since pong_overdue silent_minute)
     = [ASend 0 (FPing 0); ASleep 6000; ALog LPongTimeout; ASleep 2000;
        ALog LRecoveredByPing; ASetInterval 27500]
  /\ existsb escalated (since pong_overdue silent_minute) = false.
Proof.
  vm_compute. repeat split; reflexivity.
Qed.

(** C7 on the code. When the HELLO timeout fires, the rejected [connect]
    sends [connectFresh] into [reconnectWithBackoff], and the "close" event
    of the socket the timeout closed does so again: [reconnectAttempts] goes
    from 0 to 2 and two reconnections are scheduled. *)
Theorem handshake_timeout_counts_twice :
  reconnectAttempts (client awaiting_hello) = 0
  /\ reconnectAttempts (client timed_out) = 2
  /\ since awaiting_hello timed_out
     = [AError EHelloTimeout; AClose 0 None; AError EGatewayFailed;
        ALog (LReconnecting 1000 1); ASleep 1000;
        ALog (LClosed 1005);
        ALog (LReconnecting 2000 2); ASleep 2000]
  /\ map callback (timers timed_out) = [CbWake KBackoffSlept; CbWake KBackoffSlept].
Proof.
  vm_compute. repeat split; reflexivity.
Qed.

(** ** Instances *)

Lemma delivery_in_order_witness :
  exists w',
    handleEvents (host := scripted) (map (event_signal JNum) [3; 1; 3; 2; 1]) (new_world None)
    = (Ret tt, w')
    /\ delivered w' = delivered (new_world None) ++ map JNum (seqZ 1 3)
    /\ lastSn (client w') = Z.max 0 3
    /\ buffer (client w') = ∅.
Proof.
  apply (delivery_in_order (host := scripted) JNum 3 [3; 1; 3; 2; 1] (new_world None)).
  - reflexivity.
  - reflexivity.
  - intros n. rewrite !elem_of_cons, elem_of_nil. lia.
Defined.

Lemma handleEvent_without_sn_witness :
  handleEvent (host := scripted) pong_signal connected = (Ret tt, connected).
Proof.
  apply (proj1 (handleEvent_without_sn (host := scripted) pong_signal connected eq_refl)).
Defined.

Lemma reconnect_signal_discards_session_witness :
  lastSn (client (exec (handleSignal (host := scripted) reconnect_signal) connected)) = 0.
Proof.
  destruct (reconnect_signal_discards_session (host := scripted) reconnect_signal connected)
    as (_ & Hlast & _).
  - reflexivity.
  - reflexivity.
  - exact Hlast.
Defined.

Lemma backoff_delay_witness :
  exists w',
    reconnectWithBackoff (set_client (set_reconnectAttempts 4 (client connected)) connected)
    = (Ret tt, w')
    /\ reconnectAttempts (client w') = 5
    /\ since (set_client (set_reconnectAttempts 4 (client connected)) connected) w'
       = [ALog (LReconnecting 16000 5); ASleep 16000].
Proof.
  destruct (backoff_delay 5 (set_client (set_reconnectAttempts 4 (client connected)) connected))
    as ((w' & Hrun & Hattempts & Hsaid & _) & _).
  - lia.
  - reflexivity.
  - reflexivity.
  - exists w'. auto.
Defined.

Lemma heartbeat_interval_drawn_at_start_witness :
  exists ms w',
    startHeartbeat (host := scripted) (new_world None) = (Ret tt, w')
    /\ ms = HEARTBEAT_INTERVAL_MS + jitter_of_draw (host := scripted) 0
    /\ 25000 <= ms <= 34999.
Proof.
  destruct (heartbeat_interval_drawn_at_start (host := scripted) (new_world None))
    as (ms & w' & Hrun & Hms & Hrange & _).
  - split; [ discriminate | reflexivity ].
  - exists ms, w'. auto.
Defined.

Lemma integer_keys_above_lastSn_witness :
  Wire.above (Wire.lastSn (Wire.handleEvent (Wire.numbered (Qc_of_Z 5)) Wire.initial))
             (Wire.Finite (Qc_of_Z 5)).
Proof.
  apply (integer_keys_above_lastSn (Wire.handleEvent (Wire.numbered (Qc_of_Z 5)) Wire.initial))
    with (signal := Wire.numbered (Qc_of_Z 5)).
  - apply Wire.reach_handleEvent.
    + exists 5. reflexivity.
    + apply Wire.reach_initial; reflexivity.
  - vm_compute. reflexivity.
Defined.


(** ** What every step of the loop keeps *)

Section Keeping.

Context {A B : Type} (I : World -> Prop).

Lemma keeps_ret (a : A) : keeps I (ret a).
Proof. intros w Hw. exact Hw. Qed.

Lemma keeps_throw (e : Exn) : keeps I (throw (A := A) e).
Proof. intros w Hw. exact Hw. Qed.

Lemma keeps_bind (m : M A) (k : A -> M B) :
  keeps I m -> (forall a, keeps I (k a)) -> keeps I (bind m k).
Proof.
  intros Hm Hk w Hw. specialize (Hm w Hw). unfold exec, bind in *.
  destruct (m w) as [[a | e] w1]; simpl in *; [ apply Hk, Hm | exact Hm ].
Qed.

Lemma keeps_try_catch (m : M A) (handler : Exn -> M A) :
  keeps I m -> (forall e, keeps I (handler e)) -> keeps I (try_catch m handler).
Proof.
  intros Hm Hh w Hw. specialize (Hm w Hw). unfold exec, try_catch in *.
  destruct (m w) as [[a | e] w1]; simpl in *; [ exact Hm | apply Hh, Hm ].
Qed.

End Keeping.

Lemma keeps_get (I : World -> Prop) : keeps I get.
Proof. intros w Hw. exact Hw. Qed.

Lemma keeps_this (I : World -> Prop) : keeps I this.
Proof. intros w Hw. exact Hw. Qed.

Lemma keeps_modify (I : World -> Prop) (f : World -> World) :
  (forall w, I w -> I (f w)) -> keeps I (modify f).
Proof. intros Hf w Hw. apply Hf, Hw. Qed.

Create HintDb keeps discriminated.

(** Takes a computation apart along its binds and branches; what is left is
    about primitives and about methods with a lemma of their own. *)
Ltac keeps_apart :=
  repeat first
    [ apply keeps_ret
    | apply keeps_throw
    | apply keeps_get
    | apply keeps_this
    | solve [ auto with keeps nocore ]
    | apply keeps_bind; [ | intro ]
    | apply keeps_try_catch; [ | intro ]
    | match goal with
      | |- keeps _ (if ?b then _ else _) => destruct b
      | |- keeps _ (match ?x with _ => _ end) => destruct x
      end
    | solve [ intros ? Hkept; exact Hkept ] ].


(** ** More on the reassembler *)

Section Draining.

Context {host : Host}.

Lemma drained_from_refl (w : World) : drained_from w w.
Proof. unfold drained_from. repeat split; lia. Qed.

Lemma drained_from_drain_one (w0 w : World) (next : KookWSSignal) :
  drained_from w0 w ->
  buffer (client w) !! (lastSn (client w) + 1) = Some next ->
  drained_from w0 (drain_one next w).
Proof.
  intros (Hle & Hlen & Hsize & Hsession & Hhost) Hnext.
  unfold drained_from. rewrite delivered_drain_one, length_app. simpl.
  rewrite map_size_delete_Some by eauto.
  assert (size (buffer (client w)) <> 0%nat).
  { intros Hz. apply map_size_empty_inv in Hz. rewrite Hz, lookup_empty in Hnext. discriminate. }
  repeat split; try lia; assumption.
Qed.

Lemma processEventBuffer_drained (w : World) :
  exists w',
    processEventBuffer w = (Ret tt, w')
    /\ drained_from w w'
    /\ buffer (client w') !! (lastSn (client w') + 1) = None.
Proof.
  destruct (processEventBuffer_rule (drained_from w)) with (w := w)
    as (w' & Hrun & Hkept & Hexit).
  - intros. apply drained_from_drain_one; assumption.
  - apply drained_from_refl.
  - exists w'. auto.
Qed.

(** X1. [processEventBuffer] returns, by its [break]: the next number is not
    buffered any more. It delivers one event for each number [lastSn]
    advances by and takes as many entries out of the buffer; it touches
    nothing but [lastSn], the buffer and the trace; run again at once, it
    does nothing. *)
Theorem processEventBuffer_drains (w : World) :
  let w' := exec processEventBuffer w in
  fst (processEventBuffer w) = Ret tt
  /\ buffer (client w') !! (lastSn (client w') + 1) = None
  /\ drained_from w w'
  /\ processEventBuffer w' = (Ret tt, w').
Proof.
  destruct (processEventBuffer_drained w) as (w' & Hrun & Hkept & Hexit).
  unfold exec. rewrite Hrun. simpl.
  split; [ reflexivity | split; [ exact Hexit | split; [ exact Hkept | ] ] ].
  clear Hrun Hkept. funelim (processEventBuffer w'); [ reflexivity | congruence | congruence ].
Qed.

End Draining.


Section Releasing.

Context {host : Host}.

Lemma length_delivered_snoc (w w' : World) (said : list (Z * Action)) :
  trace w' = trace w ++ said ->
  length (delivered w')
  = (length (delivered w)
     + length (omap (fun a => match a with AOnEvent e => Some e | _ => None end) (map snd said)))%nat.
Proof. intros Htrace. rewrite (delivered_snoc w w' said Htrace), length_app. reflexivity. Qed.

Lemma handleEvent_run (signal : KookWSSignal) (w : World) :
  exists w',
    handleEvent signal w = (Ret tt, w')
    /\ lastSn (client w) <= lastSn (client w')
    /\ Z.of_nat (length (delivered w'))
       = Z.of_nat (length (delivered w)) + (lastSn (client w') - lastSn (client w))
    /\ session_of (client w') = session_of (client w)
    /\ host_of w' = host_of w.
Proof.
  unfold handleEvent. destruct (sn signal) as [n | ].
  2: { exists w. simpl. repeat split; lia. }
  monad. destruct (Z.eqb_spec n (lastSn (client w) + 1)) as [Heq | Hne].
  - rewrite dispatchEvent_run.
    match goal with |- context [processEventBuffer ?w0] => set (w1 := w0) end.
    destruct (processEventBuffer_drained w1) as (w' & Hrun & (Hle & Hlen & _ & Hsession & Hhost) & _).
    assert (Hone : length (delivered w1) = S (length (delivered w))).
    { rewrite (length_delivered_snoc w w1 _ eq_refl). simpl.
      destruct (onEvent_raises (d signal)); simpl; lia. }
    exists w'. split; [ exact Hrun | ]. simpl in Hle. rewrite Hone in Hlen. simpl in Hlen.
    split; [ lia | split; [ lia | split; [ exact Hsession | exact Hhost ] ] ].
  - destruct (Z.gtb_spec n (lastSn (client w) + 1)); simpl.
    + eexists. split; [ reflexivity | ].
      match goal with
      | |- context [delivered (set_trace ?tr ?w0)] =>
          rewrite (length_delivered_snoc w (set_trace tr w0) _ eq_refl)
      end.
      simpl. repeat split; lia.
    + exists w. repeat split; lia.
Qed.

(** X2. [handleEvent] always returns, whatever the signal and whatever the
    consumer does; [lastSn] never goes back; it delivers exactly one event
    for each number [lastSn] advances by; and it touches nothing but
    [lastSn], the buffer and the trace. *)
Theorem handleEvent_lockstep (signal : KookWSSignal) (w : World) :
  let w' := exec (handleEvent signal) w in
  fst (handleEvent signal w) = Ret tt
  /\ lastSn (client w) <= lastSn (client w')
  /\ Z.of_nat (length (delivered w'))
     = Z.of_nat (length (delivered w)) + (lastSn (client w') - lastSn (client w))
  /\ session_of (client w') = session_of (client w)
  /\ host_of w' = host_of w.
Proof.
  destruct (handleEvent_run signal w) as (w' & Hrun & Hrest).
  unfold exec. rewrite Hrun. split; [ reflexivity | exact Hrest ].
Qed.

Lemma releasing_drain_one (w0 w : World) (from : Z) (nexts : list KookWSSignal) (next : KookWSSignal) :
  buffered_run w0 from nexts ->
  releasing w0 from nexts w ->
  buffer (client w) !! (lastSn (client w) + 1) = Some next ->
  releasing w0 from nexts (drain_one next w).
Proof.
  intros [Hrun Hend] (j & Hj & Hlast & Hout & Hbuf) Hnext.
  rewrite Hbuf, Hlast in Hnext. rewrite bool_decide_eq_false_2 in Hnext by lia.
  assert (Hlt : (j < length nexts)%nat).
  { destruct (decide (j = length nexts)) as [-> | ]; [ | lia ].
    replace (from + Z.of_nat (length nexts) + 1) with (from + 1 + Z.of_nat (length nexts)) in Hnext by lia.
    congruence. }
  destruct (lookup_lt_is_Some_2 nexts j Hlt) as [next' Hj'].
  pose proof (Hrun j next' Hj') as Hsame.
  replace (from + 1 + Z.of_nat j) with (from + Z.of_nat j + 1) in Hsame by lia.
  assert (next' = next) by congruence. subst next'.
  exists (S j). split; [ lia | ]. rewrite delivered_drain_one. simpl.
  split; [ lia | split ].
  - rewrite Hout, (take_S_r nexts j next Hj'), map_app, app_assoc. reflexivity.
  - intros k. destruct (decide (k = lastSn (client w) + 1)) as [-> | Hk].
    + rewrite lookup_delete_eq, bool_decide_eq_true_2 by lia. reflexivity.
    + rewrite lookup_delete_ne, Hbuf by congruence.
      destruct (decide (from < k <= from + Z.of_nat j)).
      * rewrite !bool_decide_eq_true_2 by lia. reflexivity.
      * rewrite !bool_decide_eq_false_2 by lia. reflexivity.
Qed.

(** X3. Gap persistence. A signal numbered beyond the next expected number is
    held back: nothing is delivered, [lastSn] stays, and the signal is in the
    buffer under its number (in the place of an earlier one with that
    number). When the expected number arrives, that one call delivers it and
    then the whole run buffered behind it, in order, and takes the run out
    of the buffer. *)
Theorem handleEvent_gap_then_run (signal : KookWSSignal) (n : Z) (w : World) :
  sn signal = Some n ->
  let w' := exec (handleEvent signal) w in
  (lastSn (client w) + 1 < n ->
     delivered w' = delivered w
     /\ lastSn (client w') = lastSn (client w)
     /\ buffer (client w') = <[n := signal]> (buffer (client w)))
  /\ (forall nexts,
        n = lastSn (client w) + 1 ->
        buffered_run w n nexts ->
        delivered w' = delivered w ++ d signal :: map d nexts
        /\ lastSn (client w') = n + Z.of_nat (length nexts)
        /\ (forall k, buffer (client w') !! k
                      = if bool_decide (n < k <= n + Z.of_nat (length nexts)) then None
                        else buffer (client w) !! k)).
Proof.
  intros Hsn. unfold handleEvent, exec. rewrite Hsn. monad. split.
  - intros Hgap.
    destruct (Z.eqb_spec n (lastSn (client w) + 1)); [ lia | ].
    destruct (Z.gtb_spec n (lastSn (client w) + 1)); [ | lia ]. simpl.
    match goal with
    | |- context [delivered (set_trace ?tr ?w0)] =>
        rewrite (delivered_snoc w (set_trace tr w0) _ eq_refl)
    end.
    simpl. rewrite app_nil_r. auto.
  - intros nexts Hn Hrun.
    destruct (Z.eqb_spec n (lastSn (client w) + 1)); [ | lia ].
    rewrite dispatchEvent_run.
    match goal with |- context [processEventBuffer ?w0] => set (w1 := w0) end.
    assert (Hrun1 : buffered_run w1 n nexts) by exact Hrun.
    destruct (processEventBuffer_rule (releasing w1 n nexts)) with (w := w1)
      as (w' & Hdone & (j & Hj & Hlast & Hout & Hbuf) & Hexit).
    + intros. apply releasing_drain_one; assumption.
    + exists 0%nat. simpl. rewrite app_nil_r, Z.add_0_r.
      split; [ lia | split; [ reflexivity | split; [ reflexivity | ] ] ].
      intros k. rewrite bool_decide_eq_false_2 by lia. reflexivity.
    + rewrite Hdone. simpl.
      assert (Hall : j = length nexts).
      { destruct (decide (j = length nexts)) as [ | Hne ]; [ assumption | ].
        destruct (lookup_lt_is_Some_2 nexts j) as [next Hnext]; [ lia | ].
        destruct Hrun1 as [Hrun1 _]. specialize (Hrun1 j next Hnext).
        rewrite Hbuf, Hlast in Hexit. rewrite bool_decide_eq_false_2 in Hexit by lia.
        replace (n + 1 + Z.of_nat j) with (n + Z.of_nat j + 1) in Hrun1 by lia.
        congruence. }
      subst j. rewrite firstn_all in Hout.
      split; [ | split; [ exact Hlast | exact Hbuf ] ].
      rewrite Hout. rewrite (delivered_snoc w w1 _ eq_refl). simpl.
      destruct (onEvent_raises (d signal)); simpl; rewrite <- app_assoc; reflexivity.
Qed.

End Releasing.


(** *** The counters *)

Section Numbers.

Context {host : Host}.

Lemma numbers_handleEvent (signal : KookWSSignal) : keeps sound_numbers (handleEvent signal).
Proof.
  intros w (Hlast & Hattempts).
  destruct (handleEvent_run signal w) as (w' & Hrun & Hle & _ & Hsession & _).
  unfold exec. rewrite Hrun. simpl.
  split; [ lia | ].
  unfold session_of in Hsession. injection Hsession as _ _ _ _ Hsame _ _. rewrite Hsame. exact Hattempts.
Qed.

Lemma numbers_handleReconnect : keeps sound_numbers handleReconnect.
Proof.
  intros w (Hlast & Hattempts).
  destruct (handleReconnect_reassembler w) as [Hzero _].
  split; [ lia | ].
  replace (reconnectAttempts (client (exec handleReconnect w))) with (reconnectAttempts (client w));
    [ exact Hattempts | ].
  clear. open_world w.
  unfold handleReconnect, clearHeartbeat, clearPongTimeout, connectFresh, ws_close, clearTimer.
  destruct socket, heartbeat, pong, halted; monad; reflexivity.
Qed.

Lemma numbers_reconnectWithBackoff : keeps sound_numbers reconnectWithBackoff.
Proof.
  unfold reconnectWithBackoff. keeps_apart.
  intros w (Hlast & Hattempts). split; [ exact Hlast | simpl; lia ].
Qed.

#[local] Hint Resolve numbers_handleEvent numbers_handleReconnect numbers_reconnectWithBackoff : keeps.

Lemma numbers_on_message (socket : nat) (data : RawData) : keeps sound_numbers (on_message socket data).
Proof.
  unfold on_message, parseMessage, inflateAsync, JSON_parse_text, handleSignal,
    handleResumeAck, handlePong, access.
  keeps_apart.
  all: intros w (Hlast & Hattempts).
  all: split; [ exact Hlast | simpl; lia ].
Qed.

Lemma numbers_wake (k : Cont) : keeps sound_numbers (wake k).
Proof.
  unfold wake, recovery_resumed, recovery_ping_loop, recovery_resume_loop, tryResume, reconnectWithBackoff_slept.
  keeps_apart.
Qed.

Lemma numbers_tick : keeps sound_numbers tick.
Proof.
  pose proof numbers_wake.
  unfold tick, fire, on_helloTimeout, reject, attemptRecovery, recovery_ping_loop, recovery_resume_loop.
  keeps_apart.
Qed.

Lemma numbers_handle (ev : Event) : keeps sound_numbers (handle ev).
Proof.
  pose proof numbers_tick. pose proof numbers_on_message.
  destruct ev; unfold handle, connectFresh_gateway, on_open, on_close, on_error, start, stop.
  all: keeps_apart.
Qed.

Lemma in_loop_numbers (w : World) : in_loop w -> sound_numbers w.
Proof.
  induction 1 as [ compress_option | w ev _ IH ].
  - split; reflexivity.
  - apply (numbers_handle ev w IH).
Qed.

(** X4. In every world the event loop can bring a new client to, [lastSn] and
    [reconnectAttempts] are not negative, so the exponent of the backoff is
    not negative either. *)
Theorem loop_keeps_numbers (w : World) :
  in_loop w ->
  0 <= lastSn (client w) /\ 0 <= reconnectAttempts (client w).
Proof.
  intros Hloop. apply (in_loop_numbers w Hloop).
Qed.

End Numbers.


(** *** The timers *)

Lemma In_disarm (id : nat) (t : Timer) (ts : list Timer) :
  In t (List.filter (fun t => negb (Nat.eqb (timer_id t) id)) ts)
  <-> In t ts /\ timer_id t <> id.
Proof.
  rewrite filter_In, negb_true_iff, Nat.eqb_neq. reflexivity.
Qed.

Lemma NoDup_disarm (id : nat) (ts : list Timer) :
  NoDup (map timer_id ts) ->
  NoDup (map timer_id (List.filter (fun t => negb (Nat.eqb (timer_id t) id)) ts)).
Proof.
  induction ts as [ | t ts IH ]; simpl; intros Hnodup; [ constructor | ].
  apply NoDup_cons in Hnodup as [Hfresh Hnodup].
  destruct (negb (timer_id t =? id)%nat); simpl; [ | auto ].
  apply NoDup_cons. split; [ | auto ].
  intros Hin. apply Hfresh. apply list_elem_of_In in Hin. apply list_elem_of_In.
  apply in_map_iff in Hin as (t' & Hid & Hin).
  apply In_disarm in Hin as [Hin _]. apply in_map_iff. eauto.
Qed.

Lemma NoDup_arm (t : Timer) (ts : list Timer) :
  NoDup (map timer_id ts) ->
  (forall t', In t' ts -> timer_id t' <> timer_id t) ->
  NoDup (map timer_id (ts ++ [t])).
Proof.
  intros Hnodup Hfresh. rewrite map_app. simpl. apply NoDup_app. repeat split.
  - exact Hnodup.
  - intros id Hin Hlast. apply list_elem_of_In in Hin. apply list_elem_of_In in Hlast.
    apply in_map_iff in Hin as (t' & <- & Hin). destruct Hlast as [Heq | []].
    apply (Hfresh t' Hin). congruence.
  - apply NoDup_singleton.
Qed.

Lemma next_due_In (ts : list Timer) (t : Timer) : next_due ts = Some t -> In t ts.
Proof.
  revert t. induction ts as [ | t0 ts IH ]; simpl; intros t Hnext; [ discriminate | ].
  destruct (next_due ts) as [t' | ].
  - destruct (due t' <? due t0); inversion Hnext; subst; auto.
  - inversion Hnext. auto.
Qed.

(** The world after [clearTimer id], and after arming a new timer. *)
Lemma disciplined_disarm (id : nat) (w : World) :
  timers_disciplined w ->
  timers_disciplined
    (set_timers (List.filter (fun t => negb (Nat.eqb (timer_id t) id)) (timers w)) w).
Proof.
  intros (Hnodup & Hissued & Hpong & Hbeat). unfold timers_disciplined. simpl.
  split; [ apply NoDup_disarm, Hnodup | ].
  repeat split; intros t Hin; apply In_disarm in Hin as [Hin _]; auto.
Qed.

Lemma disciplined_arm (cb : Callback) (at_ : Z) (every : option Z) (w : World) :
  timers_disciplined w ->
  match cb with CbPong | CbHeartbeat => False | _ => True end ->
  timers_disciplined
    (set_next_timer (S (next_timer w))
       (set_timers (timers w ++ [{| timer_id := next_timer w; due := at_; period := every; callback := cb |}]) w)).
Proof.
  intros (Hnodup & Hissued & Hpong & Hbeat) Hcb. unfold timers_disciplined. simpl.
  split; [ | split; [ | split ] ].
  - apply NoDup_arm; [ exact Hnodup | ]. simpl. intros t Hin. apply Hissued in Hin. lia.
  - intros t Hin. apply in_app_or in Hin as [Hin | [<- | []]]; [ apply Hissued in Hin | simpl ]; lia.
  - intros t Hin Hkind. apply in_app_or in Hin as [Hin | [<- | []]]; [ auto | ].
    destruct cb; try discriminate Hkind; contradiction.
  - intros t Hin Hkind. apply in_app_or in Hin as [Hin | [<- | []]]; [ auto | ].
    destruct cb; try discriminate Hkind; contradiction.
Qed.

Section Timers.

Context {host : Host}.

Lemma disciplined_clearTimer (id : nat) : keeps timers_disciplined (clearTimer id).
Proof. intros w Hw. apply disciplined_disarm, Hw. Qed.

Lemma disciplined_setTimeout_hello (socket : nat) (ms : Z) :
  keeps timers_disciplined (setTimeout (CbHello socket) ms).
Proof. intros w Hw. apply (disciplined_arm (CbHello socket)); simpl; auto. Qed.

Lemma disciplined_sleep (ms : Z) (k : Cont) : keeps timers_disciplined (sleep ms k).
Proof.
  intros w Hw. apply (disciplined_arm (CbWake k) _ _ (exec (emit (ASleep ms)) w)); simpl; auto.
Qed.

Lemma disciplined_clearPongTimeout : keeps timers_disciplined clearPongTimeout.
Proof.
  intros w Hw. unfold clearPongTimeout, clearTimer. monad.
  destruct (pongTimeout (client w)) as [p | ] eqn:Hp; [ | exact Hw ]. simpl.
  destruct (disciplined_disarm p w Hw) as (Hnodup & Hissued & _ & Hbeat).
  destruct Hw as (_ & _ & Hpong & _).
  split; [ exact Hnodup | split; [ exact Hissued | split; [ | exact Hbeat ] ] ].
  simpl. intros t Hin Hkind. apply In_disarm in Hin as [Hin Hne].
  specialize (Hpong t Hin Hkind). congruence.
Qed.

Lemma disciplined_clearHeartbeat : keeps timers_disciplined clearHeartbeat.
Proof.
  intros w Hw. unfold clearHeartbeat, clearTimer. monad.
  destruct (heartbeatTimer (client w)) as [h | ] eqn:Hh; [ | exact Hw ]. simpl.
  destruct (disciplined_disarm h w Hw) as (Hnodup & Hissued & Hpong & _).
  destruct Hw as (_ & _ & _ & Hbeat).
  split; [ exact Hnodup | split; [ exact Hissued | split; [ exact Hpong | ] ] ].
  simpl. intros t Hin Hkind. apply In_disarm in Hin as [Hin Hne].
  specialize (Hbeat t Hin Hkind). congruence.
Qed.

(** Once the handle is null no such timer is armed, and a new one may be
    armed and held. *)
Lemma disciplined_new_pong (ms : Z) (w : World) :
  timers_disciplined w ->
  pongTimeout (client w) = None ->
  timers_disciplined
    (set_client (set_pongTimeout (Some (next_timer w)) (client w))
       (set_next_timer (S (next_timer w))
          (set_timers (timers w ++ [{| timer_id := next_timer w; due := ms; period := None; callback := CbPong |}]) w))).
Proof.
  intros (Hnodup & Hissued & Hpong & Hbeat) Hnone. unfold timers_disciplined. simpl.
  split; [ | split; [ | split ] ].
  - apply NoDup_arm; [ exact Hnodup | ]. simpl. intros t Hin. apply Hissued in Hin. lia.
  - intros t Hin. apply in_app_or in Hin as [Hin | [<- | []]]; [ apply Hissued in Hin | simpl ]; lia.
  - intros t Hin Hkind. apply in_app_or in Hin as [Hin | [<- | []]]; [ | reflexivity ].
    specialize (Hpong t Hin Hkind). congruence.
  - intros t Hin Hkind. apply in_app_or in Hin as [Hin | [<- | []]]; [ auto | discriminate Hkind ].
Qed.

Lemma disciplined_new_heartbeat (ms : Z) (every : option Z) (w : World) :
  timers_disciplined w ->
  heartbeatTimer (client w) = None ->
  timers_disciplined
    (set_client (set_heartbeatTimer (Some (next_timer w)) (client w))
       (set_next_timer (S (next_timer w))
          (set_timers (timers w ++ [{| timer_id := next_timer w; due := ms; period := every; callback := CbHeartbeat |}]) w))).
Proof.
  intros (Hnodup & Hissued & Hpong & Hbeat) Hnone. unfold timers_disciplined. simpl.
  split; [ | split; [ | split ] ].
  - apply NoDup_arm; [ exact Hnodup | ]. simpl. intros t Hin. apply Hissued in Hin. lia.
  - intros t Hin. apply in_app_or in Hin as [Hin | [<- | []]]; [ apply Hissued in Hin | simpl ]; lia.
  - intros t Hin Hkind. apply in_app_or in Hin as [Hin | [<- | []]]; [ auto | discriminate Hkind ].
  - intros t Hin Hkind. apply in_app_or in Hin as [Hin | [<- | []]]; [ | reflexivity ].
    specialize (Hbeat t Hin Hkind). congruence.
Qed.

Lemma clearPongTimeout_null (w : World) : pongTimeout (client (exec clearPongTimeout w)) = None.
Proof.
  unfold clearPongTimeout, clearTimer. monad.
  destruct (pongTimeout (client w)) eqn:Hp; simpl; auto.
Qed.

Lemma clearHeartbeat_null (w : World) : heartbeatTimer (client (exec clearHeartbeat w)) = None.
Proof.
  unfold clearHeartbeat, clearTimer. monad.
  destruct (heartbeatTimer (client w)) eqn:Hh; simpl; auto.
Qed.

Lemma clearPongTimeout_returns (w : World) : fst (clearPongTimeout w) = Ret tt.
Proof.
  unfold clearPongTimeout, clearTimer. monad. destruct (pongTimeout (client w)); reflexivity.
Qed.

Lemma clearHeartbeat_returns (w : World) : fst (clearHeartbeat w) = Ret tt.
Proof.
  unfold clearHeartbeat, clearTimer. monad. destruct (heartbeatTimer (client w)); reflexivity.
Qed.

Lemma disciplined_sendPing : keeps timers_disciplined sendPing.
Proof.
  intros w Hw. unfold sendPing. monad.
  destruct (ws (client w)) as [socket | ]; [ | exact Hw ].
  destruct (is_open w socket); simpl; [ | exact Hw ].
  match goal with |- context [clearPongTimeout ?w0] => set (w1 := w0) end.
  assert (Hw1 : timers_disciplined w1) by exact Hw.
  pose proof (disciplined_clearPongTimeout w1 Hw1) as Hcleared.
  pose proof (clearPongTimeout_null w1) as Hnull.
  pose proof (clearPongTimeout_returns w1) as Hret.
  unfold exec in *. destruct (clearPongTimeout w1) as [[[] | e] w2]; simpl in *; [ | discriminate ].
  apply disciplined_new_pong; assumption.
Qed.

Lemma disciplined_startHeartbeat : keeps timers_disciplined startHeartbeat.
Proof.
  intros w Hw. unfold startHeartbeat, exec, bind at 1.
  pose proof (disciplined_clearHeartbeat w Hw) as Hcleared.
  pose proof (clearHeartbeat_null w) as Hnull.
  pose proof (clearHeartbeat_returns w) as Hret.
  unfold exec in *. destruct (clearHeartbeat w) as [[[] | e] w1]; simpl in *; [ | discriminate ].
  unfold setInterval, arm, Math_random. monad.
  apply (disciplined_new_heartbeat _ _ (set_trace _ (set_draws _ w1))); assumption.
Qed.

Lemma disciplined_handleEvent (signal : KookWSSignal) : keeps timers_disciplined (handleEvent signal).
Proof.
  intros w Hw. destruct (handleEvent_run signal w) as (w' & Hrun & _ & _ & Hsession & Hhost).
  unfold exec. rewrite Hrun. simpl.
  unfold session_of in Hsession. unfold host_of in Hhost.
  injection Hsession as _ _ Hbeat Hpong _ _ _. injection Hhost as _ Htimers Hnext _ _ _ _ _.
  unfold timers_disciplined in *. rewrite Htimers, Hnext, Hbeat, Hpong. exact Hw.
Qed.

#[local] Hint Resolve disciplined_clearTimer disciplined_setTimeout_hello disciplined_sleep
  disciplined_clearPongTimeout disciplined_clearHeartbeat disciplined_sendPing
  disciplined_startHeartbeat disciplined_handleEvent : keeps.

Lemma disciplined_handleReconnect : keeps timers_disciplined handleReconnect.
Proof. unfold handleReconnect, connectFresh, ws_close. keeps_apart. Qed.

Lemma disciplined_reconnectWithBackoff : keeps timers_disciplined reconnectWithBackoff.
Proof. unfold reconnectWithBackoff. keeps_apart. Qed.

#[local] Hint Resolve disciplined_handleReconnect disciplined_reconnectWithBackoff : keeps.

Lemma disciplined_on_message (socket : nat) (data : RawData) :
  keeps timers_disciplined (on_message socket data).
Proof.
  unfold on_message, parseMessage, inflateAsync, JSON_parse_text, handleSignal,
    handleResumeAck, handlePong, access, resolve, reject, settle, connectFresh_catch, ws_close.
  keeps_apart.
Qed.

Lemma disciplined_wake (k : Cont) : keeps timers_disciplined (wake k).
Proof.
  unfold wake, recovery_resumed, recovery_ping_loop, recovery_resume_loop, tryResume,
    reconnectWithBackoff_slept, connectFresh, ws_send.
  keeps_apart.
Qed.

Lemma disciplined_fire (t : Timer) : keeps timers_disciplined (fire t).
Proof.
  pose proof disciplined_wake.
  unfold fire, on_helloTimeout, reject, settle, connectFresh_catch, ws_close, attemptRecovery,
    recovery_ping_loop, recovery_resume_loop.
  keeps_apart.
Qed.

Lemma disciplined_tick : keeps timers_disciplined tick.
Proof.
  intros w Hw. unfold tick, exec. monad.
  destruct (next_due (timers w)) as [t | ] eqn:Hnext; [ | exact Hw ].
  apply next_due_In in Hnext. simpl.
  pose proof (disciplined_disarm (timer_id t) (set_now (Z.max (now w) (due t)) w) Hw) as Hgone.
  destruct (period t) as [ms | ] eqn:Hperiod; simpl.
  - apply (disciplined_fire t). clear Hgone.
    destruct Hw as (Hnodup & Hissued & Hpong & Hbeat). unfold timers_disciplined. simpl.
    split; [ | split; [ | split ] ].
    + apply NoDup_arm; [ apply NoDup_disarm, Hnodup | ]. simpl.
      intros t' Hin. apply In_disarm in Hin. tauto.
    + intros t' Hin. apply in_app_or in Hin as [Hin | [<- | []]]; simpl; [ | auto ].
      apply In_disarm in Hin as [Hin _]. auto.
    + intros t' Hin Hkind. apply in_app_or in Hin as [Hin | [<- | []]]; simpl.
      * apply In_disarm in Hin as [Hin _]. auto.
      * apply Hpong; [ exact Hnext | exact Hkind ].
    + intros t' Hin Hkind. apply in_app_or in Hin as [Hin | [<- | []]]; simpl.
      * apply In_disarm in Hin as [Hin _]. auto.
      * apply Hbeat; [ exact Hnext | exact Hkind ].
  - apply (disciplined_fire t). exact Hgone.
Qed.

Lemma disciplined_handle (ev : Event) : keeps timers_disciplined (handle ev).
Proof.
  pose proof disciplined_tick. pose proof disciplined_on_message.
  destruct ev; unfold handle, connectFresh_gateway, connectFresh_catch, connect, on_open, on_close,
    on_error, start, stop, set_readyState, connectFresh, ws_close.
  all: keeps_apart.
Qed.

Lemma at_most_one (P : Timer -> bool) (id : nat) (ts : list Timer) :
  NoDup (map timer_id ts) ->
  (forall t, In t ts -> P t = true -> timer_id t = id) ->
  (length (List.filter P ts) <= 1)%nat.
Proof.
  induction ts as [ | t ts IH ]; simpl; intros Hnodup Hsame; [ lia | ].
  apply NoDup_cons in Hnodup as [Hfresh Hnodup].
  destruct (P t) eqn:Ht; [ | apply IH; auto ].
  assert (Hnone : List.filter P ts = []).
  { destruct (List.filter P ts) as [ | t' rest ] eqn:Hrest; [ reflexivity | ].
    assert (Hin : In t' (List.filter P ts)) by (rewrite Hrest; left; reflexivity).
    apply filter_In in Hin as [Hin Ht']. exfalso. apply Hfresh.
    apply list_elem_of_In, in_map_iff. exists t'. split; [ | exact Hin ].
    rewrite (Hsame t (or_introl eq_refl) Ht), (Hsame t' (or_intror Hin) Ht'). reflexivity. }
  rewrite Hnone. simpl. lia.
Qed.

Lemma in_loop_disciplined (w : World) : in_loop w -> timers_disciplined w.
Proof.
  induction 1 as [ compress_option | w ev _ IH ].
  - unfold timers_disciplined. simpl. split; [ constructor | ]. repeat split; intros t [].
  - apply (disciplined_handle ev w IH).
Qed.

(** X5. In every world the event loop can bring a new client to, at most one
    PONG timeout and at most one heartbeat timer are armed, each of them the
    one whose handle the object holds; so when [pongTimeout] is null no PONG
    timeout is pending. *)
Theorem loop_keeps_one_timer_each (w : World) :
  in_loop w ->
  (length (List.filter is_pong (timers w)) <= 1)%nat
  /\ (length (List.filter is_heartbeat (timers w)) <= 1)%nat
  /\ (forall t, In t (timers w) -> is_pong t = true ->
        pongTimeout (client w) = Some (timer_id t))
  /\ (forall t, In t (timers w) -> is_heartbeat t = true ->
        heartbeatTimer (client w) = Some (timer_id t)).
Proof.
  intros Hloop. pose proof (in_loop_disciplined w Hloop) as Hw.
  destruct Hw as (Hnodup & _ & Hpong & Hbeat).
  split; [ | split; [ | split; [ exact Hpong | exact Hbeat ] ] ].
  - destruct (pongTimeout (client w)) as [p | ] eqn:Hp.
    + apply (at_most_one is_pong p); [ exact Hnodup | ].
      intros t Hin Hkind. specialize (Hpong t Hin Hkind). congruence.
    + apply (at_most_one is_pong 0%nat); [ exact Hnodup | ].
      intros t Hin Hkind. specialize (Hpong t Hin Hkind). congruence.
  - destruct (heartbeatTimer (client w)) as [h | ] eqn:Hh.
    + apply (at_most_one is_heartbeat h); [ exact Hnodup | ].
      intros t Hin Hkind. specialize (Hbeat t Hin Hkind). congruence.
    + apply (at_most_one is_heartbeat 0%nat); [ exact Hnodup | ].
      intros t Hin Hkind. specialize (Hbeat t Hin Hkind). congruence.
Qed.

End Timers.


(** *** Once stopped *)

Section Stopping.

Context {host : Host}.

Lemma opened_snoc (w w' : World) (said : list (Z * Action)) :
  trace w' = trace w ++ said ->
  forallb (fun a => negb (opens a)) (map snd said) = true ->
  opened w' = opened w.
Proof.
  intros Htrace Hquiet. unfold opened, actions. rewrite Htrace, map_app, List.filter_app.
  assert (Hnone : List.filter opens (map snd said) = []).
  { induction (map snd said) as [ | a rest IH ]; simpl in *; [ reflexivity | ].
    apply andb_prop in Hquiet as [Ha Hrest]. apply negb_true_iff in Ha. rewrite Ha. auto. }
  rewrite Hnone. apply app_nil_r.
Qed.

Lemma halted_emit (sofar : list Action) (a : Action) :
  opens a = false -> keeps (halted sofar) (emit a).
Proof.
  intros Ha w [Hstopped Hopened]. split; [ exact Hstopped | ].
  rewrite (opened_snoc w (exec (emit a) w) [(now w, a)] eq_refl); [ exact Hopened | ].
  simpl. rewrite Ha. reflexivity.
Qed.

Lemma halted_connectFresh (sofar : list Action) : keeps (halted sofar) connectFresh.
Proof.
  intros w [Hstopped Hopened]. unfold connectFresh, exec, bind, this. rewrite Hstopped.
  split; assumption.
Qed.

Lemma halted_connect (sofar : list Action) (url : string) : keeps (halted sofar) (connect url).
Proof.
  intros w [Hstopped Hopened]. unfold connect, exec, bind, this. rewrite Hstopped.
  split; assumption.
Qed.

Lemma halted_drain_one (sofar : list Action) (next : KookWSSignal) (w : World) :
  halted sofar w -> halted sofar (drain_one next w).
Proof.
  intros [Hstopped Hopened]. split; [ exact Hstopped | ].
  rewrite (opened_snoc w (drain_one next w) _ eq_refl); [ exact Hopened | ].
  simpl. destruct (onEvent_raises (d next)); reflexivity.
Qed.

Lemma halted_processEventBuffer (sofar : list Action) : keeps (halted sofar) processEventBuffer.
Proof.
  intros w Hw.
  destruct (processEventBuffer_rule (halted sofar)) with (w := w) as (w' & Hrun & Hkept & _).
  - intros. apply halted_drain_one. assumption.
  - exact Hw.
  - unfold exec. rewrite Hrun. exact Hkept.
Qed.

Lemma halted_stop (sofar : list Action) : keeps (halted sofar) (update (set_stopped true)).
Proof. intros w [_ Hopened]. split; [ reflexivity | exact Hopened ]. Qed.

End Stopping.

#[export] Hint Resolve halted_connectFresh halted_connect halted_processEventBuffer halted_stop : keeps.
#[export] Hint Extern 1 (keeps (halted _) (emit _)) => apply halted_emit; reflexivity : keeps.
#[export] Hint Extern 1 (keeps (halted _) (log _)) => apply halted_emit; reflexivity : keeps.
#[export] Hint Extern 1 (keeps (halted _) (error _)) => apply halted_emit; reflexivity : keeps.

Section Stopped.

Context {host : Host}.

Variable sofar : list Action.

Lemma halted_on_message (socket : nat) (data : RawData) : keeps (halted sofar) (on_message socket data).
Proof.
  unfold on_message, parseMessage, inflateAsync, JSON_parse_text, handleSignal, handleEvent,
    dispatchEvent, handleReconnect, handleResumeAck, handlePong, access, resolve, reject, settle,
    connectFresh_catch, reconnectWithBackoff, startHeartbeat, setInterval, sleep, ws_close.
  keeps_apart.
Qed.

Lemma halted_wake (k : Cont) : keeps (halted sofar) (wake k).
Proof.
  unfold wake, recovery_resumed, recovery_ping_loop, recovery_resume_loop, tryResume,
    reconnectWithBackoff_slept, handleReconnect, sendPing, startHeartbeat, setInterval,
    sleep, ws_send, ws_close.
  keeps_apart.
Qed.

Lemma halted_fire (t : Timer) : keeps (halted sofar) (fire t).
Proof.
  pose proof halted_wake.
  unfold fire, on_helloTimeout, reject, settle, connectFresh_catch, reconnectWithBackoff,
    attemptRecovery, recovery_ping_loop, recovery_resume_loop, handleReconnect, sendPing,
    sleep, ws_send, ws_close.
  keeps_apart.
Qed.

Lemma halted_handle (ev : Event) : ev <> Started -> keeps (halted sofar) (handle ev).
Proof.
  pose proof halted_fire. pose proof halted_on_message.
  intros Hev. destruct ev; try contradiction.
  all: unfold handle, tick, connectFresh_gateway, connectFresh_catch, reconnectWithBackoff,
    on_open, on_close, on_error, stop, set_readyState, sleep, ws_close.
  all: keeps_apart.
Qed.

End Stopped.

(** X6. A stopped client stays stopped and begins no connection: whatever
    happens next, short of [start] being called again, it requests no
    gateway and creates no socket. *)
Theorem stopped_client_begins_nothing {host : Host} (ev : Event) (w : World) :
  stopped (client w) = true ->
  ev <> Started ->
  stopped (client (step w ev)) = true
  /\ opened (step w ev) = opened w.
Proof.
  intros Hstopped Hev. apply (halted_handle (opened w) ev Hev w). split; [ exact Hstopped | reflexivity ].
Qed.


(** ** The public methods and the handshake *)

Section Lifecycle.

Context {host : Host}.

(** X7. [stop] marks the client stopped, clears the heartbeat and the PONG
    timeout, closes the socket with code 1000 and forgets it, and tells the
    owner; it keeps [lastSn], the session id, the buffer and
    [reconnectAttempts]. Called again, it changes nothing in the object or
    the timers and only tells the owner once more. *)
Theorem stop_effect (w : World) :
  let w' := exec stop w in
  fst (stop w) = Ret tt
  /\ stopped (client w') = true
  /\ ws (client w') = None
  /\ heartbeatTimer (client w') = None
  /\ pongTimeout (client w') = None
  /\ (lastSn (client w'), sessionId (client w'), buffer (client w'), reconnectAttempts (client w'))
     = (lastSn (client w), sessionId (client w), buffer (client w), reconnectAttempts (client w))
  /\ since w w'
     = match ws (client w) with
       | Some socket => [AClose socket (Some 1000)]
       | None => []
       end ++ [AOnDisconnected]
  /\ client (exec stop w') = client w'
  /\ timers (exec stop w') = timers w'
  /\ since w' (exec stop w') = [AOnDisconnected].
Proof.
  open_world w.
  unfold stop, clearHeartbeat, clearPongTimeout, ws_close, clearTimer.
  destruct socket, heartbeat, pong.
  all: repeat (split; [ monad; reflexivity | ]).
  all: split; [ said_since; reflexivity | ].
  all: repeat (split; [ monad; reflexivity | ]).
  all: said_since; reflexivity.
Qed.

End Lifecycle.


(** As [said_since], with a tactic of the caller to take the run apart. *)
Ltac said_since_by run :=
  match goal with
  | |- context [since ?w ?w'] =>
      let H := fresh "Htrace" in
      eassert (H : trace w' = trace w ++ _)
        by (run; rewrite <- ?app_assoc; reflexivity);
      rewrite (since_extends _ _ _ H); clear H; simpl
  end.

Section Handshake.

Context {host : Host}.

Lemma parseMessage_run (data : RawData) (w : World) :
  parseMessage data w
  = match JSON_parse (text_of_frame (compress (client w)) data) with
    | Some v => (Ret v, w)
    | None => (Ret None, set_trace (trace w ++ [(now w, AError EJsonParse)]) w)
    end.
Proof.
  unfold parseMessage, inflateAsync, JSON_parse_text, text_of_frame, text_decompressing_first.
  destruct data as [bytes | bytes | chunks]; monad.
  - destruct (compress (client w)); simpl.
    + destruct (inflate bytes); simpl; destruct (JSON_parse _); reflexivity.
    + destruct (JSON_parse _); reflexivity.
  - destruct (JSON_parse _); reflexivity.
  - destruct (JSON_parse _); reflexivity.
Qed.

(** The message handler on a frame that decodes to [signal]. *)
Lemma on_message_signal (socket : nat) (data : RawData) (signal : KookWSSignal) (w : World) :
  JSON_parse (text_of_frame (compress (client w)) data) = Some (Some signal) ->
  on_message socket data w
  = try_catch
      (if s signal =? SIGNAL.HELLO then
         (let* w := get in
          match sockets w !! socket with
          | Some conn => clearTimer (helloTimeout conn)
          | None => ret tt
          end) ;;
         let* code := access (d signal) "code" in
         match code with
         | Value (JNum 0) =>
             let* session_id := access (d signal) "session_id" in
             update (set_sessionId (nullish session_id)) ;;
             update (set_reconnectAttempts 0) ;;
             startHeartbeat ;;
             (let* c := this in log (LHelloSuccess (sessionId c))) ;;
             emit AOnConnected ;;
             resolve socket
         | _ =>
             error (EHelloFailed code) ;;
             ws_close socket None ;;
             reject socket
         end
       else handleSignal signal)
      (fun _ => error EMessageParse) w.
Proof.
  intros Hparse. unfold on_message, try_catch, bind at 1. rewrite parseMessage_run, Hparse.
  reflexivity.
Qed.

(** X8. A HELLO with code 0 is accepted: the session id of the payload is
    stored, [reconnectAttempts] goes back to 0, the HELLO timeout of the
    socket is disarmed, the heartbeat is started afresh, the owner is told
    and the promise of [connect] is settled. [lastSn] and the buffer are not
    touched. *)
Theorem hello_accepted (sock : nat) (data : RawData) (signal : KookWSSignal) (conn : Conn) (w : World) :
  JSON_parse (text_of_frame (compress (client w)) data) = Some (Some signal) ->
  s signal = SIGNAL.HELLO ->
  get_prop (d signal) "code" = Value (JNum 0) ->
  sockets w !! sock = Some conn ->
  let w' := exec (on_message sock data) w in
  fst (on_message sock data w) = Ret tt
  /\ sessionId (client w') = nullish (get_prop (d signal) "session_id")
  /\ reconnectAttempts (client w') = 0
  /\ heartbeatTimer (client w') = Some (next_timer w)
  /\ (lastSn (client w'), buffer (client w'), ws (client w'), stopped (client w'))
     = (lastSn (client w), buffer (client w), ws (client w), stopped (client w))
  /\ since w w'
     = [ASetInterval (HEARTBEAT_INTERVAL_MS + jitter_of_draw (draws w));
        ALog (LHelloSuccess (nullish (get_prop (d signal) "session_id")));
        AOnConnected]
  /\ settled <$> sockets w' !! sock = Some true
  /\ (forall t, In t (timers w') ->
        is_heartbeat t = true /\ timer_id t = next_timer w
        \/ In t (timers w) /\ timer_id t <> helloTimeout conn).
Proof.
  intros Hparse Hkind Hcode Hconn. unfold exec.
  rewrite (on_message_signal sock data signal w Hparse), Hkind. clear Hparse Hkind data.
  assert (Hsid : access (d signal) "session_id" = ret (get_prop (d signal) "session_id")).
  { unfold access. destruct (d signal) eqn:Hd; simpl in Hcode |- *; try reflexivity.
    - discriminate Hcode.
    - destruct (assoc "session_id" fields); reflexivity. }
  assert (Hzero : access (d signal) "code" = ret (Value (JNum 0))).
  { unfold access. rewrite Hcode. reflexivity. }
  rewrite Hzero, Hsid. generalize (get_prop (d signal) "session_id"). intros sid.
  clear Hzero Hsid Hcode.
  open_world w. simpl in Hconn. destruct conn as [state hello done].
  unfold startHeartbeat, clearHeartbeat, setInterval, arm, Math_random, clearTimer, resolve, settle.
  change (SIGNAL.HELLO =? SIGNAL.HELLO) with true. cbv iota.
  destruct heartbeat, done.
  all: repeat (split; [ repeat (monad; rewrite ?Hconn); reflexivity | ]).
  all: split; [ said_since_by ltac:(repeat (monad; rewrite ?Hconn)); reflexivity | ].
  all: split; [ repeat (monad; rewrite ?Hconn; rewrite ?lookup_insert_eq); reflexivity | ].
  all: repeat (monad; rewrite ?Hconn).
  all: intros t Hin; repeat (apply in_app_or in Hin as [Hin | Hin]).
  all: try (apply In_disarm in Hin as [Hin Hne]; try apply In_disarm in Hin as [Hin Hne']; right; split; assumption).
  all: try (destruct Hin as [<- | []]; left; split; reflexivity).
Qed.

End Handshake.


Section Refusal.

Context {host : Host}.

(** X9. A HELLO with any other code is refused: the failure is reported, the
    socket is closed and the promise of [connect] rejected, which sends
    [connectFresh] into [reconnectWithBackoff] at once: one more attempt is
    counted and its delay is slept. No heartbeat is started and the session
    id is not touched. *)
Theorem hello_refused (sock : nat) (data : RawData) (signal : KookWSSignal) (conn : Conn) (w : World) :
  JSON_parse (text_of_frame (compress (client w)) data) = Some (Some signal) ->
  s signal = SIGNAL.HELLO ->
  d signal <> JNull ->
  get_prop (d signal) "code" <> Value (JNum 0) ->
  sockets w !! sock = Some conn ->
  settled conn = false ->
  stopped (client w) = false ->
  let w' := exec (on_message sock data) w in
  fst (on_message sock data w) = Ret tt
  /\ reconnectAttempts (client w') = reconnectAttempts (client w) + 1
  /\ (sessionId (client w'), heartbeatTimer (client w'), lastSn (client w'), ws (client w'))
     = (sessionId (client w), heartbeatTimer (client w), lastSn (client w), ws (client w))
  /\ since w w'
     = [AError (EHelloFailed (get_prop (d signal) "code"));
        AClose sock None;
        AError EGatewayFailed;
        ALog (LReconnecting (backoff (reconnectAttempts (client w) + 1)) (reconnectAttempts (client w) + 1));
        ASleep (backoff (reconnectAttempts (client w) + 1))]
  /\ sockets w' !! sock
     = Some {| readyState := readyState (closing conn); helloTimeout := helloTimeout conn; settled := true |}.
Proof.
  intros Hparse Hkind Hnull Hcode Hconn Hfresh Hrunning. unfold exec.
  rewrite (on_message_signal sock data signal w Hparse), Hkind. clear Hparse Hkind data.
  assert (Haccess : access (d signal) "code" = ret (get_prop (d signal) "code")).
  { unfold access. destruct (d signal) eqn:Hd; simpl; try reflexivity.
    - contradiction.
    - destruct (assoc "code" fields); reflexivity. }
  rewrite Haccess. clear Haccess Hnull.
  generalize dependent (get_prop (d signal) "code"). intros code Hcode.
  open_world w. simpl in Hconn, Hrunning. subst halted.
  destruct conn as [state hello done]. simpl in Hfresh. subst done.
  unfold reject, settle, connectFresh_catch, reconnectWithBackoff, sleep, setTimeout, arm, ws_close, clearTimer.
  change (SIGNAL.HELLO =? SIGNAL.HELLO) with true. cbv iota.
  assert (Hclosing : alter closing sock conns !! sock
                     = Some (closing {| readyState := state; helloTimeout := hello; settled := false |})).
  { rewrite lookup_alter_eq, Hconn. reflexivity. }
  assert (Hbranch : forall (X : Type) (yes no : X),
             match code with Value (JNum 0) => yes | _ => no end = no).
  { intros X yes no. destruct code as [ | | [ | | [ | | ] | | | ]]; try reflexivity. contradiction. }
  split; [ | split; [ | split; [ | split ] ] ].
  all: monad; rewrite Hconn; monad; rewrite Hbranch; monad; rewrite Hclosing.
  - destruct state; reflexivity.
  - destruct state; reflexivity.
  - destruct state; reflexivity.
  - said_since_by ltac:(monad; rewrite ?Hconn; monad; rewrite ?Hbranch; monad; rewrite ?Hclosing; destruct state; monad).
    reflexivity.
  - destruct state; monad; rewrite lookup_insert_eq; reflexivity.
Qed.

(** X10. A HELLO whose payload is null leaves the handshake hanging: reading its
    code throws, which the handler reports as a parse error; but the HELLO
    timeout of the socket has been disarmed by then, and the promise of
    [connect] is neither resolved nor rejected. The object and the sockets
    are as before. *)
Theorem hello_without_payload (sock : nat) (data : RawData) (signal : KookWSSignal) (conn : Conn) (w : World) :
  JSON_parse (text_of_frame (compress (client w)) data) = Some (Some signal) ->
  s signal = SIGNAL.HELLO ->
  d signal = JNull ->
  sockets w !! sock = Some conn ->
  let w' := exec (on_message sock data) w in
  fst (on_message sock data w) = Ret tt
  /\ client w' = client w
  /\ sockets w' = sockets w
  /\ since w w' = [AError EMessageParse]
  /\ timers w' = List.filter (fun t => negb (Nat.eqb (timer_id t) (helloTimeout conn))) (timers w).
Proof.
  intros Hparse Hkind Hnull Hconn. unfold exec.
  rewrite (on_message_signal sock data signal w Hparse), Hkind, Hnull. clear Hparse Hkind Hnull data.
  open_world w. simpl in Hconn. unfold clearTimer, access.
  change (SIGNAL.HELLO =? SIGNAL.HELLO) with true. cbv iota.
  repeat (split; [ monad; rewrite Hconn; reflexivity | ]).
  split; [ said_since_by ltac:(monad; rewrite Hconn; monad); reflexivity | ].
  monad; rewrite Hconn; reflexivity.
Qed.

End Refusal.


Section Liveness.

Context {host : Host}.

(** X11. The "close" handler of a socket clears the heartbeat and the PONG
    timeout and, unless the client is stopped, counts one more attempt and
    sleeps its backoff delay. It resets nothing of the session: [lastSn], the
    session id and the buffer stay, and [ws] still names the closed
    socket. *)
Theorem on_close_effect (sock : nat) (code : Z) (w : World) :
  let w' := exec (on_close sock code) w in
  fst (on_close sock code w) = Ret tt
  /\ heartbeatTimer (client w') = None
  /\ pongTimeout (client w') = None
  /\ (lastSn (client w'), sessionId (client w'), buffer (client w'), ws (client w'), stopped (client w'))
     = (lastSn (client w), sessionId (client w), buffer (client w), ws (client w), stopped (client w))
  /\ reconnectAttempts (client w')
     = (if stopped (client w) then reconnectAttempts (client w) else reconnectAttempts (client w) + 1)
  /\ since w w'
     = ALog (LClosed code)
         :: (if stopped (client w) then []
             else [ALog (LReconnecting (backoff (reconnectAttempts (client w) + 1))
                                       (reconnectAttempts (client w) + 1));
                   ASleep (backoff (reconnectAttempts (client w) + 1))]).
Proof.
  open_world w.
  unfold on_close, clearHeartbeat, clearPongTimeout, reconnectWithBackoff, sleep, setTimeout, arm, clearTimer.
  destruct (conns !! sock) as [conn | ] eqn:Hconn, heartbeat, pong, halted.
  all: repeat (split; [ monad; rewrite Hconn; reflexivity | ]).
  all: said_since_by ltac:(monad; rewrite Hconn; monad); reflexivity.
Qed.

(** X12. [sendPing] does nothing without an open socket. On an open socket it
    writes the PING carrying [lastSn], disarms the PONG timeout it held and
    arms a new one, 6000 ms ahead, which it holds from then on. *)
Theorem sendPing_effect (w : World) :
  let w' := exec sendPing w in
  fst (sendPing w) = Ret tt
  /\ match ws (client w) with
     | Some sock =>
         if is_open w sock then
           since w w' = [ASend sock (FPing (lastSn (client w)))]
           /\ pongTimeout (client w') = Some (next_timer w)
           /\ timers w'
              = match pongTimeout (client w) with
                | Some held => List.filter (fun t => negb (Nat.eqb (timer_id t) held)) (timers w)
                | None => timers w
                end
                ++ [{| timer_id := next_timer w; due := now w + 6000; period := None; callback := CbPong |}]
         else w' = w
     | None => w' = w
     end.
Proof.
  open_world w. unfold sendPing, clearPongTimeout, ws_send, setTimeout, arm, clearTimer.
  destruct socket as [sock | ]; [ | split; reflexivity ].
  monad. destruct (is_open _ sock); [ | split; reflexivity ].
  destruct pong.
  all: split; [ monad; reflexivity | ].
  all: split; [ said_since; reflexivity | split; monad; reflexivity ].
Qed.

(** X13. [tryResume] writes a RESUME only on an open socket and with a session id
    that is truthy (an empty string is not); otherwise it returns false at
    once and touches nothing. The RESUME carries [lastSn], and the method
    then sleeps 6000 ms. *)
Theorem tryResume_effect (i : Z) (w : World) :
  let usable :=
    match ws (client w) with
    | Some sock => is_open w sock
    | None => false
    end && match sessionId (client w) with Some v => truthy v | None => false end in
  let w' := exec (tryResume i) w in
  if usable then
    fst (tryResume i w) = Ret None
    /\ (exists sock, ws (client w) = Some sock
                     /\ since w w' = [ASend sock (FResume (lastSn (client w))); ASleep 6000])
    /\ client w' = client w
    /\ timers w'
       = timers w ++ [{| timer_id := next_timer w; due := now w + 6000; period := None;
                         callback := CbWake (KResumeWaited i) |}]
  else tryResume i w = (Ret (Some false), w).
Proof.
  open_world w. unfold tryResume, sleep, ws_send, setTimeout, arm.
  destruct socket as [sock | ]; [ | reflexivity ].
  monad. destruct (is_open _ sock); [ | reflexivity ]. simpl.
  destruct session as [v | ]; [ | reflexivity ].
  destruct (truthy v); [ | reflexivity ]. simpl.
  split; [ reflexivity | split; [ | split; reflexivity ] ].
  exists sock. split; [ reflexivity | ].
  match goal with |- since ?w0 ?w1 = _ => rewrite (since_extends w0 w1 [(clock, ASend sock (FResume last)); (clock, ASleep 6000)]) end.
  - reflexivity.
  - simpl. rewrite <- app_assoc. reflexivity.
Qed.

End Liveness.


Section Recovery.

Context {host : Host}.

Lemma filter_none {X} (P : X -> bool) (l : list X) :
  (forall x, In x l -> P x = false) -> List.filter P l = [].
Proof.
  induction l as [ | x l IH ]; simpl; intros Hnone; [ reflexivity | ].
  rewrite (Hnone x (or_introl eq_refl)). apply IH. intros y Hy. apply Hnone. right. exact Hy.
Qed.

(** X14. A PONG cancels the PONG timeout: in a world of the loop, once the PONG
    has been handled no PONG timeout is armed any more, so the silence of
    the next 6 s will not start a recovery; nothing else changes. *)
Theorem pong_cancels_timeout (signal : KookWSSignal) (w : World) :
  in_loop w ->
  s signal = SIGNAL.PONG ->
  let w' := exec (handleSignal signal) w in
  fst (handleSignal signal w) = Ret tt
  /\ pongTimeout (client w') = None
  /\ List.filter is_pong (timers w') = []
  /\ since w w' = []
  /\ (ws (client w'), sessionId (client w'), lastSn (client w'), heartbeatTimer (client w'),
      reconnectAttempts (client w'), buffer (client w'), stopped (client w'))
     = (ws (client w), sessionId (client w), lastSn (client w), heartbeatTimer (client w),
        reconnectAttempts (client w), buffer (client w), stopped (client w)).
Proof.
  intros Hloop Hkind. apply in_loop_disciplined in Hloop as (_ & _ & Hpong & _).
  assert (Hroute : handleSignal signal w = clearPongTimeout w).
  { unfold handleSignal. rewrite Hkind. reflexivity. }
  unfold exec. rewrite Hroute. clear Hroute Hkind signal.
  unfold clearPongTimeout, clearTimer. monad.
  destruct (pongTimeout (client w)) as [held | ] eqn:Hheld; simpl.
  - split; [ reflexivity | split; [ reflexivity | split; [ | split ] ] ].
    + apply filter_none. intros t Hin. apply In_disarm in Hin as [Hin Hne].
      destruct (is_pong t) eqn:Hkind; [ | reflexivity ].
      specialize (Hpong t Hin Hkind). congruence.
    + apply (since_extends w _ []). simpl. rewrite app_nil_r. reflexivity.
    + reflexivity.
  - split; [ reflexivity | split; [ exact Hheld | split; [ | split ] ] ].
    + apply filter_none. intros t Hin.
      destruct (is_pong t) eqn:Hkind; [ | reflexivity ].
      specialize (Hpong t Hin Hkind). congruence.
    + apply (since_extends w _ []). simpl. rewrite app_nil_r. reflexivity.
    + reflexivity.
Qed.

Lemma since_actions (w w' : World) (said : list Action) :
  actions w' = actions w ++ said -> since w w' = said.
Proof.
  intros Hsaid. unfold since. rewrite Hsaid. apply drop_app_length'.
  unfold actions. symmetry. apply length_map.
Qed.

Lemma exec_then {A B} (m : M A) (k : A -> M B) (a : A) (w : World) :
  fst (m w) = Ret a ->
  fst (bind m k w) = fst (k a (exec m w)) /\ exec (bind m k) w = exec (k a) (exec m w).
Proof.
  unfold exec, bind. destruct (m w) as [[a' | e] w1]; simpl; intros Hret; inversion Hret.
  split; reflexivity.
Qed.

Lemma plods_dead (m : M unit) (said : list Action) (w : World) :
  dead w -> plods m said w -> dead (exec m w).
Proof.
  intros [_ Hdead] (_ & _ & Hrunning & Hws & _ & Hsockets & _). split; [ exact Hrunning | ].
  rewrite Hws. unfold is_open in *. rewrite Hsockets. exact Hdead.
Qed.

Lemma attemptRecovery_plods (w : World) : dead w -> plods attemptRecovery [ASleep 2000] w.
Proof.
  intros [Hrunning _]. open_world w. simpl in Hrunning. subst halted.
  unfold plods, actions, attemptRecovery, recovery_ping_loop, clearHeartbeat, clearPongTimeout,
    sleep, setTimeout, arm, clearTimer.
  destruct heartbeat, pong; monad; rewrite map_app; repeat split; reflexivity.
Qed.

Lemma ping_tier_plods (i : Z) (w : World) :
  dead w ->
  plods (wake (KPingSlept i)) [ASleep (if i =? 0 then 4000 else 8000)] w
  \/ (i <> 0 /\ i <> 1).
Proof.
  intros [Hrunning Hdead].
  destruct (decide (i = 0)) as [-> | ]; [ left | destruct (decide (i = 1)) as [-> | ]; [ left | right; auto ] ].
  all: open_world w; simpl in Hrunning, Hdead; subst halted.
  all: unfold plods, actions, wake, recovery_ping_loop, recovery_resume_loop, sleep, setTimeout, arm.
  all: monad; rewrite Hdead; monad; rewrite map_app; repeat split; reflexivity.
Qed.

Lemma resume_tier_plods (w : World) :
  dead w -> plods (wake (KResumeSlept 0)) [ASleep 16000] w.
Proof.
  intros [Hrunning Hdead]. open_world w. simpl in Hrunning, Hdead. subst halted.
  unfold plods, actions, wake, tryResume, recovery_resumed, recovery_resume_loop, sleep, setTimeout, arm.
  destruct socket as [sock | ]; monad; rewrite ?Hdead; monad; rewrite map_app; repeat split; reflexivity.
Qed.

Lemma resume_tier_gives_up (w : World) :
  dead w ->
  fst (wake (KResumeSlept 1) w) = Ret tt
  /\ actions (exec (wake (KResumeSlept 1)) w)
     = actions w
         ++ ALog LRecoveryFailed
         :: match ws (client w) with
            | Some sock => [AClose sock (Some 1000)]
            | None => []
            end
         ++ [AGetGateway (next_request w) (if compress (client w) then 1 else 0)]
  /\ (lastSn (client (exec (wake (KResumeSlept 1)) w)),
      sessionId (client (exec (wake (KResumeSlept 1)) w)),
      ws (client (exec (wake (KResumeSlept 1)) w)),
      buffer (client (exec (wake (KResumeSlept 1)) w)))
     = (0, None, None, ∅).
Proof.
  intros [Hrunning Hdead]. open_world w. simpl in Hrunning, Hdead. subst halted.
  unfold actions, wake, tryResume, recovery_resumed, recovery_resume_loop, handleReconnect,
    connectFresh, clearHeartbeat, clearPongTimeout, ws_close, clearTimer.
  destruct socket as [sock | ], heartbeat, pong.
  all: repeat (split; [ monad; rewrite ?Hdead; monad; rewrite ?map_app, <- ?app_assoc; reflexivity | ]).
  all: monad; rewrite ?Hdead; reflexivity.
Qed.

(** X15. With no socket, or a socket that is not open, [attemptRecovery] left to
    itself writes nothing: it sleeps 2000, 4000, 8000 and 16000 ms, gives
    up, and goes into the full reconnect, which closes the socket it had and
    asks for a gateway. *)
Theorem recovery_on_dead_socket (w : World) :
  stopped (client w) = false ->
  match ws (client w) with Some sock => is_open w sock | None => false end = false ->
  let w' := exec recovery_unattended w in
  fst (recovery_unattended w) = Ret tt
  /\ since w w'
     = [ASleep 2000; ASleep 4000; ASleep 8000; ASleep 16000; ALog LRecoveryFailed]
         ++ match ws (client w) with
            | Some sock => [AClose sock (Some 1000)]
            | None => []
            end
         ++ [AGetGateway (next_request w) (if compress (client w) then 1 else 0)]
  /\ (lastSn (client w'), sessionId (client w'), ws (client w'), buffer (client w'))
     = (0, None, None, ∅).
Proof.
  intros Hrunning Hdead. assert (Hw : dead w) by (split; assumption). clear Hrunning Hdead.
  pose proof (attemptRecovery_plods w Hw) as H1.
  pose proof (plods_dead _ _ w Hw H1) as Hw1. set (w1 := exec attemptRecovery w) in *.
  destruct (ping_tier_plods 0 w1 Hw1) as [H2 | [Hne _]]; [ | exfalso; apply Hne; reflexivity ].
  pose proof (plods_dead _ _ w1 Hw1 H2) as Hw2. set (w2 := exec (wake (KPingSlept 0)) w1) in *.
  destruct (ping_tier_plods 1 w2 Hw2) as [H3 | [_ Hne]]; [ | exfalso; apply Hne; reflexivity ].
  pose proof (plods_dead _ _ w2 Hw2 H3) as Hw3. set (w3 := exec (wake (KPingSlept 1)) w2) in *.
  pose proof (resume_tier_plods w3 Hw3) as H4.
  pose proof (plods_dead _ _ w3 Hw3 H4) as Hw4. set (w4 := exec (wake (KResumeSlept 0)) w3) in *.
  destruct (resume_tier_gives_up w4 Hw4) as (Hret5 & Hsaid5 & Hfields).
  destruct H1 as (Hret1 & Hsaid1 & _ & Hws1 & Hc1 & _ & Hr1).
  destruct H2 as (Hret2 & Hsaid2 & _ & Hws2 & Hc2 & _ & Hr2).
  destruct H3 as (Hret3 & Hsaid3 & _ & Hws3 & Hc3 & _ & Hr3).
  destruct H4 as (Hret4 & Hsaid4 & _ & Hws4 & Hc4 & _ & Hr4).
  unfold recovery_unattended.
  destruct (exec_then attemptRecovery (fun _ => wake (KPingSlept 0) ;; wake (KPingSlept 1) ;; wake (KResumeSlept 0) ;; wake (KResumeSlept 1)) tt w Hret1) as [-> ->].
  fold w1.
  destruct (exec_then (wake (KPingSlept 0)) (fun _ => wake (KPingSlept 1) ;; wake (KResumeSlept 0) ;; wake (KResumeSlept 1)) tt w1 Hret2) as [-> ->].
  fold w2.
  destruct (exec_then (wake (KPingSlept 1)) (fun _ => wake (KResumeSlept 0) ;; wake (KResumeSlept 1)) tt w2 Hret3) as [-> ->].
  fold w3.
  destruct (exec_then (wake (KResumeSlept 0)) (fun _ => wake (KResumeSlept 1)) tt w3 Hret4) as [-> ->].
  fold w4.
  split; [ exact Hret5 | split; [ | exact Hfields ] ].
  apply since_actions. subst w4 w3 w2 w1. rewrite Hsaid5, Hsaid4, Hsaid3, Hsaid2, Hsaid1.
  rewrite Hws4, Hws3, Hws2, Hws1, Hc4, Hc3, Hc2, Hc1, Hr4, Hr3, Hr2, Hr1.
  simpl. rewrite <- !app_assoc. reflexivity.
Qed.

(** X16. When the HELLO timeout of a connection fires and the socket it closed
    then reports its closure, [reconnectWithBackoff] runs twice: once from
    the rejected [connect], once from the "close" handler. Two attempts are
    counted and two delays slept for the one failed handshake. *)
Theorem hello_timeout_then_close (sock : nat) (code : Z) (conn : Conn) (w : World) :
  sockets w !! sock = Some conn ->
  settled conn = false ->
  stopped (client w) = false ->
  let w' := step (exec (on_helloTimeout sock) w) (SocketClosed sock code) in
  reconnectAttempts (client w') = reconnectAttempts (client w) + 2
  /\ since w w'
     = [AError EHelloTimeout; AClose sock None; AError EGatewayFailed;
        ALog (LReconnecting (backoff (reconnectAttempts (client w) + 1)) (reconnectAttempts (client w) + 1));
        ASleep (backoff (reconnectAttempts (client w) + 1));
        ALog (LClosed code);
        ALog (LReconnecting (backoff (reconnectAttempts (client w) + 2)) (reconnectAttempts (client w) + 2));
        ASleep (backoff (reconnectAttempts (client w) + 2))].
Proof.
  intros Hconn Hfresh Hrunning. open_world w. simpl in Hconn, Hrunning. subst halted.
  destruct conn as [state hello done]. simpl in Hfresh. subst done.
  unfold step, handle, known, set_readyState, on_close, on_helloTimeout, reject, settle,
    connectFresh_catch, reconnectWithBackoff, clearHeartbeat, clearPongTimeout, sleep, setTimeout,
    arm, ws_close, clearTimer.
  assert (Hclosing : alter closing sock conns !! sock
                     = Some (closing {| readyState := state; helloTimeout := hello; settled := false |}))
    by (rewrite lookup_alter_eq, Hconn; reflexivity).
  assert (Hsettled : forall c (m : gmap nat Conn), <[sock := c]> m !! sock = Some c)
    by (intros; apply lookup_insert_eq).
  assert (Haltered : forall f c (m : gmap nat Conn), alter f sock (<[sock := c]> m) !! sock = Some (f c))
    by (intros; rewrite lookup_alter_eq, lookup_insert_eq; reflexivity).
  destruct state, heartbeat, pong.
  all: unfold closing in *; simpl in Hclosing.
  all: split.
  all: try (said_since_by ltac:(repeat (monad; rewrite ?Hclosing, ?Hsettled, ?Haltered));
            replace (attempts + 1 + 1) with (attempts + 2) by lia; reflexivity).
  all: repeat (monad; rewrite ?Hclosing, ?Hsettled, ?Haltered); lia.
Qed.

End Recovery.

(** ** The delays of the backoff *)

Lemma backoff_range (n : Z) :
  1 <= n -> 1000 <= backoff n <= 60000 /\ (7 <= n -> backoff n = 60000).
Proof.
  intros Hn. unfold backoff, Math_pow.
  assert (Hone : 1 <= 2 ^ (n - 1)) by (apply (Z.pow_le_mono_r 2 0 (n - 1)); lia).
  split; [ lia | ]. intros Hcap.
  assert (H64 : 64 <= 2 ^ (n - 1)) by (apply (Z.pow_le_mono_r 2 6 (n - 1)); lia).
  lia.
Qed.

Section Backing_off.

Context {host : Host}.

(** X18. Wherever the event loop has brought a running client,
    [reconnectWithBackoff] counts one more attempt and sleeps between one
    second and one minute, and one minute from the seventh attempt in a row
    on. *)
Theorem backoff_within_a_minute (w : World) :
  in_loop w ->
  stopped (client w) = false ->
  let w' := exec reconnectWithBackoff w in
  exists ms,
    since w w' = [ALog (LReconnecting ms (reconnectAttempts (client w) + 1)); ASleep ms]
    /\ reconnectAttempts (client w') = reconnectAttempts (client w) + 1
    /\ 1000 <= ms <= 60000
    /\ (7 <= reconnectAttempts (client w') -> ms = 60000)
    /\ In {| timer_id := next_timer w; due := now w + ms; period := None; callback := CbWake KBackoffSlept |}
          (timers w').
Proof.
  intros Hloop Hrunning. apply in_loop_numbers in Hloop as (_ & Hattempts).
  open_world w. simpl in Hrunning, Hattempts. subst halted.
  exists (backoff (attempts + 1)).
  destruct (backoff_range (attempts + 1)) as [Hrange Hcap]; [ lia | ].
  unfold reconnectWithBackoff, sleep, setTimeout, arm.
  split; [ said_since; reflexivity | ].
  split; [ monad; reflexivity | ].
  split; [ exact Hrange | ].
  split; [ monad; exact Hcap | ].
  monad. apply in_or_app. right. left. reflexivity.
Qed.

(** ** From [start] to the socket *)



End Backing_off.

(** ** Recovery by RESUME *)

Section Resuming.

Context {host : Host}.

(** X20. Recovery by RESUME. On an open socket and with a session id, the
    resume step writes a RESUME carrying [lastSn] and waits 6000 ms. A
    RESUME_ACK handled meanwhile stores its session id and starts the
    heartbeat, and that running heartbeat is what the step takes for
    success: the recovery ends there, with [lastSn], the buffer, the socket
    and [reconnectAttempts] as they were. With no acknowledgement the first
    step goes on to the second, 16000 ms later, and the second gives the
    session up for the full reconnect. *)
Theorem resume_acknowledged (i : Z) (sock : nat) (v : Json) (ack : KookWSSignal) (w : World) :
  ws (client w) = Some sock ->
  is_open w sock = true ->
  sessionId (client w) = Some v ->
  truthy v = true ->
  heartbeatTimer (client w) = None ->
  stopped (client w) = false ->
  s ack = SIGNAL.RESUME_ACK ->
  d ack <> JNull ->
  let resuming := exec (wake (KResumeSlept i)) w in
  let acked := exec (handleSignal ack) resuming in
  let w' := exec (wake (KResumeWaited i)) acked in
  let unacked := exec (wake (KResumeWaited i)) resuming in
  since w resuming = [ASend sock (FResume (lastSn (client w))); ASleep 6000]
  /\ since resuming acked
     = [ALog LResumeAck; ASetInterval (HEARTBEAT_INTERVAL_MS + jitter_of_draw (draws w))]
  /\ since acked w' = [ALog LRecoveredByResume]
  /\ (lastSn (client w'), buffer (client w'), ws (client w'), reconnectAttempts (client w'))
     = (lastSn (client w), buffer (client w), ws (client w), reconnectAttempts (client w))
  /\ sessionId (client w') = nullish (get_prop (d ack) "session_id")
  /\ heartbeatTimer (client w') = Some (S (next_timer w))
  /\ (i + 1 < 2 -> since resuming unacked = [ASleep ((i + 1 + 1) * 8000)])
  /\ (2 <= i + 1 ->
        since resuming unacked
        = [ALog LRecoveryFailed; AClose sock (Some 1000);
           AGetGateway (next_request w) (if compress (client w) then 1 else 0)]
        /\ (lastSn (client unacked), sessionId (client unacked), ws (client unacked)) = (0, None, None)).
Proof.
  intros Hws Hopen Hsession Htruthy Hbeat Hrunning Hkind Hnull.
  assert (Hroute : handleSignal ack = (log LResumeAck ;; handleResumeAck (d ack))).
  { unfold handleSignal. rewrite Hkind. reflexivity. }
  assert (Haccess : access (d ack) "session_id" = ret (get_prop (d ack) "session_id")).
  { unfold access. destruct (d ack) eqn:Hd; simpl; try reflexivity.
    - contradiction.
    - destruct (assoc "session_id" fields); reflexivity. }
  rewrite Hroute. unfold handleResumeAck. rewrite Haccess. clear Hroute Haccess Hkind Hnull.
  generalize (get_prop (d ack) "session_id"). intros sid.
  open_world w. simpl in Hws, Hsession, Hbeat, Hrunning. subst socket session heartbeat halted.
  unfold is_open in Hopen. simpl in Hopen.
  destruct (conns !! sock) as [[[] hello done] | ] eqn:Hconn; try discriminate Hopen. clear Hopen.
  unfold wake, tryResume, recovery_resumed, recovery_resume_loop, handleReconnect, connectFresh,
    startHeartbeat, clearHeartbeat, clearPongTimeout, setInterval, sleep, setTimeout, arm, Math_random,
    ws_send, ws_close, clearTimer, is_open.
  cbv zeta.
  split; [ said_since_by ltac:(monad; rewrite ?Hconn, ?Htruthy; monad); reflexivity | ].
  split; [ said_since_by ltac:(monad; rewrite ?Hconn, ?Htruthy; monad); reflexivity | ].
  split; [ said_since_by ltac:(monad; rewrite ?Hconn, ?Htruthy; monad); reflexivity | ].
  split; [ monad; rewrite ?Hconn, ?Htruthy; reflexivity | ].
  split; [ monad; rewrite ?Hconn, ?Htruthy; reflexivity | ].
  split; [ monad; rewrite ?Hconn, ?Htruthy; reflexivity | ].
  split.
  - intros Hfirst. destruct (Z.ltb_spec (i + 1) 2); [ | lia ].
    said_since_by ltac:(monad; rewrite ?Hconn, ?Htruthy; monad). reflexivity.
  - intros Hlast. destruct (Z.ltb_spec (i + 1) 2); [ lia | ].
    destruct pong.
    all: split; [ said_since_by ltac:(monad; rewrite ?Hconn, ?Htruthy; monad); reflexivity | ].
    all: monad; rewrite ?Hconn, ?Htruthy; reflexivity.
Qed.

End Resuming.

(** ** The probe of the recovery and its PONG timeout *)

Lemma next_due_order (earlier later : list Timer) (a t : Timer) :
  next_due (earlier ++ a :: later) = Some t ->
  t = a \/ In t earlier \/ (In t later /\ due t < due a).
Proof.
  induction earlier as [ | e earlier IH ]; simpl.
  - destruct (next_due later) as [t' | ] eqn:Hlater.
    + destruct (Z.ltb_spec (due t') (due a)); intros Hnext; inversion Hnext; subst; auto.
      right. right. split; [ | assumption ].
      clear - Hlater. revert t Hlater. induction later as [ | l later IH ]; simpl; [ discriminate | ].
      intros t. destruct (next_due later) as [t' | ].
      * destruct (due t' <? due l); intros Hnext; inversion Hnext; subst; auto.
      * intros Hnext. inversion Hnext. auto.
    + intros Hnext. inversion Hnext. auto.
  - destruct (next_due (earlier ++ a :: later)) as [t' | ].
    + destruct (due t' <? due e); intros Hnext; inversion Hnext; subst; [ | auto ].
      destruct (IH eq_refl) as [ | [ | ]]; auto.
    + intros Hnext. inversion Hnext. auto.
Qed.

Section Probing.

Context {host : Host}.

(** X21. An extra PING of the recovery that gets no answer passes for answered.
    On an open socket the probe writes its PING, arms the PONG timeout and
    then sleeps, both for 6000 ms: the two timers are due at the same
    instant and the timeout, armed first, is not preceded by the sleep. Its
    callback starts [attemptRecovery] anew, which clears [pongTimeout]; the
    probe that wakes next finds it null, reports a recovery and restarts the
    heartbeat. *)
Theorem unanswered_probe_passes (i : Z) (sock : nat) (w : World) :
  in_loop w ->
  ws (client w) = Some sock ->
  is_open w sock = true ->
  stopped (client w) = false ->
  let probing := exec (wake (KPingSlept i)) w in
  let timeout :=
    {| timer_id := next_timer w; due := now w + 6000; period := None; callback := CbPong |} in
  let waiting :=
    {| timer_id := S (next_timer w); due := now w + 6000; period := None;
       callback := CbWake (KPongWaited i) |} in
  let restarted := exec (fire timeout) probing in
  let w' := exec (wake (KPongWaited i)) restarted in
  since w probing = [ASend sock (FPing (lastSn (client w))); ASleep 6000]
  /\ (exists earlier, timers probing = earlier ++ [timeout; waiting])
  /\ next_due (timers probing) <> Some waiting
  /\ since probing restarted = [ALog LPongTimeout; ASleep 2000]
  /\ pongTimeout (client restarted) = None
  /\ since restarted w'
     = [ALog LRecoveredByPing; ASetInterval (HEARTBEAT_INTERVAL_MS + jitter_of_draw (draws w))].
Proof.
  intros Hloop Hws Hopen Hrunning.
  apply in_loop_disciplined in Hloop as (_ & Hissued & _).
  assert (Htimers : exists earlier,
             timers (exec (wake (KPingSlept i)) w)
             = earlier ++ [{| timer_id := next_timer w; due := now w + 6000; period := None; callback := CbPong |};
                           {| timer_id := S (next_timer w); due := now w + 6000; period := None;
                              callback := CbWake (KPongWaited i) |}]
             /\ forall t, In t earlier -> In t (timers w)).
  { clear Hissued. open_world w. simpl in Hws, Hopen, Hrunning. subst socket halted.
    unfold wake, sendPing, clearPongTimeout, sleep, setTimeout, arm, ws_send, clearTimer.
    destruct pong as [held | ]; monad; rewrite Hopen; monad; rewrite Hopen; monad.
    - eexists. split; [ rewrite <- app_assoc; reflexivity | ].
      intros t Hin. apply In_disarm in Hin as [Hin _]. exact Hin.
    - eexists. split; [ rewrite <- app_assoc; reflexivity | ]. auto. }
  cbv zeta. split; [ | split; [ | split ] ].
  - clear Htimers Hissued. open_world w. simpl in Hws, Hopen, Hrunning. subst socket halted.
    unfold wake, sendPing, clearPongTimeout, sleep, setTimeout, arm, ws_send, clearTimer.
    destruct pong; said_since_by ltac:(monad; rewrite ?Hopen; monad; rewrite ?Hopen; monad); reflexivity.
  - destruct Htimers as (earlier & Htimers & _). exists earlier. exact Htimers.
  - destruct Htimers as (earlier & Htimers & Hearlier). rewrite Htimers. intros Hnext.
    apply next_due_order in Hnext as [Hsame | [Hin | [_ Hdue]]].
    + discriminate Hsame.
    + apply Hearlier, Hissued in Hin. simpl in Hin. lia.
    + simpl in Hdue. lia.
  - clear Htimers Hissued. open_world w. simpl in Hws, Hopen, Hrunning. subst socket halted.
    unfold fire, wake, attemptRecovery, recovery_ping_loop, startHeartbeat, setInterval, Math_random,
      sendPing, clearHeartbeat, clearPongTimeout, sleep, setTimeout, arm, ws_send, clearTimer.
    destruct heartbeat, pong.
    all: split; [ said_since_by ltac:(monad; rewrite ?Hopen; monad; rewrite ?Hopen; monad); reflexivity | ].
    all: split; [ monad; rewrite ?Hopen; monad; rewrite ?Hopen; reflexivity | ].
    all: said_since_by ltac:(monad; rewrite ?Hopen; monad; rewrite ?Hopen; monad); reflexivity.
Qed.

End Probing.

(** ** The socket the client holds *)

Lemma known_alter (f : Conn -> Conn) (target sock : nat) (conns : gmap nat Conn) :
  match alter f target conns !! sock with Some _ => true | None => false end
  = match conns !! sock with Some _ => true | None => false end.
Proof.
  destruct (decide (target = sock)) as [-> | Hne].
  - rewrite lookup_alter_eq. destruct (conns !! sock); reflexivity.
  - rewrite lookup_alter_ne by exact Hne. reflexivity.
Qed.

Lemma known_insert (c : Conn) (target sock : nat) (conns : gmap nat Conn) :
  match conns !! sock with Some _ => true | None => false end = true ->
  match <[target := c]> conns !! sock with Some _ => true | None => false end = true.
Proof.
  intros Hknown. destruct (decide (target = sock)) as [-> | Hne].
  - rewrite lookup_insert_eq. reflexivity.
  - rewrite lookup_insert_ne by exact Hne. exact Hknown.
Qed.

Section Holding.

Context {host : Host}.

Lemma held_ws_close (sock : nat) (code : option Z) : keeps socket_held (ws_close sock code).
Proof.
  intros w [Hstopped Hknown]. split; [ exact Hstopped | ].
  intros held Hheld. specialize (Hknown held Hheld). unfold known in *. simpl.
  rewrite known_alter. exact Hknown.
Qed.

Lemma held_set_readyState (sock : nat) (r : ReadyState) : keeps socket_held (set_readyState sock r).
Proof.
  intros w [Hstopped Hknown]. split; [ exact Hstopped | ].
  intros held Hheld. specialize (Hknown held Hheld). unfold known in *. simpl.
  rewrite known_alter. exact Hknown.
Qed.

Lemma held_forget : keeps socket_held (update (set_ws None)).
Proof. intros w _. split; [ reflexivity | discriminate ]. Qed.

Lemma held_running : keeps socket_held (update (set_stopped false)).
Proof. intros w [_ Hknown]. split; [ discriminate | exact Hknown ]. Qed.

#[local] Hint Resolve held_ws_close held_set_readyState held_forget held_running : keeps.

Lemma held_reconnectWithBackoff : keeps socket_held reconnectWithBackoff.
Proof. unfold reconnectWithBackoff, connectFresh, sleep, setTimeout, arm. keeps_apart. Qed.

Lemma held_connectFresh_catch : keeps socket_held connectFresh_catch.
Proof. pose proof held_reconnectWithBackoff. unfold connectFresh_catch. keeps_apart. Qed.

Lemma held_connect (url : string) : keeps socket_held (connect url).
Proof.
  intros w Hw. pose proof Hw as [Hstopped Hknown]. unfold connect, exec, bind at 1, this.
  destruct (stopped (client w)) eqn:Hrunning; [ exact Hw | ].
  destruct (WebSocket_raises url); [ apply (held_connectFresh_catch w Hw) | ].
  unfold setTimeout, arm. monad.
  split; [ simpl; rewrite Hrunning; discriminate | ].
  intros held Hheld. simpl in Hheld. inversion Hheld. subst held.
  unfold known. simpl. rewrite lookup_insert_eq. reflexivity.
Qed.

#[local] Hint Resolve held_connect : keeps.

Lemma held_settle (sock : nat) (rejected : bool) : keeps socket_held (settle sock rejected).
Proof.
  intros w Hw. unfold settle, exec. monad.
  destruct (sockets w !! sock) as [conn | ] eqn:Hconn; [ | exact Hw ].
  destruct (settled conn); [ exact Hw | ]. simpl.
  assert (Hmarked : socket_held
            (set_sockets (<[sock := {| readyState := readyState conn; helloTimeout := helloTimeout conn;
                                       settled := true |}]> (sockets w)) w)).
  { destruct Hw as [Hstopped Hknown]. split; [ exact Hstopped | ].
    intros held Hheld. specialize (Hknown held Hheld). unfold known in *. simpl.
    apply known_insert. exact Hknown. }
  destruct rejected; [ apply (held_connectFresh_catch _ Hmarked) | exact Hmarked ].
Qed.

Lemma stop_forgets (w : World) : ws (client (exec stop w)) = None.
Proof.
  open_world w. unfold stop, clearHeartbeat, clearPongTimeout, ws_close, clearTimer.
  destruct socket, heartbeat, pong; monad; reflexivity.
Qed.

Lemma held_stop : keeps socket_held stop.
Proof.
  intros w _. pose proof (stop_forgets w) as Hnone.
  split; [ intros _; exact Hnone | ]. intros sock Hheld. congruence.
Qed.

#[local] Hint Resolve held_reconnectWithBackoff held_connectFresh_catch held_settle held_stop : keeps.

Lemma held_handleReconnect : keeps socket_held handleReconnect.
Proof.
  unfold handleReconnect, connectFresh, clearHeartbeat, clearPongTimeout, clearTimer. keeps_apart.
Qed.

Lemma held_processEventBuffer : keeps socket_held processEventBuffer.
Proof.
  intros w Hw.
  destruct (processEventBuffer_rule socket_held) with (w := w) as (w' & Hrun & Hkept & _).
  - intros w0 next Hw0 _. exact Hw0.
  - exact Hw.
  - unfold exec. rewrite Hrun. exact Hkept.
Qed.

#[local] Hint Resolve held_handleReconnect held_processEventBuffer : keeps.

Lemma held_on_message (sock : nat) (data : RawData) : keeps socket_held (on_message sock data).
Proof.
  unfold on_message, parseMessage, inflateAsync, JSON_parse_text, handleSignal, handleEvent, dispatchEvent,
    handleResumeAck, handlePong, access, resolve, reject, startHeartbeat, setInterval, arm, Math_random,
    clearHeartbeat, clearPongTimeout, clearTimer.
  keeps_apart.
Qed.

Lemma held_wake (k : Cont) : keeps socket_held (wake k).
Proof.
  unfold wake, recovery_resumed, recovery_ping_loop, recovery_resume_loop, tryResume,
    reconnectWithBackoff_slept, connectFresh, sendPing, startHeartbeat, setInterval, Math_random,
    clearHeartbeat, clearPongTimeout, sleep, setTimeout, arm, ws_send, clearTimer.
  keeps_apart.
Qed.

Lemma held_fire (t : Timer) : keeps socket_held (fire t).
Proof.
  pose proof held_wake.
  unfold fire, on_helloTimeout, reject, attemptRecovery, recovery_ping_loop, recovery_resume_loop,
    sendPing, clearHeartbeat, clearPongTimeout, sleep, setTimeout, arm, ws_send, clearTimer.
  keeps_apart.
Qed.

Lemma held_handle (ev : Event) : keeps socket_held (handle ev).
Proof.
  pose proof held_fire. pose proof held_on_message.
  destruct ev; unfold handle, tick, connectFresh_gateway, on_open, on_close, on_error, start,
    connectFresh, clearHeartbeat, clearPongTimeout, clearTimer.
  all: keeps_apart.
Qed.

(** X22. Wherever the event loop has brought the client, a stopped client holds
    no socket, and the socket a client holds is one that [connect] has
    created. *)
Theorem loop_keeps_socket_held (w : World) :
  in_loop w ->
  (stopped (client w) = true -> ws (client w) = None)
  /\ (forall sock, ws (client w) = Some sock -> exists conn, sockets w !! sock = Some conn).
Proof.
  intros Hloop.
  assert (Hw : socket_held w).
  { induction Hloop as [ compress_option | w ev _ IH ].
    - split; [ discriminate | discriminate ].
    - apply (held_handle ev w IH). }
  destruct Hw as [Hstopped Hknown]. split; [ exact Hstopped | ].
  intros sock Hheld. specialize (Hknown sock Hheld). unfold known in Hknown.
  destruct (sockets w !! sock) as [conn | ]; [ exists conn; reflexivity | discriminate ].
Qed.

End Holding.

(** ** The REST client *)

Section Rest_requests.

Context {platform : Rest.Platform}.

Lemma request_unfold (c : Rest.KookClient) (method path : string) (opts : Rest.Opts)
    (retryCount : nat) (net : list (Rest.Call Rest.FormData)) :
  Rest.request c method path opts retryCount net
  = let req := Rest.request_init c method path opts in
    match Rest.fetch net req with
    | None => (Rest.Failed Rest.FetchRejected, net ++ [Rest.Fetch req])
    | Some res =>
        if Rest.status res =? 429 then
          if (retryCount <? Rest.maxRetries c)%nat then
            Rest.request c method path opts (S retryCount) (net ++ [Rest.Fetch req; Rest.Sleep (Rest.waitMs res)])
          else (Rest.Failed (Rest.KookRateLimitError (Rest.waitMs res)), net ++ [Rest.Fetch req])
        else (Rest.answer res, net ++ [Rest.Fetch req])
    end.
Proof.
  funelim (Rest.request c method path opts retryCount net); simpl.
  all: repeat match goal with H : Rest.fetch _ _ = _ |- _ => rewrite H; clear H end.
  all: try reflexivity.
  all: match goal with |- context [Rest.status ?res =? 429] => destruct (Z.eqb_spec (Rest.status res) 429) end.
  all: try contradiction; try reflexivity.
  all: destruct (Nat.ltb_spec retryCount (Rest.maxRetries c)); try reflexivity; lia.
Qed.

Lemma request_rounds_within (c : Rest.KookClient) (method path : string) (opts : Rest.Opts) (budget : nat) :
  forall (retryCount : nat) (net : list (Rest.Call Rest.FormData)),
    (Rest.maxRetries c - retryCount = budget)%nat ->
    exists waits,
      (length waits <= budget)%nat
      /\ Rest.throttled (Rest.request_init c method path opts) net waits
      /\ snd (Rest.request c method path opts retryCount net)
         = net ++ Rest.rounds (Rest.request_init c method path opts) waits
               ++ [Rest.Fetch (Rest.request_init c method path opts)].
Proof.
  induction budget as [ | budget IH ]; intros retryCount net Hbudget.
  all: rewrite request_unfold; cbv zeta.
  all: destruct (Rest.fetch net _) as [res | ] eqn:Hfetch;
    [ destruct (Z.eqb_spec (Rest.status res) 429) as [Hstatus | Hstatus];
      [ destruct (Nat.ltb_spec retryCount (Rest.maxRetries c)) as [Hlt | Hge] | ] | ].
  all: try (exists []; simpl; split; [ lia | split; [ exact I | reflexivity ] ]).
  - lia.
  - destruct (IH (S retryCount)
                (net ++ [Rest.Fetch (Rest.request_init c method path opts); Rest.Sleep (Rest.waitMs res)]))
      as (waits & Hlen & Hthrottled & Hcalls); [ lia | ].
    exists (Rest.waitMs res :: waits). simpl. split; [ lia | split ].
    + split; [ exists res; auto | exact Hthrottled ].
    + rewrite Hcalls, <- app_assoc. reflexivity.
Qed.

(** X23. [request] fetches one and the same request again only after a 429, and
    after sleeping the wait that the 429 names; with [retryCount] retries
    behind it, it does so at most [maxRetries - retryCount] times, and it
    does nothing on the network after its last [fetch]. *)
Theorem request_retries_only_throttled (c : Rest.KookClient) (method path : string) (opts : Rest.Opts)
    (retryCount : nat) (net : list (Rest.Call Rest.FormData)) :
  let req := Rest.request_init c method path opts in
  exists waits,
    (length waits <= Rest.maxRetries c - retryCount)%nat
    /\ Rest.throttled req net waits
    /\ snd (Rest.request c method path opts retryCount net)
       = net ++ Rest.rounds req waits ++ [Rest.Fetch req].
Proof.
  apply (request_rounds_within c method path opts _ retryCount net eq_refl).
Qed.

(** X24. Against a server that answers every try with the same 429, [request]
    uses up its retries: it sleeps the wait of the 429 after each try but
    the last and fails with a [KookRateLimitError] carrying that wait. *)
Theorem request_gives_up_throttled (c : Rest.KookClient) (method path : string) (opts : Rest.Opts)
    (retryCount : nat) (net : list (Rest.Call Rest.FormData)) (res : Rest.Response) :
  (forall history, Rest.fetch history (Rest.request_init c method path opts) = Some res) ->
  Rest.status res = 429 ->
  Rest.request c method path opts retryCount net
  = (Rest.Failed (Rest.KookRateLimitError (Rest.waitMs res)),
     net ++ Rest.rounds (Rest.request_init c method path opts)
              (repeat (Rest.waitMs res) (Rest.maxRetries c - retryCount))
         ++ [Rest.Fetch (Rest.request_init c method path opts)]).
Proof.
  intros Hfetch Hstatus.
  remember (Rest.maxRetries c - retryCount)%nat as budget eqn:Hbudget.
  revert retryCount net Hbudget.
  induction budget as [ | budget IH ]; intros retryCount net Hbudget.
  all: rewrite request_unfold; cbv zeta; rewrite Hfetch, Hstatus; simpl.
  all: destruct (Nat.ltb_spec retryCount (Rest.maxRetries c)) as [Hlt | Hge]; try lia.
  - reflexivity.
  - rewrite (IH (S retryCount)) by lia. rewrite <- app_assoc. reflexivity.
Qed.

Lemma request_resolved_within (c : Rest.KookClient) (method path : string) (opts : Rest.Opts)
    (data : Access) (budget : nat) :
  forall (retryCount : nat) (net : list (Rest.Call Rest.FormData)),
    (Rest.maxRetries c - retryCount = budget)%nat ->
    fst (Rest.request c method path opts retryCount net) = Rest.Resolved data ->
    exists history res j,
      snd (Rest.request c method path opts retryCount net)
      = history ++ [Rest.Fetch (Rest.request_init c method path opts)]
      /\ Rest.fetch history (Rest.request_init c method path opts) = Some res
      /\ 200 <= Rest.status res <= 299
      /\ Rest.json res = Some j
      /\ get_prop j "code" = Value (JNum 0)
      /\ data = get_prop j "data".
Proof.
  induction budget as [ | budget IH ]; intros retryCount net Hbudget.
  all: rewrite request_unfold; cbv zeta.
  all: destruct (Rest.fetch net _) as [res | ] eqn:Hfetch; [ | discriminate ].
  all: destruct (Z.eqb_spec (Rest.status res) 429) as [Hstatus | Hstatus].
  all: try destruct (Nat.ltb_spec retryCount (Rest.maxRetries c)) as [Hlt | Hge]; try lia.
  all: try discriminate.
  all: try (apply IH; lia).
  all: simpl; unfold Rest.answer, Rest.ok.
  all: destruct (Z.leb_spec 200 (Rest.status res)); simpl; [ | discriminate ].
  all: destruct (Z.leb_spec (Rest.status res) 299); simpl; [ | discriminate ].
  all: destruct (Rest.json res) as [j | ] eqn:Hjson; [ | discriminate ].
  all: destruct (get_prop j "code") as [ | | [ | | [ | | ] | | | ]] eqn:Hcode; try discriminate.
  all: intros Hdata; inversion Hdata; subst data.
  all: exists net, res, j; repeat split; auto.
Qed.

(** X25. [request] resolves only with the data of a response it has just
    fetched, whose status is in 200-299 and whose body is JSON with the
    code 0: it never resolves on another status, on a body it cannot read,
    or on another code. *)
Theorem request_resolves_only_on_success (c : Rest.KookClient) (method path : string) (opts : Rest.Opts)
    (retryCount : nat) (net : list (Rest.Call Rest.FormData)) (data : Access) :
  fst (Rest.request c method path opts retryCount net) = Rest.Resolved data ->
  exists history res j,
    snd (Rest.request c method path opts retryCount net)
    = history ++ [Rest.Fetch (Rest.request_init c method path opts)]
    /\ Rest.fetch history (Rest.request_init c method path opts) = Some res
    /\ 200 <= Rest.status res <= 299
    /\ Rest.json res = Some j
    /\ get_prop j "code" = Value (JNum 0)
    /\ data = get_prop j "data".
Proof.
  apply (request_resolved_within c method path opts data _ retryCount net eq_refl).
Qed.

(** X26. [getGateway] of a client made from the token [given]: a GET of the
    gateway index with the query string of the one parameter [compress] and
    no body, fetched at most four times with a sleep between two tries; its
    one header is the authorization, the given token behind the prefix
    [Bot], whether or not the token has that prefix already. *)
Theorem getGateway_calls (given : string) (compress : option Z) :
  let qs := Rest.URLSearchParams_toString
              [("compress"%string, Rest.String_of_number (match compress with Some n => n | None => 0 end))] in
  let req := {| Rest.method := "GET";
                Rest.url := if String.eqb qs "" then (Rest.BASE_URL ++ "/gateway/index")%string
                            else (Rest.BASE_URL ++ "/gateway/index" ++ "?" ++ qs)%string;
                Rest.headers := [("Authorization"%string, ("Bot " ++ given)%string)];
                Rest.fetchBody := None |} in
  exists waits,
    (length waits <= 3)%nat
    /\ snd (Rest.getGateway (Rest.new_KookClient given) compress [])
       = Rest.rounds req waits ++ [Rest.Fetch req].
Proof.
  intros qs req. unfold Rest.getGateway, Rest.get.
  destruct (request_rounds_within (Rest.new_KookClient given) "GET" "/gateway/index"
              {| Rest.body := None;
                 Rest.params := Some [("compress"%string,
                                       Rest.String_of_number (match compress with Some n => n | None => 0 end))];
                 Rest.formData := None |} 3 0 [] eq_refl)
    as (waits & Hlen & _ & Hcalls).
  exists waits. split; [ exact Hlen | ]. rewrite Hcalls.
  assert (Hreq : Rest.request_init (Rest.new_KookClient given) "GET" "/gateway/index"
                   {| Rest.body := None;
                      Rest.params := Some [("compress"%string,
                                            Rest.String_of_number (match compress with Some n => n | None => 0 end))];
                      Rest.formData := None |} = req).
  { unfold Rest.request_init, Rest.request_url, Rest.authHeader, Rest.new_KookClient, req, qs. simpl.
    destruct (String.prefix "Bot " given); reflexivity. }
  rewrite Hreq. reflexivity.
Qed.

End Rest_requests.

(** ** The typing indicator *)

Section Typing_indicator.

Context {platform : Rest.Platform}.

Lemma post_calls (given path : string) (value : Json) (net : list (Rest.Call Rest.FormData)) :
  exists waits,
    (length waits <= 3)%nat
    /\ snd (Rest.post (Rest.createKookClient given) path (Some value) net)
       = net ++ Rest.rounds
                  {| Rest.method := "POST";
                     Rest.url := (Rest.BASE_URL ++ path)%string;
                     Rest.headers := [("Authorization"%string, ("Bot " ++ given)%string);
                                      ("Content-Type"%string, "application/json"%string)];
                     Rest.fetchBody := Some (Rest.TextBody (Rest.JSON_stringify value)) |}
                  waits
             ++ [Rest.Fetch
                   {| Rest.method := "POST";
                      Rest.url := (Rest.BASE_URL ++ path)%string;
                      Rest.headers := [("Authorization"%string, ("Bot " ++ given)%string);
                                       ("Content-Type"%string, "application/json"%string)];
                      Rest.fetchBody := Some (Rest.TextBody (Rest.JSON_stringify value)) |}].
Proof.
  unfold Rest.post, Rest.createKookClient.
  destruct (request_rounds_within (Rest.new_KookClient given) "POST" path
              {| Rest.body := Some value; Rest.params := None; Rest.formData := None |} 3 0 net eq_refl)
    as (waits & Hlen & _ & Hcalls).
  exists waits. split; [ exact Hlen | ]. rewrite Hcalls.
  unfold Rest.request_init, Rest.request_url, Rest.authHeader, Rest.new_KookClient. simpl.
  destruct (String.prefix "Bot " given); reflexivity.
Qed.

(** X27. The indicator is taken off where it was put. With a token,
    [addTypingIndicator] posts the reaction to the message, on the
    direct-message route for a PERSON channel and on the channel route
    otherwise, and [removeTypingIndicator], given the state it returned,
    posts the deletion of that emoji on that message on the same route and
    names no user; each of the two fetches at most four times and ends
    whatever the server answers. Without a token, or with an empty one,
    neither does anything on the network. *)
Theorem typing_indicator_round_trip (token : option string) (messageId : string)
    (channelType : Typing.ChannelType) (net : list (Rest.Call Rest.FormData)) :
  let added := Typing.addTypingIndicator token messageId channelType net in
  let removed := Typing.removeTypingIndicator token (fst added) (snd added) in
  fst added = {| Typing.messageId := messageId; Typing.channelType := channelType;
                 Typing.emoji := Typing.TYPING_EMOJI |}
  /\ match token with
     | None => snd added = net /\ removed = net
     | Some given =>
         if String.eqb given "" then snd added = net /\ removed = net
         else
           let route := match channelType with
                        | Typing.PERSON => "/direct-message"%string
                        | Typing.GROUP => "/message"%string
                        end in
           let put := Typing.reaction_request given (route ++ "/add-reaction") messageId Typing.TYPING_EMOJI in
           let taken := Typing.reaction_request given (route ++ "/delete-reaction") messageId Typing.TYPING_EMOJI in
           exists waits waits',
             (length waits <= 3)%nat /\ (length waits' <= 3)%nat
             /\ snd added = net ++ Rest.rounds put waits ++ [Rest.Fetch put]
             /\ removed = snd added ++ Rest.rounds taken waits' ++ [Rest.Fetch taken]
     end.
Proof.
  cbv zeta. unfold Typing.addTypingIndicator, Typing.removeTypingIndicator.
  destruct token as [given | ]; [ | simpl; auto ].
  destruct (String.eqb given "") eqn:Hgiven; [ simpl; auto | ].
  split; [ reflexivity | ]. cbn [fst snd Typing.channelType Typing.messageId Typing.emoji].
  unfold Rest.addReaction, Rest.addDirectReaction, Rest.deleteReaction, Rest.deleteDirectReaction,
    Rest.reaction_body, Typing.reaction_request.
  rewrite app_nil_r.
  destruct channelType.
  - destruct (post_calls given "/message/add-reaction"
                (JObj [("msg_id"%string, JStr messageId); ("emoji"%string, JStr Typing.TYPING_EMOJI)]) net)
      as (waits & Hlen & Hput).
    destruct (post_calls given "/message/delete-reaction"
                (JObj [("msg_id"%string, JStr messageId); ("emoji"%string, JStr Typing.TYPING_EMOJI)])
                (snd (Rest.post (Rest.createKookClient given) "/message/add-reaction"
                        (Some (JObj [("msg_id"%string, JStr messageId);
                                     ("emoji"%string, JStr Typing.TYPING_EMOJI)])) net)))
      as (waits' & Hlen' & Htaken).
    exists waits, waits'. split; [ exact Hlen | split; [ exact Hlen' | split; [ exact Hput | exact Htaken ] ] ].
  - destruct (post_calls given "/direct-message/add-reaction"
                (JObj [("msg_id"%string, JStr messageId); ("emoji"%string, JStr Typing.TYPING_EMOJI)]) net)
      as (waits & Hlen & Hput).
    destruct (post_calls given "/direct-message/delete-reaction"
                (JObj [("msg_id"%string, JStr messageId); ("emoji"%string, JStr Typing.TYPING_EMOJI)])
                (snd (Rest.post (Rest.createKookClient given) "/direct-message/add-reaction"
                        (Some (JObj [("msg_id"%string, JStr messageId);
                                     ("emoji"%string, JStr Typing.TYPING_EMOJI)])) net)))
      as (waits' & Hlen' & Htaken).
    exists waits, waits'. split; [ exact Hlen | split; [ exact Hlen' | split; [ exact Hput | exact Htaken ] ] ].
Qed.

End Typing_indicator.

(** ** More instances *)

Ltac loop_world :=
  cbv beta iota delta [connected awaiting_hello run fold_left];
  repeat apply loop_step; apply loop_new.

Lemma handleEvent_gap_then_run_witness :
  delivered (exec (handleEvent (host := scripted) (event_signal JNum 3)) (new_world None))
  = delivered (new_world None).
Proof.
  destruct (handleEvent_gap_then_run (host := scripted) (event_signal JNum 3) 3 (new_world None) eq_refl)
    as [Hgap _].
  destruct Hgap as (Hkept & _); [ simpl; lia | exact Hkept ].
Defined.

Lemma loop_keeps_numbers_witness : 0 <= reconnectAttempts (client connected).
Proof.
  destruct (loop_keeps_numbers (host := scripted) connected) as (_ & Hattempts).
  - loop_world.
  - exact Hattempts.
Defined.

Lemma loop_keeps_one_timer_each_witness :
  (length (List.filter is_pong (timers pong_overdue)) <= 1)%nat.
Proof.
  destruct (loop_keeps_one_timer_each (host := scripted) pong_overdue) as (Hone & _).
  - cbv beta iota delta [pong_overdue connected run fold_left]. repeat apply loop_step. apply loop_new.
  - exact Hone.
Defined.

Lemma stopped_client_begins_nothing_witness :
  opened (step (host := scripted) (step (host := scripted) connected Stopped) Tick)
  = opened (step (host := scripted) connected Stopped).
Proof.
  destruct (stopped_client_begins_nothing (host := scripted) Tick (step (host := scripted) connected Stopped))
    as [_ Hopened].
  - vm_compute. reflexivity.
  - discriminate.
  - exact Hopened.
Defined.

Lemma hello_accepted_witness :
  sessionId (client (exec (on_message (host := scripted) 0 (frame hello_text)) awaiting_hello))
  = Some (JStr "s-1").
Proof.
  destruct (hello_accepted (host := scripted) 0 (frame hello_text) hello_signal
              {| readyState := OPEN; helloTimeout := 0; settled := false |} awaiting_hello)
    as (_ & Hsession & _).
  - vm_compute. reflexivity.
  - reflexivity.
  - reflexivity.
  - vm_compute. reflexivity.
  - exact Hsession.
Defined.

Lemma hello_refused_witness :
  reconnectAttempts (client (exec (on_message (host := answering refused_signal) 0 (frame hello_text)) awaiting_hello))
  = reconnectAttempts (client awaiting_hello) + 1.
Proof.
  destruct (hello_refused (host := answering refused_signal) 0 (frame hello_text) refused_signal
              {| readyState := OPEN; helloTimeout := 0; settled := false |} awaiting_hello)
    as (_ & Hattempts & _).
  - reflexivity.
  - reflexivity.
  - discriminate.
  - discriminate.
  - vm_compute. reflexivity.
  - reflexivity.
  - vm_compute. reflexivity.
  - exact Hattempts.
Defined.

Lemma hello_without_payload_witness :
  since awaiting_hello (exec (on_message (host := answering bare_signal) 0 (frame hello_text)) awaiting_hello)
  = [AError EMessageParse].
Proof.
  destruct (hello_without_payload (host := answering bare_signal) 0 (frame hello_text) bare_signal
              {| readyState := OPEN; helloTimeout := 0; settled := false |} awaiting_hello)
    as (_ & _ & _ & Hsaid & _).
  - reflexivity.
  - reflexivity.
  - reflexivity.
  - vm_compute. reflexivity.
  - exact Hsaid.
Defined.

Lemma pong_cancels_timeout_witness :
  List.filter is_pong (timers (exec (handleSignal (host := scripted) pong_signal) connected)) = [].
Proof.
  destruct (pong_cancels_timeout (host := scripted) pong_signal connected) as (_ & _ & Hnone & _).
  - loop_world.
  - reflexivity.
  - exact Hnone.
Defined.

Lemma recovery_on_dead_socket_witness :
  since (new_world None) (exec (recovery_unattended (host := scripted)) (new_world None))
  = [ASleep 2000; ASleep 4000; ASleep 8000; ASleep 16000; ALog LRecoveryFailed; AGetGateway 0 1].
Proof.
  destruct (recovery_on_dead_socket (host := scripted) (new_world None)) as (_ & Hsaid & _).
  - reflexivity.
  - reflexivity.
  - exact Hsaid.
Defined.

Lemma hello_timeout_then_close_witness :
  reconnectAttempts
    (client (step (host := scripted) (exec (on_helloTimeout 0) awaiting_hello) (SocketClosed 0 1006)))
  = reconnectAttempts (client awaiting_hello) + 2.
Proof.
  destruct (hello_timeout_then_close (host := scripted) 0 1006
              {| readyState := OPEN; helloTimeout := 0; settled := false |} awaiting_hello)
    as [Hattempts _].
  - vm_compute. reflexivity.
  - reflexivity.
  - vm_compute. reflexivity.
  - exact Hattempts.
Defined.

Lemma backoff_within_a_minute_witness :
  exists ms,
    since awaiting_hello (exec reconnectWithBackoff awaiting_hello)
    = [ALog (LReconnecting ms (reconnectAttempts (client awaiting_hello) + 1)); ASleep ms]
    /\ 1000 <= ms <= 60000.
Proof.
  destruct (backoff_within_a_minute (host := scripted) awaiting_hello) as (ms & Hsaid & _ & Hrange & _).
  - loop_world.
  - vm_compute. reflexivity.
  - exists ms. split; [ exact Hsaid | exact Hrange ].
Defined.

Lemma request_gives_up_throttled_witness :
  fst (Rest.request (platform := throttling) (Rest.new_KookClient "token") "GET" "/gateway/index"
         gateway_opts 0 [])
  = Rest.Failed (Rest.KookRateLimitError (Some 2000)).
Proof.
  rewrite (request_gives_up_throttled (platform := throttling) (Rest.new_KookClient "token")
             "GET" "/gateway/index" gateway_opts 0 [] too_many).
  - reflexivity.
  - intros history. reflexivity.
  - reflexivity.
Defined.

Lemma request_resolves_only_on_success_witness :
  exists history res,
    Rest.fetch (Platform := serving_after 1) history
      (Rest.request_init (platform := serving_after 1) (Rest.new_KookClient "token")
         "GET" "/gateway/index" gateway_opts)
    = Some res
    /\ 200 <= Rest.status res <= 299.
Proof.
  destruct (request_resolves_only_on_success (platform := serving_after 1) (Rest.new_KookClient "token")
              "GET" "/gateway/index" gateway_opts 0 [] (Value gateway_data))
    as (history & res & j & _ & Hfetch & Hstatus & _).
  - rewrite request_unfold. simpl. rewrite request_unfold. simpl. reflexivity.
  - exists history, res. split; [ exact Hfetch | exact Hstatus ].
Defined.

Lemma resume_acknowledged_witness :
  since (exec (handleSignal (host := scripted) resume_ack_signal)
           (exec (wake (host := scripted) (KResumeSlept 0)) pong_overdue))
        (exec (wake (host := scripted) (KResumeWaited 0))
           (exec (handleSignal (host := scripted) resume_ack_signal)
              (exec (wake (host := scripted) (KResumeSlept 0)) pong_overdue)))
  = [ALog LRecoveredByResume].
Proof.
  destruct (resume_acknowledged (host := scripted) 0 0 (JStr "s-1") resume_ack_signal pong_overdue)
    as (_ & _ & Hsaid & _).
  - vm_compute. reflexivity.
  - vm_compute. reflexivity.
  - vm_compute. reflexivity.
  - reflexivity.
  - vm_compute. reflexivity.
  - vm_compute. reflexivity.
  - reflexivity.
  - discriminate.
  - exact Hsaid.
Defined.

Lemma unanswered_probe_passes_witness :
  next_due (timers (exec (wake (host := scripted) (KPingSlept 0)) connected))
  <> Some {| timer_id := S (next_timer connected); due := now connected + 6000; period := None;
             callback := CbWake (KPongWaited 0) |}.
Proof.
  destruct (unanswered_probe_passes (host := scripted) 0 0 connected) as (_ & _ & Hnext & _).
  - loop_world.
  - vm_compute. reflexivity.
  - vm_compute. reflexivity.
  - vm_compute. reflexivity.
  - exact Hnext.
Defined.

Lemma loop_keeps_socket_held_witness :
  ws (client (step (host := scripted) connected Stopped)) = None.
Proof.
  destruct (loop_keeps_socket_held (host := scripted) (step (host := scripted) connected Stopped))
    as [Hnone _].
  - apply loop_step. loop_world.
  - apply Hnone. vm_compute. reflexivity.
Defined.
